(** * Quadtree builder: spatial partitioning and bottom-up aggregation

    A shallow embedding of [src/preprocessing/quadtree_builder.py]:
    the bounding box [Quad], the tree node [QuadtreeNode], the aggregation
    pass [_compute_average_position], the recursive builder [_build] behind
    [build_quadtree_for_category], and the breadth-first [compute_depth_stats].

    Modelling conventions.
    - Python [float] coordinates are exact rationals [Q]: comparisons,
      midpoints, sums and quotients are the mathematical ones (no rounding,
      no NaN, no infinities). Where a property depends on rounding (the
      edges computed by [split_bbox] and [generate_tile_bboxes]), the
      functions are embedded a second time, in the module [Float64], over
      binary64 numbers.
    - Python [int] values ([depth], [max_per_node], [poiCount]) are [Z].
    - A feature is read only through [feature["geometry"]["coordinates"]];
      the rest of the dictionary is an opaque payload.
    - The builder mutates a node it exclusively owns; the embedding threads
      the node through as a value ([_compute_average_position] returns the
      updated node).
    - Exceptions are values of an error type ([PyError]). *)

From Stdlib Require Import String List ZArith QArith Qfield Lqa Lia Bool.
From Stdlib Require Import Sorted Floats Uint63.
From Equations Require Import Equations.
Import ListNotations.

Local Open Scope Z_scope.

(** * The program *)

(** ** Tree settings *)

Definition MAX_DEPTH : Z := 6.
Definition MAX_PER_NODE : Z := 25.

(** ** Features *)

Record Feature : Type := mkFeature {
  coordinates : Q * Q;   (* [lon, lat] *)
  properties : nat       (* opaque payload, never inspected *)
}.

Definition lon_of (f : Feature) : Q := fst (coordinates f).
Definition lat_of (f : Feature) : Q := snd (coordinates f).

(** ** Quad: geographic bounding box *)

Record Quad : Type := mkQuad {
  south : Q;
  west : Q;
  north : Q;
  east : Q
}.

Definition two : Q := 2 # 1.

Definition subdivide_into_quadrants (self : Quad) : list Quad :=
  let mid_lat := ((south self + north self) / two)%Q in
  let mid_lon := ((west self + east self) / two)%Q in
  [ mkQuad (south self) (west self) mid_lat mid_lon;
    mkQuad (south self) mid_lon mid_lat (east self);
    mkQuad mid_lat (west self) (north self) mid_lon;
    mkQuad mid_lat mid_lon (north self) (east self) ].

Definition contains_feature (self : Quad) (feature : Feature) : bool :=
  let '(lon, lat) := coordinates feature in
  (Qle_bool (south self) lat && Qle_bool lat (north self))
  && (Qle_bool (west self) lon && Qle_bool lon (east self)).

Definition from_tuple (t : Q * Q * Q * Q) : Quad :=
  let '(s, w, n, e) := t in mkQuad s w n e.

Definition to_tuple (self : Quad) : Q * Q * Q * Q :=
  (south self, west self, north self, east self).

(** ** QuadtreeNode *)

#[warnings="-register-all"] Inductive QuadtreeNode : Type := mkNode {
  bbox : Quad;
  data : list Feature;
  children : list QuadtreeNode;
  poiCount : Z;
  averagePosition : option (Q * Q)
}.

(** [QuadtreeNode.__init__] *)
Definition new_node (box : Quad) : QuadtreeNode :=
  mkNode box [] [] 0 None.

Definition set_data (self : QuadtreeNode) (d : list Feature) : QuadtreeNode :=
  mkNode (bbox self) d (children self) (poiCount self) (averagePosition self).

Definition append_child (self child : QuadtreeNode) : QuadtreeNode :=
  mkNode (bbox self) (data self) (children self ++ [child])
         (poiCount self) (averagePosition self).

Definition len {A : Type} (l : list A) : Z := Z.of_nat (length l).

(** Python's [sum(...)]: left-to-right accumulation from [0]. *)
Definition py_sum (xs : list Q) : Q := fold_left Qplus xs 0%Q.

(** The accumulator of the internal-node loop: [(total, sum_lon, sum_lat)]. *)
Definition accumulate_child (acc : Z * Q * Q) (c : QuadtreeNode) : Z * Q * Q :=
  let '(total, sum_lon, sum_lat) := acc in
  match averagePosition c with
  | Some (lon, lat) =>
      if 0 <? poiCount c
      then (total + poiCount c,
            (sum_lon + lon * inject_Z (poiCount c))%Q,
            (sum_lat + lat * inject_Z (poiCount c))%Q)
      else acc
  | None => acc
  end.

Fixpoint _compute_average_position (self : QuadtreeNode) : QuadtreeNode :=
  match self with
  | mkNode box dat kids cnt avg =>
      (* Recurse into children first *)
      let kids' := map _compute_average_position kids in
      match kids' with
      | [] =>
          (* Leaf node: direct average of features *)
          let n := len dat in
          if 0 <? n then
            let sum_lon := py_sum (map lon_of dat) in
            let sum_lat := py_sum (map lat_of dat) in
            mkNode box dat kids' n
                   (Some ((sum_lon / inject_Z n)%Q, (sum_lat / inject_Z n)%Q))
          else mkNode box dat kids' cnt avg
      | _ :: _ =>
          (* Internal node: weighted average of children's average positions *)
          let '(total, sum_lon, sum_lat) :=
            fold_left accumulate_child kids' (0, 0%Q, 0%Q) in
          if 0 <? total then
            mkNode box dat kids' total
                   (Some ((sum_lon / inject_Z total)%Q,
                          (sum_lat / inject_Z total)%Q))
          else mkNode box dat kids' total avg
      end
  end.

(** ** Building the quadtree *)

(** The bucket of a quadrant in the [for sub_box in ...] loop of [_build]:
    [[f for f in feats if sub_box.contains_feature(f)]]. *)
Definition bucket_of (feats : list Feature) (sub_box : Quad) : list Feature :=
  filter (contains_feature sub_box) feats.

Definition is_empty {A : Type} (l : list A) : bool :=
  match l with [] => true | _ :: _ => false end.

(** Levels left below [depth]: the recursion of [_build] stops at [MAX_DEPTH]. *)
Definition levels_left (depth : Z) : nat := Z.to_nat (MAX_DEPTH - depth).
Arguments levels_left : simpl never.

Equations? _build (max_per_node : Z) (feats : list Feature) (box : Quad)
    (depth : Z) : QuadtreeNode by wf (levels_left depth) lt :=
  _build max_per_node feats box depth with Z_ge_dec depth MAX_DEPTH := {
    | left _ =>
        (* at max depth: become a leaf *)
        _compute_average_position (set_data (new_node box) feats)
    | right Hdepth =>
        if len feats <=? max_per_node then
          (* small enough: become a leaf *)
          _compute_average_position (set_data (new_node box) feats)
        else
          (* Otherwise, subdivide *)
          let node :=
            fold_left
              (fun node sub_box =>
                 let bucket := bucket_of feats sub_box in
                 if is_empty bucket then node
                 else append_child node
                        (_build max_per_node bucket sub_box (depth + 1)))
              (subdivide_into_quadrants box)
              (set_data (new_node box) feats) in
          (* If we added children, clear the data from this node *)
          let node := if is_empty (children node) then node
                      else set_data node [] in
          (* Compute final average for this node *)
          _compute_average_position node }.
Proof. unfold levels_left, MAX_DEPTH in *; lia. Qed.

Definition build_quadtree_for_category (features : list Feature) (bbox : Quad)
    (max_per_node : Z) : QuadtreeNode :=
  _build max_per_node features bbox 0.

(** ** Nodes of a tree *)

(** Every node of a tree, root first. *)
Fixpoint subnodes (t : QuadtreeNode) : list QuadtreeNode :=
  match t with
  | mkNode _ _ kids _ _ => t :: flat_map subnodes kids
  end.

(** ** Per-depth statistics *)

Inductive PyError : Type :=
| AttributeError (class_name attribute : string)
| TypeError.

(** Outcome of running a loop with a step budget. *)
Inductive outcome (A : Type) : Type :=
| Returned (a : A)
| Raised (e : PyError)
| OutOfFuel.
Arguments Returned {A} a.
Arguments Raised {A} e.
Arguments OutOfFuel {A}.

(** The values held by the attributes of a node. *)
Inductive PyValue : Type :=
| QuadValue (q : Quad)
| FeatureList (l : list Feature)
| NodeList (l : list QuadtreeNode)
| IntValue (z : Z)
| PositionValue (p : option (Q * Q)).

(** Attribute lookup on an instance of [QuadtreeNode]: the instance has the
    attributes assigned in [__init__], and no other statement of the module
    assigns an attribute of a node. *)
Definition getattr (node : QuadtreeNode) (name : string) : outcome PyValue :=
  if String.eqb name "bbox" then Returned (QuadValue (bbox node))
  else if String.eqb name "data" then Returned (FeatureList (data node))
  else if String.eqb name "children" then Returned (NodeList (children node))
  else if String.eqb name "poiCount" then Returned (IntValue (poiCount node))
  else if String.eqb name "averagePosition"
       then Returned (PositionValue (averagePosition node))
  else Raised (AttributeError "QuadtreeNode" name).

(** The right operand of [entry["sumChunkKm"] += ...] has to be a number. *)
Definition as_number (v : PyValue) : outcome Q :=
  match v with
  | IntValue z => Returned (inject_Z z)
  | _ => Raised TypeError
  end.

(** Reading [node.chunkSizeKm] as a number. *)
Definition get_chunkSizeKm (node : QuadtreeNode) : outcome Q :=
  match getattr node "chunkSizeKm" with
  | Returned v => as_number v
  | Raised e => Raised e
  | OutOfFuel => OutOfFuel
  end.

(** One entry of the [stats] dictionary while the traversal runs. *)
Record StatsEntry : Type := mkEntry {
  nodeCount : Z;
  totalPois : Z;
  sumChunkKm : Q
}.

(** One entry of the returned dictionary. *)
Record DepthStats : Type := mkDepthStats {
  stat_nodeCount : Z;
  stat_totalPois : Z;
  avgChunkKm : Q
}.

(** [stats.setdefault(depth, default)] followed by the update of the entry;
    the dictionary keeps its insertion order. *)
Fixpoint update_entry (stats : list (Z * StatsEntry)) (depth : Z)
    (default : StatsEntry) (f : StatsEntry -> StatsEntry)
    : list (Z * StatsEntry) :=
  match stats with
  | [] => [(depth, f default)]
  | (k, e) :: rest =>
      if k =? depth then (k, f e) :: rest
      else (k, e) :: update_entry rest depth default f
  end.

(** The [while queue:] loop. *)
Fixpoint depth_stats_loop (fuel : nat) (queue : list (QuadtreeNode * Z))
    (stats : list (Z * StatsEntry)) : outcome (list (Z * StatsEntry)) :=
  match queue with
  | [] => Returned stats
  | (node, depth) :: queue' =>
      match fuel with
      | O => OutOfFuel
      | S fuel' =>
          match get_chunkSizeKm node with
          | Returned km =>
              let stats' :=
                update_entry stats depth (mkEntry 0 0 0%Q)
                  (fun e => mkEntry (nodeCount e + 1)
                                    (totalPois e + poiCount node)
                                    (sumChunkKm e + km)%Q) in
              depth_stats_loop fuel'
                (queue' ++ map (fun c => (c, depth + 1)) (children node))
                stats'
          | Raised e => Raised e
          | OutOfFuel => OutOfFuel
          end
      end
  end.

(** finalize averages *)
Definition finalize_entry (e : StatsEntry) : DepthStats :=
  mkDepthStats (nodeCount e) (totalPois e)
    (if nodeCount e =? 0 then 0%Q else (sumChunkKm e / inject_Z (nodeCount e))%Q).

(** [compute_depth_stats]: each node is dequeued once, so the number of nodes
    of the tree is budget enough. *)
Definition compute_depth_stats (root : QuadtreeNode)
    : outcome (list (Z * DepthStats)) :=
  match depth_stats_loop (length (subnodes root)) [(root, 0)] [] with
  | Returned stats =>
      Returned (map (fun '(depth, e) => (depth, finalize_entry e)) stats)
  | Raised e => Raised e
  | OutOfFuel => OutOfFuel
  end.

(** * Definitions used to state the properties *)

(** ** Induction and traversals *)

(** Structural induction with the hypothesis available for every child. *)
Fixpoint QuadtreeNode_forall_ind (P : QuadtreeNode -> Prop)
    (step : forall box dat kids cnt avg,
        Forall P kids -> P (mkNode box dat kids cnt avg))
    (t : QuadtreeNode) {struct t} : P t :=
  match t with
  | mkNode box dat kids cnt avg =>
      step box dat kids cnt avg
        ((fix all (l : list QuadtreeNode) : Forall P l :=
            match l with
            | [] => Forall_nil P
            | c :: l' =>
                Forall_cons c (QuadtreeNode_forall_ind P step c) (all l')
            end) kids)
  end.

(** Every node of a tree paired with its depth, the root being at [d]. *)
Fixpoint nodes_from (d : Z) (t : QuadtreeNode) : list (Z * QuadtreeNode) :=
  match t with
  | mkNode _ _ kids _ _ => (d, t) :: flat_map (nodes_from (d + 1)) kids
  end.

(** The feature entries held by the leaves of a tree, left to right. *)
Fixpoint leaf_features (t : QuadtreeNode) : list Feature :=
  match t with
  | mkNode _ dat kids _ _ =>
      match kids with
      | [] => dat
      | _ :: _ => flat_map leaf_features kids
      end
  end.

(** The test [not self.children] that the code uses to tell leaves from
    internal nodes. *)
Definition is_leaf (n : QuadtreeNode) : bool := is_empty (children n).

(** ** The aggregation pass, one node at a time *)

(** The fields the pass assigns at one node, from the node's data, its
    (already processed) children and the previous field values. *)
Definition aggregate_fields (dat : list Feature) (kids : list QuadtreeNode)
    (cnt : Z) (avg : option (Q * Q)) : Z * option (Q * Q) :=
  match kids with
  | [] =>
      let n := len dat in
      if 0 <? n then
        (n, Some ((py_sum (map lon_of dat) / inject_Z n)%Q,
                  (py_sum (map lat_of dat) / inject_Z n)%Q))
      else (cnt, avg)
  | _ :: _ =>
      let '(total, sum_lon, sum_lat) :=
        fold_left accumulate_child kids (0, 0%Q, 0%Q) in
      if 0 <? total then
        (total, Some ((sum_lon / inject_Z total)%Q,
                      (sum_lat / inject_Z total)%Q))
      else (total, avg)
  end.

(** A node carries exactly the fields the pass assigns to a freshly created
    node with the same data and children. *)
Definition node_ok (n : QuadtreeNode) : Prop :=
  (poiCount n, averagePosition n) =
  aggregate_fields (data n) (children n) 0 None.

Definition tree_ok (t : QuadtreeNode) : Prop := Forall node_ok (subnodes t).

(** Counts are never negative, and a node has an average position exactly
    when its count is positive. *)
Definition count_inv (n : QuadtreeNode) : Prop :=
  0 <= poiCount n /\ (averagePosition n = None <-> poiCount n = 0).

(** ** The builder, one call at a time *)

(** The children appended by the [for sub_box in ...] loop, in loop order:
    one per quadrant whose bucket is not empty. *)
Definition quadrant_children (mk : list Feature -> Quad -> QuadtreeNode)
    (feats : list Feature) (quads : list Quad) : list QuadtreeNode :=
  flat_map (fun q => if is_empty (bucket_of feats q) then []
                     else [mk (bucket_of feats q) q]) quads.

(** The node handed to the final aggregation when the leaf test fails. *)
Definition subdivided (mk : list Feature -> Quad -> QuadtreeNode)
    (feats : list Feature) (box : Quad) : QuadtreeNode :=
  let kids := quadrant_children mk feats (subdivide_into_quadrants box) in
  mkNode box (if is_empty kids then feats else []) kids 0 None.

Definition leaf_test (max_per_node : Z) (feats : list Feature) (depth : Z) : bool :=
  (depth >=? MAX_DEPTH) || (len feats <=? max_per_node).

(** No feature of [feats] lies in [box]. *)
Definition none_inside (box : Quad) (feats : list Feature) : Prop :=
  forall f, In f feats -> contains_feature box f = false.

(** A node below the root of a built tree is itself the result of [_build],
    on a non-empty bucket whose features all lie in the node's box. *)
Definition built_below (max_per_node : Z) (d : Z) (n : QuadtreeNode) : Prop :=
  exists fs q,
    n = _build max_per_node fs q d /\ fs <> []
    /\ (forall f, In f fs -> contains_feature q f = true)
    /\ d <= MAX_DEPTH.

Definition inside_count (box : Quad) (feats : list Feature) : Z :=
  len (filter (contains_feature box) feats).

(** ** Sums and means, as the specification words them *)

Definition Qsum (xs : list Q) : Q := fold_right Qplus 0%Q xs.
Definition Zsum (xs : list Z) : Z := fold_right Z.add 0 xs.

(** Arithmetic mean of a list of coordinates. *)
Definition mean (xs : list Q) : Q := (Qsum xs / inject_Z (len xs))%Q.

(** What one child adds to the weighted sum: its average coordinate times its
    point count, and nothing when it has no average position. *)
Definition contribution (coord : Q * Q -> Q) (c : QuadtreeNode) : Q :=
  match averagePosition c with
  | Some p => (coord p * inject_Z (poiCount c))%Q
  | None => 0%Q
  end.

(** Point-count-weighted mean of the children's average positions. *)
Definition weighted_mean (coord : Q * Q -> Q) (cs : list QuadtreeNode) : Q :=
  (Qsum (map (contribution coord) cs) / inject_Z (Zsum (map poiCount cs)))%Q.

(** Leaf with [n] features: the count is [n]; the average position is the
    pair of arithmetic means, and undefined when [n = 0]. *)
Definition leaf_post (n : QuadtreeNode) : Prop :=
  poiCount n = len (data n)
  /\ (len (data n) = 0 -> averagePosition n = None)
  /\ (0 < len (data n) ->
      exists x y, averagePosition n = Some (x, y)
        /\ (x == mean (map lon_of (data n)))%Q
        /\ (y == mean (map lat_of (data n)))%Q).

(** Internal node: the count is the sum of the children's counts; the average
    position is the weighted mean of the children's, and undefined when the
    count is [0]. *)
Definition internal_post (n : QuadtreeNode) : Prop :=
  poiCount n = Zsum (map poiCount (children n))
  /\ (poiCount n = 0 -> averagePosition n = None)
  /\ (0 < poiCount n ->
      exists x y, averagePosition n = Some (x, y)
        /\ (x == weighted_mean fst (children n))%Q
        /\ (y == weighted_mean snd (children n))%Q).

(** ** Geometry of bounding boxes *)

Definition mid_lat (b : Quad) : Q := ((south b + north b) / two)%Q.
Definition mid_lon (b : Quad) : Q := ((west b + east b) / two)%Q.

(** The point [(lon, lat)] lies in the closed rectangle [b]. *)
Definition inside (b : Quad) (lon lat : Q) : Prop :=
  (south b <= lat /\ lat <= north b)%Q /\ (west b <= lon /\ lon <= east b)%Q.

Definition area (b : Quad) : Q := ((north b - south b) * (east b - west b))%Q.

(** ** Leaves and split lines *)

(** The leaves of a tree, left to right. *)
Definition leaves (t : QuadtreeNode) : list QuadtreeNode :=
  filter is_leaf (subnodes t).

(** The number of leaves of [t] whose box contains the feature [f]. *)
Definition times_counted (t : QuadtreeNode) (f : Feature) : Z :=
  len (filter (fun l => contains_feature (bbox l) f) (leaves t)).

(** [f] lies on a line along which [subdivide_into_quadrants] splits [b]. *)
Definition on_midline (b : Quad) (f : Feature) : Prop :=
  (lat_of f == mid_lat b)%Q \/ (lon_of f == mid_lon b)%Q.

(** [f] lies on a split line of [t]: on a midline of a node that has
    children and whose box contains [f]. *)
Definition on_split_line (t : QuadtreeNode) (f : Feature) : Prop :=
  exists n, In n (subnodes t) /\ children n <> []
            /\ contains_feature (bbox n) f = true /\ on_midline (bbox n) f.

(** ** Concrete inputs *)

Definition feature_at (lon lat : Z) (tag : nat) : Feature :=
  mkFeature (inject_Z lon, inject_Z lat) tag.

(** The box [(south=0, west=0, north=4, east=4)]. *)
Definition box_0_4 : Quad := mkQuad 0 0 (4 # 1) (4 # 1).

Definition four_points : list Feature :=
  [feature_at 1 1 0; feature_at 1 3 1; feature_at 3 1 2; feature_at 3 3 3].

(** Two features outside [box_0_4]. *)
Definition far_away : list Feature := [feature_at 10 10 0; feature_at 10 10 1].

(** * More of the program *)

(** ** Serialisation: [QuadtreeNode.to_dict] *)

(** The dictionary [to_dict] returns; its ["bbox"] entry, a dictionary with
    the keys [south], [west], [north] and [east], is a [Quad]. *)
#[warnings="-register-all"] Inductive NodeDict : Type := mkNodeDict {
  dict_bbox : Quad;
  dict_poiCount : Z;
  dict_leafCount : Z;
  dict_averagePosition : option (Q * Q);
  dict_data : list Feature;
  dict_children : list NodeDict
}.

Fixpoint to_dict (self : QuadtreeNode) : NodeDict :=
  match self with
  | mkNode box dat kids cnt avg =>
      mkNodeDict box cnt (len dat) avg dat (map to_dict kids)
  end.

(** Every dictionary nested in a dictionary, the outermost first. *)
Fixpoint dict_nodes (d : NodeDict) : list NodeDict :=
  match d with
  | mkNodeDict _ _ _ _ _ kids => d :: flat_map dict_nodes kids
  end.

(** ** Chunked trees: [classification_pipeline.py] *)

Definition subdivide_into_16 (big_bbox : Quad) : list Quad :=
  flat_map subdivide_into_quadrants (subdivide_into_quadrants big_bbox).

(** Python's [enumerate]. *)
Definition enumerate {A : Type} (l : list A) : list (nat * A) :=
  combine (seq 0 (length l)) l.

(** The loop [for i, cbox in enumerate(chunk_bboxes)] of
    [build_subcat_quadtrees] for the features of one (category, subcategory):
    the index and the tree of every file [quadtree_<i>.json] it writes. *)
Definition chunk_quadtrees (feats : list Feature) (master_bbox : Quad)
    : list (nat * QuadtreeNode) :=
  flat_map
    (fun '(i, cbox) =>
       let chunk_feats := filter (contains_feature cbox) feats in
       if is_empty chunk_feats then []
       else [(i, build_quadtree_for_category chunk_feats cbox 50)])
    (enumerate (subdivide_into_16 master_bbox)).

(** ** Grid split: [bbox_handler.py] *)

(** Exceptions raised by the code below. *)
Inductive Exn : Type :=
| ZeroDivisionError
| ValueError (message : string)
| KeyError (key : string)
| AttributeErrorOn (attribute : string)
| RequestException (max_attempts : Z).

Inductive result (A : Type) : Type :=
| Ok (a : A)
| Err (e : Exn).
Arguments Ok {A} a.
Arguments Err {A} e.

Record BBox : Type := mkBBox {
  min_lat : Q;
  min_lon : Q;
  max_lat : Q;
  max_lon : Q
}.

(** Python's [range(n)] for an integer [n]: empty when [n <= 0]. *)
Definition py_range (n : Z) : list Z := map Z.of_nat (seq 0 (Z.to_nat n)).

(** The chunk in row [i] and column [j] of the comprehension of [split_bbox]. *)
Definition grid_cell (bbox : BBox) (lat_step lon_step : Q) (i j : Z) : BBox :=
  mkBBox (min_lat bbox + inject_Z i * lat_step)%Q
         (min_lon bbox + inject_Z j * lon_step)%Q
         (min_lat bbox + inject_Z (i + 1) * lat_step)%Q
         (min_lon bbox + inject_Z (j + 1) * lon_step)%Q.

Definition split_bbox (bbox : BBox) (divider : Z) : result (list BBox) :=
  if divider =? 0 then Err ZeroDivisionError
  else
    let lat_step := ((max_lat bbox - min_lat bbox) / inject_Z divider)%Q in
    let lon_step := ((max_lon bbox - min_lon bbox) / inject_Z divider)%Q in
    Ok (flat_map
          (fun i => map (fun j => grid_cell bbox lat_step lon_step i j)
                        (py_range divider))
          (py_range divider)).

Definition get_bbox_chunked (bbox : BBox) (divider : Z) : result (list BBox) :=
  split_bbox bbox divider.

(** The conversion in [main_preprocess.main]:
    [Quad(b.min_lat, b.min_lon, b.max_lat, b.max_lon)]. *)
Definition quad_of_bbox (b : BBox) : Quad :=
  mkQuad (min_lat b) (min_lon b) (max_lat b) (max_lon b).

(** Two boxes with equal edges (as rationals). *)
Definition same_box (q q' : Quad) : Prop :=
  (south q == south q')%Q /\ (west q == west q')%Q
  /\ (north q == north q')%Q /\ (east q == east q')%Q.

(** The index, in [subdivide_into_16], of the chunk that is row [i] and
    column [j] of the four-by-four grid. *)
Definition chunk_index (i j : nat) : nat :=
  (4 * (2 * (i / 2) + j / 2) + 2 * (i mod 2) + j mod 2)%nat.

(** ** Dictionaries of JSON-like values *)

(** The values the code reads from a properties dictionary: [None], strings
    and numbers, which is what [node_to_feature] writes and what the
    preprocessed files hold. Lists and dictionaries as values (on which
    [val in mapping] raises [TypeError]) are outside this type. *)
Inductive PyVal : Type :=
| PyNone
| PyStr (s : string)
| PyFloat (x : Q).

(** A dictionary with string keys: the entries in insertion order, each key
    at most once. *)
Definition PyDict : Type := list (string * PyVal).

Fixpoint dict_get (d : PyDict) (key : string) : option PyVal :=
  match d with
  | [] => None
  | (k, v) :: rest => if String.eqb k key then Some v else dict_get rest key
  end.

(** [d[key] = value]: an existing key keeps its place. *)
Fixpoint dict_set (d : PyDict) (key : string) (value : PyVal) : PyDict :=
  match d with
  | [] => [(key, value)]
  | (k, v) :: rest =>
      if String.eqb k key then (k, value) :: rest
      else (k, v) :: dict_set rest key value
  end.

Definition dict_keys (d : PyDict) : list string := map fst d.

(** [key in d] *)
Definition dict_has (d : PyDict) (key : string) : bool :=
  match dict_get d key with Some _ => true | None => false end.

(** [d.get(key)]: [None] when the key is absent. *)
Definition get_or_none (d : PyDict) (key : string) : PyVal :=
  match dict_get d key with Some v => v | None => PyNone end.

Definition is_none (v : PyVal) : bool :=
  match v with PyNone => true | _ => false end.

(** [x in xs] for a tuple of strings. *)
Definition str_in (x : string) (xs : list string) : bool :=
  existsb (String.eqb x) xs.

(** ** Features as dictionaries: [preprocess_tiles.py] *)

(** A GeoJSON-like feature: its ["properties"] dictionary, if it has that
    key, and the ["coordinates"] [[lon, lat]] of its geometry, if any. A
    feature whose ["properties"] entry is [null] instead of a dictionary is
    outside this type. *)
Record GeoFeature : Type := mkGeoFeature {
  feat_properties : option PyDict;
  feat_coordinates : option (Q * Q)
}.

(** [feat.get("properties", {})] *)
Definition properties_of (feat : GeoFeature) : PyDict :=
  match feat_properties feat with Some d => d | None => [] end.

Definition skip_keys : list string :=
  ["id"; "osm_type"; "lat"; "lon"; "created_by"]%string.

(** [[k for k in props if k not in skip_keys]] *)
Definition tag_keys_of (props : PyDict) : list string :=
  filter (fun k => negb (str_in k skip_keys)) (dict_keys props).

(** One round of the loop of [filter_features] on the state
    [(cleaned, discard_missing_geometry, discard_no_tags)]. *)
Definition filter_step (state : list GeoFeature * Z * Z) (feat : GeoFeature)
    : list GeoFeature * Z * Z :=
  let '(cleaned, discard_missing_geometry, discard_no_tags) := state in
  let props := properties_of feat in
  let lat := get_or_none props "lat" in
  let lon := get_or_none props "lon" in
  if is_none lat || is_none lon then
    (cleaned, discard_missing_geometry + 1, discard_no_tags)
  else
    if is_empty (tag_keys_of props) then
      (cleaned, discard_missing_geometry, discard_no_tags + 1)
    else (cleaned ++ [feat], discard_missing_geometry, discard_no_tags).

Definition filter_features (features : list GeoFeature)
    : list GeoFeature * Z * Z :=
  fold_left filter_step features ([], 0, 0).

(** An XML element: tag name, attributes and child elements. *)
#[warnings="-register-all"] Inductive Element : Type := mkElement {
  elem_tag : string;
  elem_attrib : list (string * string);
  elem_children : list Element
}.

(** [element.findall(name)]: the direct children with that tag name. *)
Definition findall (e : Element) (name : string) : list Element :=
  filter (fun c => String.eqb (elem_tag c) name) (elem_children e).

(** [element.get(key)] *)
Fixpoint attrib_get (attrib : list (string * string)) (key : string)
    : option string :=
  match attrib with
  | [] => None
  | (k, v) :: rest => if String.eqb k key then Some v else attrib_get rest key
  end.

(** [element.get(key, default)] *)
Definition attrib_get_default (e : Element) (key default : string) : string :=
  match attrib_get (elem_attrib e) key with Some v => v | None => default end.

Definition remove_empty_nodes (xml_root : Element) : list Element :=
  filter (fun node => negb (is_empty (findall node "tag")))
         (findall xml_root "node").

(** Truth value of an optional string: neither [None] nor empty. *)
Definition truthy (s : option string) : bool :=
  match s with
  | Some (String _ _) => true
  | _ => false
  end.

(** One round of the loop [for tag in node.findall('tag')]. *)
Definition add_tag (properties : PyDict) (tag : Element) : PyDict :=
  let k := attrib_get (elem_attrib tag) "k" in
  let v := attrib_get (elem_attrib tag) "v" in
  match k, v with
  | Some k', Some v' =>
      if truthy k && truthy v then dict_set properties k' (PyStr v')
      else properties
  | _, _ => properties
  end.

(** [node_to_feature]; [py_float] is Python's [float] on strings, [None]
    where it raises [ValueError]. *)
Definition node_to_feature (py_float : string -> option Q) (node : Element)
    : result GeoFeature :=
  let node_id := attrib_get_default node "id" "" in
  let lat_str := attrib_get_default node "lat" "0.0" in
  let lon_str := attrib_get_default node "lon" "0.0" in
  match py_float lat_str with
  | None => Err (ValueError lat_str)
  | Some lat =>
      match py_float lon_str with
      | None => Err (ValueError lon_str)
      | Some lon =>
          let properties :=
            [("id", PyStr node_id); ("osm_type", PyStr "node");
             ("lat", PyFloat lat); ("lon", PyFloat lon)]%string in
          let properties :=
            fold_left add_tag (findall node "tag") properties in
          Ok (mkGeoFeature (Some properties) (Some (lon, lat)))
      end
  end.

(** [[node_to_feature(n) for n in nodes]]: the first exception ends it. *)
Fixpoint convert_nodes_to_geojson (py_float : string -> option Q)
    (nodes : list Element) : result (list GeoFeature) :=
  match nodes with
  | [] => Ok []
  | n :: rest =>
      match node_to_feature py_float n with
      | Err e => Err e
      | Ok feat =>
          match convert_nodes_to_geojson py_float rest with
          | Err e => Err e
          | Ok feats => Ok (feat :: feats)
          end
      end
  end.

(** The conversion chain of [process_single_tile] on a parsed tile. *)
Definition tile_features (py_float : string -> option Q) (root : Element)
    : result (list GeoFeature * Z * Z) :=
  let valid_nodes := remove_empty_nodes root in
  match convert_nodes_to_geojson py_float valid_nodes with
  | Err e => Err e
  | Ok geojson_data => Ok (filter_features geojson_data)
  end.

(** ** Classification: [classification_pipeline.py] *)

(** The shape of [CLASSIFICATION_RULES]: tag key, then tag value, to
    (category, subcategory). *)
Definition Rules : Type := list (string * list (string * (string * string))).

Fixpoint mapping_get (mapping : list (string * (string * string)))
    (key : string) : option (string * string) :=
  match mapping with
  | [] => None
  | (k, v) :: rest => if String.eqb k key then Some v else mapping_get rest key
  end.

(** [mapping[val]] when [val in mapping]: only a string equals a key. *)
Definition mapping_lookup (mapping : list (string * (string * string)))
    (val : PyVal) : option (string * string) :=
  match val with
  | PyStr s => mapping_get mapping s
  | _ => None
  end.

(** [classify_via_dict], for the rules table [rules]. *)
Fixpoint classify_via_dict (rules : Rules) (props : PyDict)
    : option (string * string) :=
  match rules with
  | [] => None
  | (key, mapping) :: rest =>
      match dict_get props key with
      | Some val =>
          match mapping_lookup mapping val with
          | Some cls => Some cls
          | None =>
              match mapping_get mapping "*" with
              | Some cls => Some cls
              | None => classify_via_dict rest props
              end
          end
      | None => classify_via_dict rest props
      end
  end.

(** [pat in s] for strings. *)
Fixpoint is_substring (pat s : string) : bool :=
  String.prefix pat s
  || match s with
     | EmptyString => false
     | String _ s' => is_substring pat s'
     end.

(** The record [store_unclassified] appends to the file of unclassified
    points. *)
Record UnclassifiedRecord : Type := mkUnclassified {
  rec_id : PyVal;
  rec_osm_type : PyVal;
  rec_lat : PyVal;
  rec_lon : PyVal;
  rec_tags : PyDict
}.

(** [store_unclassified] reads [feature["properties"]]. *)
Definition store_unclassified (feature : GeoFeature)
    : result UnclassifiedRecord :=
  match feat_properties feature with
  | None => Err (KeyError "properties")
  | Some props =>
      Ok (mkUnclassified
            (get_or_none props "id") (get_or_none props "osm_type")
            (get_or_none props "lat") (get_or_none props "lon")
            (filter (fun '(k, _) =>
                       negb (str_in k ["id"; "osm_type"; "lat"; "lon"]%string))
                    props))
  end.

(** [classify_poi], for the rules table [rules]; [lower] is [str.lower]. The
    result is the returned triple together with the records appended to the
    file of unclassified points. *)
Definition classify_poi (rules : Rules) (lower : string -> string)
    (feature : GeoFeature)
    : result ((string * string * string) * list UnclassifiedRecord) :=
  let props := properties_of feature in
  (* 1) Check geometry *)
  if is_none (get_or_none props "lat") || is_none (get_or_none props "lon")
  then Ok (("Discard", "Discard", "missing_geometry"), [])%string
  else
    (* 2) Check tags *)
    if is_empty (tag_keys_of props)
    then Ok (("Discard", "Discard", "no_tags"), [])%string
    else
      (* 3) Dict-based classification *)
      match classify_via_dict rules props with
      | Some (cat, sub) => Ok ((cat, sub, "ok"), [])%string
      | None =>
          (* 4) Name-based fallback *)
          match (match dict_get props "name" with
                 | Some v => v
                 | None => PyStr ""
                 end) with
          | PyStr s =>
              let name := lower s in
              if is_substring "hut" name || is_substring "cabin" name
              then Ok (("Accommodation", "Hut", "ok"), [])%string
              else if is_substring "gipfel" name
              then Ok (("Nature", "Peak", "ok"), [])%string
              else if existsb (fun w => is_substring w name)
                        ["waterfall"; "falls"; "cascad"]%string
              then Ok (("Nature", "Waterfall", "ok"), [])%string
              else
                (* 5) Unclassified fallback *)
                match store_unclassified feature with
                | Err e => Err e
                | Ok record =>
                    Ok (("Discard", "Discard", "unclassified"), [record])%string
                end
          | _ => Err (AttributeErrorOn "lower")
          end
      end.

Definition CLASSIFICATION_RULES : Rules :=
  [
    ("amenity",
      [
       ("restaurant", ("Food & Drink", "Restaurant"));
       ("fast_food", ("Food & Drink", "Fast Food"));
       ("cafe", ("Food & Drink", "Café"));
       ("bar", ("Food & Drink", "Bar"));
       ("drinking_water", ("Food & Drink", "Drinking Water"));
       ("fountain", ("Food & Drink", "Drinking Water"));
       ("hospital", ("Amenity", "Hospital"));
       ("clinic", ("Amenity", "Clinic"));
       ("pharmacy", ("Amenity", "Pharmacy"));
       ("fuel", ("Amenity", "Fuel"));
       ("police", ("Amenity", "Police"));
       ("post_office", ("Amenity", "Post Office"));
       ("post_box", ("Amenity", "Post Box"));
       ("school", ("Amenity", "School"));
       ("university", ("Amenity", "University"));
       ("library", ("Amenity", "Library"));
       ("atm", ("Amenity", "ATM"));
       ("bank", ("Amenity", "Bank"));
       ("toilets", ("Amenity", "Toilet"));
       ("bench", ("Amenity", "Bench"));
       ("waste_basket", ("Amenity", "Waste Basket"));
       ("parking", ("Amenity", "Parking"));
       ("fire_extinguisher", ("Emergency", "Fire Extinguisher"));
       ("shelter", ("Accommodation", "Shelter")) ]);
    ("tourism",
      [
       ("alpine_hut", ("Accommodation", "Hut"));
       ("wilderness_hut", ("Accommodation", "Hut"));
       ("chalet", ("Accommodation", "Hut"));
       ("hotel", ("Accommodation", "Hotel"));
       ("motel", ("Accommodation", "Motel"));
       ("hostel", ("Accommodation", "Hostel"));
       ("guest_house", ("Accommodation", "Hostel"));
       ("information", ("Tourism", "Information"));
       ("artwork", ("Tourism", "Art"));
       ("attraction", ("Tourism", "Attraction"));
       ("monument", ("Tourism", "Monument"));
       ("museum", ("Tourism", "Museum"));
       ("statue", ("Tourism", "Statue"));
       ("viewpoint", ("Tourism", "View Point"));
       ("zoo", ("Tourism", "Zoo"));
       ("casino", ("Tourism", "Casino"));
       ("picnic_site", ("Tourism", "Picnic Site"));
       ("castle", ("Tourism", "Castle"));
       ("historic", ("Tourism", "Historic")) ]);
    ("shop",
      [
       ("bakery", ("Shop", "Bakery"));
       ("butcher", ("Shop", "Butcher"));
       ("supermarket", ("Shop", "Supermarket"));
       ("jewelry", ("Shop", "Jewellery"));
       ("hairdresser", ("Shop", "Hairdresser"));
       ("shoes", ("Shop", "Shoes"));
       ("*", ("Shop", "Misc Shops")) ]);
    ("place",
      [
       ("city", ("Settlement", "City"));
       ("town", ("Settlement", "Town"));
       ("village", ("Settlement", "Village"));
       ("hamlet", ("Settlement", "Hamlet"));
       ("suburb", ("Settlement", "Suburb"));
       ("*", ("Settlement", "Misc Settlements")) ]);
    ("emergency",
      [
       ("defibrillator", ("Emergency", "Defibrillator"));
       ("phone", ("Emergency", "Phone"));
       ("fire_extinguisher", ("Emergency", "Fire Extinguisher")) ]);
    ("natural",
      [
       ("peak", ("Nature", "Peak"));
       ("waterfall", ("Nature", "Waterfall"));
       ("tree", ("Nature", "Tree"));
       ("spring", ("Nature", "Spring"));
       ("cave_entrance", ("Nature", "Cave"));
       ("rock", ("Nature", "Rock"));
       ("glacier", ("Nature", "Glacier"));
       ("saddle", ("Nature", "Mountain Pass"));
       ("*", ("Nature", "Misc Nature")) ]);
    ("mountain_pass",
      [
       ("yes", ("Nature", "Mountain Pass")) ]);
    ("railway",
      [
       ("station", ("Transportation", "Train Station"));
       ("halt", ("Transportation", "Train Stop"));
       ("stop", ("Transportation", "Train Stop")) ]);
    ("highway",
      [
       ("bus_stop", ("Transportation", "Bus Stop"));
       ("bus_station", ("Transportation", "Bus Station"));
       ("crossing", ("Transportation", "Pedestrian Crossing"));
       ("traffic_signals", ("Transportation", "Traffic Signals")) ]);
    ("bus",
      [
       ("yes", ("Transportation", "Bus Stop")) ]);
    ("barrier",
      [
       ("gate", ("Infrastructure", "Gate"));
       ("swing_gate", ("Infrastructure", "Gate")) ]);
    ("ford",
      [
       ("yes", ("Infrastructure", "Ford")) ]);
    ("power",
      [
       ("tower", ("Infrastructure", "Power"));
       ("portal", ("Infrastructure", "Power"));
       ("pole", ("Infrastructure", "Power")) ]);
    ("building",
      [
       ("place_of_worship", ("Building", "Place of Worship"));
       ("church", ("Building", "Church"));
       ("mosque", ("Building", "Mosque"));
       ("synagogue", ("Building", "Synagogue"));
       ("cemetery", ("Building", "Cemetery"));
       ("residential", ("Building", "Residential")) ])
  ]%string.

(** ** Predicates on features *)

(** Neither [lat] nor [lon] of the properties is [None]. *)
Definition has_geometry (feat : GeoFeature) : bool :=
  negb (is_none (get_or_none (properties_of feat) "lat")
        || is_none (get_or_none (properties_of feat) "lon")).

(** The properties have a key outside [skip_keys]. *)
Definition has_tags (feat : GeoFeature) : bool :=
  negb (is_empty (tag_keys_of (properties_of feat))).

Definition kept (feat : GeoFeature) : bool :=
  has_geometry feat && has_tags feat.

Definition count_where {A : Type} (p : A -> bool) (l : list A) : Z :=
  len (filter p l).

(** A [tag] element that [node_to_feature] turns into a property outside
    [skip_keys]. *)
Definition meaningful_tag (tag : Element) : bool :=
  match attrib_get (elem_attrib tag) "k", attrib_get (elem_attrib tag) "v" with
  | Some k, Some v =>
      truthy (Some k) && truthy (Some v) && negb (str_in k skip_keys)
  | _, _ => false
  end.

(** The categories that occur in [CLASSIFICATION_RULES]. *)
Definition table_categories : list string :=
  ["Food & Drink"; "Amenity"; "Emergency"; "Accommodation"; "Tourism"; "Shop";
   "Settlement"; "Nature"; "Transportation"; "Infrastructure";
   "Building"]%string.

(** The three answers of the name-based fallback of [classify_poi]. *)
Definition fallback_classes : list (string * string) :=
  [("Accommodation", "Hut"); ("Nature", "Peak"); ("Nature", "Waterfall")]%string.

(** A small rules table and a feature for the instances below. *)
Definition sample_rules : Rules :=
  [("amenity", [("bench", ("Amenity", "Bench"))]);
   ("shop", [("bakery", ("Shop", "Bakery")); ("*", ("Shop", "Misc Shops"))])
  ]%string.

Definition sample_feature : GeoFeature :=
  mkGeoFeature
    (Some [("id", PyStr "1"); ("osm_type", PyStr "node");
           ("lat", PyFloat (47 # 1)); ("lon", PyFloat (11 # 1));
           ("shop", PyStr "kiosk")]%string)
    (Some (11 # 1, 47 # 1)).

(** The tag adds a property: both [k] and [v] are present and not empty. *)
Definition tag_key (tag : Element) : option string :=
  match attrib_get (elem_attrib tag) "k", attrib_get (elem_attrib tag) "v" with
  | Some k, Some v => if truthy (Some k) && truthy (Some v) then Some k else None
  | _, _ => None
  end.

(** A node element with one tag worth keeping, for the instances below. *)
Definition sample_node : Element :=
  mkElement "node" [("id", "7"); ("lat", "47.0"); ("lon", "11.0")]%string
    [mkElement "tag" [("k", "natural"); ("v", "peak")]%string []].

(** A stand-in for [float] that reads the two strings of [sample_node]. *)
Definition sample_float (s : string) : option Q :=
  if String.eqb s "47.0" then Some (47 # 1)
  else if String.eqb s "11.0" then Some (11 # 1)
  else None.

(** ** Box edges in binary64: [bbox_handler.py] and [fetch_overpass.py] *)

(** The functions below compute the edges of boxes. Their results depend on
    rounding, so here a Python [float] is an IEEE 754 binary64 number
    ([PrimFloat.float]): sums, differences, products and quotients round to
    nearest, ties to even, and every comparison with a NaN is false, as in
    Python. *)
Module Float64.

Record BBox : Type := mkBBox {
  min_lat : float;
  min_lon : float;
  max_lat : float;
  max_lon : float
}.

(** [AUSTRIA_BBOX = BBox(46.372652, 9.530952, 49.017078, 17.16058)], each
    literal being the nearest binary64 number. *)
Definition AUSTRIA_BBOX : BBox :=
  mkBBox 0x1.72fb30f8c64fep+5 0x1.30fd8f0c77dd8p+3
         0x1.8822f9ca5bd94p+5 0x1.1291bc5586445p+4.

(** The conversion of an [int] to a [float] in mixed arithmetic, for
    integers below [2^63] in absolute value. *)
Definition float_of_int (z : Z) : float :=
  if z <? 0 then PrimFloat.opp (PrimFloat.of_uint63 (Uint63.of_Z (- z)))
  else PrimFloat.of_uint63 (Uint63.of_Z z).

(** The chunk in row [i] and column [j] of the comprehension of [split_bbox]. *)
Definition grid_cell (bbox : BBox) (lat_step lon_step : float) (i j : Z)
    : BBox :=
  mkBBox (min_lat bbox + float_of_int i * lat_step)%float
         (min_lon bbox + float_of_int j * lon_step)%float
         (min_lat bbox + float_of_int (i + 1) * lat_step)%float
         (min_lon bbox + float_of_int (j + 1) * lon_step)%float.

Definition split_bbox (bbox : BBox) (divider : Z) : result (list BBox) :=
  if divider =? 0 then Err ZeroDivisionError
  else
    let lat_step :=
      ((max_lat bbox - min_lat bbox) / float_of_int divider)%float in
    let lon_step :=
      ((max_lon bbox - min_lon bbox) / float_of_int divider)%float in
    Ok (flat_map
          (fun i => map (fun j => grid_cell bbox lat_step lon_step i j)
                        (py_range divider))
          (py_range divider)).

(** Python's [min(a, b)]: [b] when [b < a], else [a]. *)
Definition py_min (a b : float) : float :=
  if PrimFloat.ltb b a then b else a.

(** The loop [while current_lon < bbox.max_lon] of [generate_tile_bboxes],
    run for at most [fuel] rounds; [None] when the rounds do not suffice. *)
Fixpoint lon_loop (fuel : nat) (bbox : BBox) (lon_step : float)
    (current_lat next_lat current_lon : float) (bboxes : list BBox)
    {struct fuel} : option (list BBox) :=
  if PrimFloat.ltb current_lon (max_lon bbox) then
    match fuel with
    | O => None
    | S fuel' =>
        let next_lon := py_min (current_lon + lon_step)%float (max_lon bbox) in
        let subbox := mkBBox current_lat current_lon next_lat next_lon in
        lon_loop fuel' bbox lon_step current_lat next_lat next_lon
          (bboxes ++ [subbox])
    end
  else Some bboxes.

(** The loop [while current_lat < bbox.max_lat], with at most [fuel] rounds
    for itself and for each run of the inner loop. *)
Fixpoint lat_loop (fuel : nat) (bbox : BBox) (lat_step lon_step : float)
    (current_lat : float) (bboxes : list BBox) {struct fuel}
    : option (list BBox) :=
  if PrimFloat.ltb current_lat (max_lat bbox) then
    match fuel with
    | O => None
    | S fuel' =>
        let next_lat := py_min (current_lat + lat_step)%float (max_lat bbox) in
        let current_lon := min_lon bbox in
        match lon_loop (S fuel') bbox lon_step current_lat next_lat
                current_lon bboxes with
        | None => None
        | Some bboxes' =>
            lat_loop fuel' bbox lat_step lon_step next_lat bboxes'
        end
    end
  else Some bboxes.

(** [generate_tile_bboxes] with a budget of loop rounds: [None] when the
    budget does not suffice, else what the function returns or raises. *)
Definition generate_tile_bboxes (fuel : nat) (bbox : BBox)
    (lat_step lon_step : float) : option (result (list BBox)) :=
  if PrimFloat.leb lat_step 0 then
    Some (Err (ValueError "lat_step must be > 0."))
  else if PrimFloat.leb lon_step 0 then
    Some (Err (ValueError "lon_step must be > 0."))
  else
    match lat_loop fuel bbox lat_step lon_step (min_lat bbox) [] with
    | None => None
    | Some bboxes => Some (Ok bboxes)
    end.

(** The point [(lon, lat)] lies in the closed rectangle [b], with the
    comparisons of [Quad.contains_feature]. *)
Definition contains (b : BBox) (lon lat : float) : bool :=
  (PrimFloat.leb (min_lat b) lat && PrimFloat.leb lat (max_lat b))
  && (PrimFloat.leb (min_lon b) lon && PrimFloat.leb lon (max_lon b)).

(** The [k]-th edge along one axis of the grid of [split_bbox]. *)
Definition edge (lo hi : float) (divider k : Z) : float :=
  (lo + float_of_int k * ((hi - lo) / float_of_int divider))%float.

(** [x] is a number: not a NaN. *)
Definition is_number (x : float) : Prop := PrimFloat.leb x x = true.

End Float64.

(** ** Fetching with retries: [fetch_osm_data] *)

(** What one call of [requests.get] does: it returns a response, or raises
    a [RequestException] (no connection, timeout). *)
Inductive Reply : Type :=
| Response (status_code : Z) (text : string)
| ConnectionFailed.

(** [response.raise_for_status()] raises for the codes 400 to 599. *)
Definition raises_for_status (status_code : Z) : bool :=
  (400 <=? status_code) && (status_code <? 600).

(** The loop [for attempt in range(max_attempts)]. The server answers the
    [n]-th request with [server n]; the state is the list of the seconds
    slept so far and the number of requests sent. *)
Fixpoint attempt_loop (server : nat -> Reply) (max_attempts : Z)
    (attempts : list Z) (slept : list Z) (sent : nat)
    : result string * list Z * nat :=
  match attempts with
  | [] => (Err (RequestException max_attempts), slept, sent)
  | attempt :: rest =>
      match server sent with
      | Response status_code text =>
          if status_code =? 429 then
            let backoff_seconds := 5 * (attempt + 1) in
            attempt_loop server max_attempts rest
              (slept ++ [backoff_seconds]) (S sent)
          else if raises_for_status status_code then
            let backoff_seconds := 3 * (attempt + 1) in
            attempt_loop server max_attempts rest
              (slept ++ [backoff_seconds]) (S sent)
          else (Ok text, slept ++ [1], S sent)
      | ConnectionFailed =>
          let backoff_seconds := 3 * (attempt + 1) in
          attempt_loop server max_attempts rest
            (slept ++ [backoff_seconds]) (S sent)
      end
  end.

Definition fetch_osm_data (server : nat -> Reply)
    : result string * list Z * nat :=
  let max_attempts := 3 in
  attempt_loop server max_attempts (py_range max_attempts) [] 0.

(** The reply makes the attempt succeed with the text [text]. *)
Definition succeeds_with (r : Reply) (text : string) : Prop :=
  exists status_code,
    r = Response status_code text /\ status_code <> 429
    /\ raises_for_status status_code = false.

(** The reply makes the attempt fail: rate limit, error status or no
    response at all. *)
Definition fails (r : Reply) : Prop :=
  match r with
  | Response status_code _ =>
      status_code = 429 \/ raises_for_status status_code = true
  | ConnectionFailed => True
  end.

(** ** Classifying and grouping: step 1 of [build_subcat_quadtrees] *)

(** The dictionary [discard_stats]; its keys are [missing_geometry],
    [no_tags] and [unclassified]. *)
Record DiscardStats : Type := mkDiscardStats {
  missing_geometry : Z;
  no_tags : Z;
  unclassified : Z
}.

(** [cat_map], a [defaultdict(list)] keyed by (category, subcategory): the
    entries in insertion order. *)
Definition CatMap : Type := list ((string * string) * list GeoFeature).

Definition class_eqb (k k' : string * string) : bool :=
  String.eqb (fst k) (fst k') && String.eqb (snd k) (snd k').

(** [cat_map[key].append(feat)] *)
Fixpoint cat_map_append (m : CatMap) (key : string * string)
    (feat : GeoFeature) : CatMap :=
  match m with
  | [] => [(key, [feat])]
  | (k, feats) :: rest =>
      if class_eqb k key then (k, feats ++ [feat]) :: rest
      else (k, feats) :: cat_map_append rest key feat
  end.

Record ClassifyState : Type := mkClassifyState {
  total_feats : Z;
  discard_stats : DiscardStats;
  cat_map : CatMap;
  unclassified_file : list UnclassifiedRecord
}.

(** [discard_stats[reason] += 1], or the [unclassified] counter when
    [reason] is not a key. *)
Definition count_discard (stats : DiscardStats) (reason : string)
    : DiscardStats :=
  if String.eqb reason "missing_geometry" then
    mkDiscardStats (missing_geometry stats + 1) (no_tags stats)
                   (unclassified stats)
  else if String.eqb reason "no_tags" then
    mkDiscardStats (missing_geometry stats) (no_tags stats + 1)
                   (unclassified stats)
  else
    mkDiscardStats (missing_geometry stats) (no_tags stats)
                   (unclassified stats + 1).

(** One round of the loop [for feat in feats_in_file]. *)
Definition classify_step (rules : Rules) (lower : string -> string)
    (only_subcats : bool) (test_subcats : list string)
    (st : ClassifyState) (feat : GeoFeature) : result ClassifyState :=
  match classify_poi rules lower feat with
  | Err e => Err e
  | Ok ((cat, sub, reason), records) =>
      let total := total_feats st + 1 in
      let file := unclassified_file st ++ records in
      if String.eqb cat "Discard" then
        Ok (mkClassifyState total (count_discard (discard_stats st) reason)
                            (cat_map st) file)
      else if only_subcats && negb (str_in sub test_subcats) then
        Ok (mkClassifyState total (discard_stats st) (cat_map st) file)
      else
        Ok (mkClassifyState total (discard_stats st)
                            (cat_map_append (cat_map st) (cat, sub) feat) file)
  end.

Fixpoint classify_loop (rules : Rules) (lower : string -> string)
    (only_subcats : bool) (test_subcats : list string)
    (feats : list GeoFeature) (st : ClassifyState) : result ClassifyState :=
  match feats with
  | [] => Ok st
  | feat :: rest =>
      match classify_step rules lower only_subcats test_subcats st feat with
      | Err e => Err e
      | Ok st' => classify_loop rules lower only_subcats test_subcats rest st'
      end
  end.

(** Step 1 of [build_subcat_quadtrees] on the features read from the input
    files, in reading order. *)
Definition classify_all (rules : Rules) (lower : string -> string)
    (only_subcats : bool) (test_subcats : list string)
    (feats : list GeoFeature) : result ClassifyState :=
  classify_loop rules lower only_subcats test_subcats feats
    (mkClassifyState 0 (mkDiscardStats 0 0 0) [] []).

(** [sum(discard_stats.values())] *)
Definition total_discarded (stats : DiscardStats) : Z :=
  missing_geometry stats + no_tags stats + unclassified stats.

(** Number of features held by [cat_map]. *)
Definition grouped (m : CatMap) : Z := Zsum (map (fun e => len (snd e)) m).

(** The feature [f] is held under the class [key]. *)
Definition in_group (m : CatMap) (key : string * string) (f : GeoFeature)
    : Prop :=
  exists feats, In (key, feats) m /\ In f feats.

(** ** Category hierarchy: [generate_cat_hierarchy.py] *)

(** [s.add(x)] on a set held as a list without repetition. *)
Definition set_add (x : string) (s : list string) : list string :=
  if str_in x s then s else s ++ [x].

(** The two statements of the inner loop of [export_subcat_definitions]:
    create the set of the category if there is none, then add to it. *)
Fixpoint category_add (category_map : list (string * list string))
    (cat_name subcat_name : string) : list (string * list string) :=
  match category_map with
  | [] => [(cat_name, set_add subcat_name [])]
  | (c, subcats) :: rest =>
      if String.eqb c cat_name then (c, set_add subcat_name subcats) :: rest
      else (c, subcats) :: category_add rest cat_name subcat_name
  end.

(** Insertion into a list in ascending order of [String.leb] (byte-wise
    lexicographic order, which on UTF-8 text is the order of code points
    that Python compares strings by). *)
Fixpoint insert_sorted (x : string) (l : list string) : list string :=
  match l with
  | [] => [x]
  | y :: rest =>
      if String.leb x y then x :: l else y :: insert_sorted x rest
  end.

(** [sorted(subcats)] *)
Definition py_sorted (l : list string) : list string :=
  fold_right insert_sorted [] l.

(** The loop [for osm_value, (cat_name, subcat_name) in value_map.items()]. *)
Definition add_value_map (category_map : list (string * list string))
    (value_map : list (string * (string * string)))
    : list (string * list string) :=
  fold_left
    (fun category_map '(osm_value, (cat_name, subcat_name)) =>
       category_add category_map cat_name subcat_name)
    value_map category_map.

(** The loop [for tag_key, value_map in CLASSIFICATION_RULES.items()]. *)
Definition add_rules (category_map : list (string * list string))
    (rules : Rules) : list (string * list string) :=
  fold_left
    (fun category_map '(tag_key, value_map) =>
       add_value_map category_map value_map)
    rules category_map.

(** The dictionary [category_json] that [export_subcat_definitions] writes,
    for the rules table [rules]. *)
Definition export_subcat_definitions (rules : Rules)
    : list (string * list string) :=
  let category_map := add_rules [] rules in
  map (fun '(cat, subcats) => (cat, py_sorted subcats)) category_map.

(** The rules give the class [(cat, sub)] to some tag. *)
Definition class_in_rules (rules : Rules) (cat sub : string) : Prop :=
  exists tag_key value_map osm_value,
    In (tag_key, value_map) rules /\ In (osm_value, (cat, sub)) value_map.

(** Strictly ascending. *)
Definition ascending (l : list string) : Prop :=
  Sorted (fun a b => String.ltb a b = true) l.

(** What is known about a category map while it is filled. *)
Definition category_map_ok (m : list (string * list string)) : Prop :=
  NoDup (map fst m)
  /\ Forall (fun e => snd e <> [] /\ NoDup (snd e)) m.

(** The number that [build_subcat_quadtrees] logs after the chunk loop as
    "wrote %d non-empty chunks": [i + 1], where [i] is the loop variable of
    [for i, cbox in enumerate(chunk_bboxes)], which after the loop holds the
    index of the last chunk visited ([None]: the loop body never ran and [i]
    is unbound). *)
Definition last_chunk_index (master_bbox : Quad) : option nat :=
  fold_left (fun _ (p : nat * Quad) => Some (fst p))
            (enumerate (subdivide_into_16 master_bbox)) None.

Definition logged_chunk_count (master_bbox : Quad) : option Z :=
  option_map (fun i => Z.of_nat i + 1) (last_chunk_index master_bbox).

(** A chunk is occupied when one of the features lies in it. *)
Definition occupied (feats : list Feature) (cbox : Quad) : bool :=
  existsb (contains_feature cbox) feats.

(** * Properties *)

(** ** The aggregation pass *)

Lemma _compute_average_position_eq box dat kids cnt avg :
  _compute_average_position (mkNode box dat kids cnt avg) =
  let kids' := map _compute_average_position kids in
  let '(cnt', avg') := aggregate_fields dat kids' cnt avg in
  mkNode box dat kids' cnt' avg'.
Proof.
  cbn [_compute_average_position]. unfold aggregate_fields.
  destruct (map _compute_average_position kids) as [|c cs].
  - destruct (0 <? len dat); reflexivity.
  - destruct (fold_left accumulate_child (c :: cs) (0, 0%Q, 0%Q)) as [[total sl] sa].
    destruct (0 <? total); reflexivity.
Qed.

Lemma aggregate_fields_stable dat kids cnt avg :
  let '(cnt', avg') := aggregate_fields dat kids cnt avg in
  aggregate_fields dat kids cnt' avg' = (cnt', avg').
Proof.
  unfold aggregate_fields. destruct kids as [|c cs].
  - destruct (0 <? len dat) eqn:E; cbv zeta; rewrite ?E; reflexivity.
  - destruct (fold_left accumulate_child (c :: cs) (0, 0%Q, 0%Q)) as [[total sl] sa].
    destruct (0 <? total) eqn:E; rewrite ?E; reflexivity.
Qed.

Lemma map_fixed {A : Type} (f : A -> A) (l : list A) :
  Forall (fun x => f x = x) l -> map f l = l.
Proof.
  induction 1 as [|x l Hx _ IH]; cbn; [reflexivity|]. now rewrite Hx, IH.
Qed.

Lemma bbox_compute t : bbox (_compute_average_position t) = bbox t.
Proof.
  destruct t as [box dat kids cnt avg]. rewrite _compute_average_position_eq.
  cbv zeta. destruct (aggregate_fields _ _ _ _). reflexivity.
Qed.

Lemma data_compute t : data (_compute_average_position t) = data t.
Proof.
  destruct t as [box dat kids cnt avg]. rewrite _compute_average_position_eq.
  cbv zeta. destruct (aggregate_fields _ _ _ _). reflexivity.
Qed.

Lemma children_compute t :
  children (_compute_average_position t) =
  map _compute_average_position (children t).
Proof.
  destruct t as [box dat kids cnt avg]. rewrite _compute_average_position_eq.
  cbv zeta. destruct (aggregate_fields _ _ _ _). reflexivity.
Qed.

Lemma compute_twice t :
  _compute_average_position (_compute_average_position t) =
  _compute_average_position t.
Proof.
  induction t as [box dat kids cnt avg IH] using QuadtreeNode_forall_ind.
  rewrite _compute_average_position_eq. cbv zeta.
  assert (Hk : map _compute_average_position (map _compute_average_position kids)
               = map _compute_average_position kids).
  { apply map_fixed. rewrite Forall_map. exact IH. }
  pose proof (aggregate_fields_stable dat (map _compute_average_position kids) cnt avg) as Hs.
  destruct (aggregate_fields dat (map _compute_average_position kids) cnt avg) as [cnt' avg'].
  rewrite _compute_average_position_eq. cbv zeta.
  rewrite Hk, Hs. reflexivity.
Qed.

(** ** Unfolding the builder *)

Lemma subdivide_loop mk feats quads node :
  fold_left (fun node sub_box =>
               let bucket := bucket_of feats sub_box in
               if is_empty bucket then node
               else append_child node (mk bucket sub_box)) quads node =
  mkNode (bbox node) (data node)
         (children node ++ quadrant_children mk feats quads)
         (poiCount node) (averagePosition node).
Proof.
  revert node. induction quads as [|q quads IH]; intros node; cbn.
  - rewrite app_nil_r. now destruct node.
  - rewrite IH. destruct (is_empty (bucket_of feats q)); cbn.
    + reflexivity.
    + now rewrite <- app_assoc.
Qed.

Lemma _build_step max_per_node feats box depth :
  _build max_per_node feats box depth =
  if leaf_test max_per_node feats depth
  then _compute_average_position (mkNode box feats [] 0 None)
  else _compute_average_position
         (subdivided (fun b q => _build max_per_node b q (depth + 1)) feats box).
Proof.
  rewrite _build_equation_1. unfold leaf_test.
  destruct (Z_ge_dec depth MAX_DEPTH) as [Hge|Hlt]; cbn [_build_unfold_clause_1].
  - replace (depth >=? MAX_DEPTH) with true by (symmetry; apply Z.geb_le; lia).
    reflexivity.
  - replace (depth >=? MAX_DEPTH) with false
      by (symmetry; rewrite Z.geb_leb; apply Z.leb_gt; lia).
    cbn [orb]. destruct (len feats <=? max_per_node); [reflexivity|].
    cbv zeta.
    rewrite (subdivide_loop (fun b q => _build max_per_node b q (depth + 1))).
    unfold subdivided, set_data, new_node.
    cbn [bbox data children poiCount averagePosition app].
    set (kids := quadrant_children _ _ _).
    destruct kids; reflexivity.
Qed.

Lemma leaf_test_true max_per_node feats depth :
  leaf_test max_per_node feats depth = true <->
  depth >= MAX_DEPTH \/ len feats <= max_per_node.
Proof.
  unfold leaf_test. rewrite orb_true_iff, Z.geb_le, Z.leb_le. lia.
Qed.

Lemma leaf_test_false max_per_node feats depth :
  leaf_test max_per_node feats depth = false <->
  depth < MAX_DEPTH /\ max_per_node < len feats.
Proof.
  unfold leaf_test. rewrite orb_false_iff, Z.geb_leb, !Z.leb_gt. lia.
Qed.

(** Induction following the recursion of [_build]. *)
Lemma _build_induction (max_per_node : Z)
    (P : list Feature -> Quad -> Z -> QuadtreeNode -> Prop) :
  (forall feats box depth,
      leaf_test max_per_node feats depth = true ->
      P feats box depth (_compute_average_position (mkNode box feats [] 0 None))) ->
  (forall feats box depth,
      leaf_test max_per_node feats depth = false ->
      (forall q, P (bucket_of feats q) q (depth + 1)
                   (_build max_per_node (bucket_of feats q) q (depth + 1))) ->
      P feats box depth
        (_compute_average_position
           (subdivided (fun b q => _build max_per_node b q (depth + 1)) feats box))) ->
  forall feats box depth, P feats box depth (_build max_per_node feats box depth).
Proof.
  intros Hleaf Hsplit feats box depth.
  remember (levels_left depth) as k eqn:Hk.
  revert feats box depth Hk.
  induction k as [k IH] using lt_wf_ind. intros feats box depth Hk.
  rewrite _build_step.
  destruct (leaf_test max_per_node feats depth) eqn:Ht.
  - now apply Hleaf.
  - apply Hsplit; [exact Ht|]. intros q.
    apply leaf_test_false in Ht.
    apply (IH (levels_left (depth + 1))); [|reflexivity].
    subst k. unfold levels_left. lia.
Qed.

(** ** Aggregated trees *)

Lemma subnodes_eq t : subnodes t = t :: flat_map subnodes (children t).
Proof. now destruct t. Qed.

Lemma nodes_from_eq d t :
  nodes_from d t = (d, t) :: flat_map (nodes_from (d + 1)) (children t).
Proof. now destruct t. Qed.

Lemma tree_ok_inv t :
  tree_ok t <-> node_ok t /\ Forall tree_ok (children t).
Proof.
  unfold tree_ok. rewrite subnodes_eq, Forall_cons_iff, Forall_flat_map.
  reflexivity.
Qed.

Lemma tree_ok_fixed t : tree_ok t -> _compute_average_position t = t.
Proof.
  induction t as [box dat kids cnt avg IH] using QuadtreeNode_forall_ind.
  intros [Hn Hk]%tree_ok_inv. cbn [children] in Hk.
  rewrite _compute_average_position_eq. cbv zeta.
  assert (E : map _compute_average_position kids = kids).
  { apply map_fixed. rewrite Forall_forall in *. auto. }
  rewrite E. red in Hn. cbn [poiCount averagePosition data children] in Hn.
  pose proof (aggregate_fields_stable dat kids 0 None) as Hs.
  rewrite <- Hn in Hs. now rewrite Hs.
Qed.

Lemma compute_fresh_ok box dat kids :
  Forall tree_ok kids ->
  _compute_average_position (mkNode box dat kids 0 None) =
    (let '(cnt, avg) := aggregate_fields dat kids 0 None in
     mkNode box dat kids cnt avg)
  /\ tree_ok (_compute_average_position (mkNode box dat kids 0 None)).
Proof.
  intros Hk. rewrite _compute_average_position_eq. cbv zeta.
  assert (E : map _compute_average_position kids = kids).
  { apply map_fixed. rewrite Forall_forall in *. auto using tree_ok_fixed. }
  rewrite E. destruct (aggregate_fields dat kids 0 None) as [cnt avg] eqn:Ea.
  split; [reflexivity|]. apply tree_ok_inv. split; [|exact Hk].
  red. cbn [poiCount averagePosition data children]. now rewrite Ea.
Qed.

Lemma quadrant_children_Forall (P : QuadtreeNode -> Prop) mk feats quads :
  (forall q, In q quads -> bucket_of feats q <> [] -> P (mk (bucket_of feats q) q)) ->
  Forall P (quadrant_children mk feats quads).
Proof.
  intros H. unfold quadrant_children. apply Forall_flat_map, Forall_forall.
  intros q Hq. destruct (bucket_of feats q) eqn:E; cbn; constructor; [|constructor].
  rewrite <- E. apply H; [exact Hq|]. now rewrite E.
Qed.

Lemma _build_tree_ok max_per_node feats box depth :
  tree_ok (_build max_per_node feats box depth).
Proof.
  apply (_build_induction max_per_node (fun _ _ _ t => tree_ok t)).
  - intros fs b d _. now apply compute_fresh_ok.
  - intros fs b d _ IH. unfold subdivided. apply compute_fresh_ok.
    apply quadrant_children_Forall. intros q _ _. apply IH.
Qed.

(** The shape of a built node: its box, data and children. *)
Lemma _build_shape max_per_node feats box depth :
  _build max_per_node feats box depth =
  let kids :=
    if leaf_test max_per_node feats depth then []
    else quadrant_children (fun b q => _build max_per_node b q (depth + 1))
           feats (subdivide_into_quadrants box) in
  let dat := if is_empty kids then feats else [] in
  let '(cnt, avg) := aggregate_fields dat kids 0 None in
  mkNode box dat kids cnt avg.
Proof.
  rewrite _build_step. destruct (leaf_test max_per_node feats depth).
  - cbv zeta. cbn [is_empty]. now apply compute_fresh_ok.
  - unfold subdivided. cbv zeta. apply compute_fresh_ok.
    apply quadrant_children_Forall. intros q _ _. apply _build_tree_ok.
Qed.

Lemma tree_ok_subnode t n : tree_ok t -> In n (subnodes t) -> tree_ok n.
Proof.
  induction t as [box dat kids cnt avg IH] using QuadtreeNode_forall_ind.
  intros Ht Hn. rewrite subnodes_eq in Hn. destruct Hn as [<-|Hn]; [exact Ht|].
  apply tree_ok_inv in Ht. destruct Ht as [_ Hk]. cbn [children] in *.
  apply in_flat_map in Hn. destruct Hn as (c & Hc & Hn).
  rewrite Forall_forall in IH, Hk. eauto.
Qed.

Lemma fold_left_Qplus xs a : (fold_left Qplus xs a == a + Qsum xs)%Q.
Proof.
  revert a. induction xs as [|x xs IH]; intros a;
    cbn [fold_left Qsum fold_right].
  - ring.
  - rewrite IH. unfold Qsum. ring.
Qed.

Lemma py_sum_Qsum xs : (py_sum xs == Qsum xs)%Q.
Proof. unfold py_sum. rewrite fold_left_Qplus. ring. Qed.

Lemma accumulate_total_lower cs : forall t a b,
  t <= fst (fst (fold_left accumulate_child cs (t, a, b))).
Proof.
  induction cs as [|c cs IH]; intros t a b; cbn [fold_left fst]; [lia|].
  unfold accumulate_child at 2.
  destruct (averagePosition c) as [[x y]|]; [|apply IH].
  destruct (0 <? poiCount c) eqn:E; [|apply IH].
  apply Z.ltb_lt in E. etransitivity; [|apply IH]. lia.
Qed.

Lemma node_ok_count_inv n : node_ok n -> count_inv n.
Proof.
  unfold node_ok, count_inv, aggregate_fields. intros H.
  destruct (children n) as [|c cs].
  - unfold len in *. destruct (0 <? Z.of_nat (length (data n))) eqn:E;
      injection H as -> ->.
    + apply Z.ltb_lt in E. split; [lia|]. split; [discriminate|lia].
    + split; [lia|]. tauto.
  - pose proof (accumulate_total_lower (c :: cs) 0 0%Q 0%Q) as Hlow.
    destruct (fold_left accumulate_child (c :: cs) (0, 0%Q, 0%Q)) as [[total sl] sa].
    cbn [fst] in Hlow.
    destruct (0 <? total) eqn:E; injection H as -> ->.
    + apply Z.ltb_lt in E. split; [lia|]. split; [discriminate|lia].
    + apply Z.ltb_ge in E. split; [lia|]. split; [lia|reflexivity].
Qed.

Lemma accumulate_children_spec cs :
  Forall count_inv cs -> forall t a b,
  let '(t', a', b') := fold_left accumulate_child cs (t, a, b) in
  t' = t + Zsum (map poiCount cs)
  /\ (a' == a + Qsum (map (contribution fst) cs))%Q
  /\ (b' == b + Qsum (map (contribution snd) cs))%Q.
Proof.
  induction 1 as [|c cs [Hc0 Hc1] _ IH]; intros t a b.
  - cbn [fold_left map Zsum Qsum fold_right]. repeat split; try ring.
  - cbn [fold_left map Zsum Qsum fold_right].
    change (fold_right Z.add 0 (map poiCount cs)) with (Zsum (map poiCount cs)).
    change (fold_right Qplus 0%Q (map (contribution fst) cs))
      with (Qsum (map (contribution fst) cs)).
    change (fold_right Qplus 0%Q (map (contribution snd) cs))
      with (Qsum (map (contribution snd) cs)).
    unfold accumulate_child at 2. unfold contribution at 1 3.
    destruct (averagePosition c) as [[x y]|] eqn:Ea.
    + destruct (0 <? poiCount c) eqn:E.
      * specialize (IH (t + poiCount c)
                       (a + x * inject_Z (poiCount c))%Q
                       (b + y * inject_Z (poiCount c))%Q).
        destruct (fold_left accumulate_child cs _) as [[t' a'] b'].
        destruct IH as (-> & -> & ->). cbn [fst snd].
        repeat split; try ring.
      * apply Z.ltb_ge in E. assert (E0 : poiCount c = 0) by lia.
        specialize (IH t a b).
        destruct (fold_left accumulate_child cs _) as [[t' a'] b'].
        destruct IH as (-> & -> & ->). cbn [fst snd]. rewrite E0.
        repeat split; try ring.
    + assert (E0 : poiCount c = 0) by (now apply Hc1).
      specialize (IH t a b).
      destruct (fold_left accumulate_child cs _) as [[t' a'] b'].
      destruct IH as (-> & -> & ->). rewrite E0.
      repeat split; try ring.
Qed.

(** ** Aggregation postconditions *)

Lemma tree_ok_leaf_post n : tree_ok n -> children n = [] -> leaf_post n.
Proof.
  intros [Hn _]%tree_ok_inv Hc. red in Hn. rewrite Hc in Hn.
  unfold aggregate_fields in Hn. unfold leaf_post.
  destruct (0 <? len (data n)) eqn:E; injection Hn as Hcnt Havg.
  - apply Z.ltb_lt in E. split; [exact Hcnt|]. split; [lia|]. intros _.
    eexists _, _. split; [exact Havg|]. unfold mean.
    unfold len. rewrite !length_map, !py_sum_Qsum. split; reflexivity.
  - apply Z.ltb_ge in E. unfold len in *. split; [lia|].
    split; [intros _; exact Havg|lia].
Qed.

Lemma tree_ok_internal_post n : tree_ok n -> children n <> [] -> internal_post n.
Proof.
  intros [Hn Hk]%tree_ok_inv Hc. red in Hn.
  assert (Hinv : Forall count_inv (children n)).
  { rewrite Forall_forall in *. intros c Hin.
    apply node_ok_count_inv. now apply tree_ok_inv, Hk. }
  pose proof (accumulate_children_spec (children n) Hinv 0 0%Q 0%Q) as Hacc.
  unfold aggregate_fields in Hn. unfold internal_post, weighted_mean.
  destruct (children n) as [|c cs] eqn:Ec; [congruence|].
  destruct (fold_left accumulate_child (c :: cs) (0, 0%Q, 0%Q)) as [[total sl] sa].
  destruct Hacc as (Ht & Hsl & Hsa). rewrite Z.add_0_l in Ht.
  rewrite Qplus_0_l in Hsl, Hsa.
  destruct (0 <? total) eqn:E; injection Hn as Hcnt Havg.
  - apply Z.ltb_lt in E. split; [congruence|]. split; [lia|]. intros _.
    eexists _, _. split; [exact Havg|]. rewrite <- Ht, Hsl, Hsa.
    split; reflexivity.
  - apply Z.ltb_ge in E. split; [congruence|]. split; [intros _; exact Havg|lia].
Qed.

(** C1. After building, every leaf with [n] features has [poiCount = n] and
    the arithmetic mean of its own features as average position (none when
    [n = 0]); every internal node has the sum of its children's counts as
    [poiCount] and the count-weighted mean of its children's average
    positions as average position (none when the count is [0]). *)
Theorem aggregation_postconditions feats box max_per_node n :
  In n (subnodes (build_quadtree_for_category feats box max_per_node)) ->
  (children n = [] -> leaf_post n) /\ (children n <> [] -> internal_post n).
Proof.
  intros Hn.
  assert (Hok : tree_ok n).
  { eapply tree_ok_subnode; [|exact Hn]. apply _build_tree_ok. }
  split; [now apply tree_ok_leaf_post | now apply tree_ok_internal_post].
Qed.

(** ** Quadrants *)

Lemma half_sum a b : ((a + b) / two == (a + b) * (1 # 2))%Q.
Proof. unfold two. field. Qed.

Lemma contains_feature_spec b f :
  contains_feature b f = true <-> inside b (lon_of f) (lat_of f).
Proof.
  unfold contains_feature, inside, lon_of, lat_of.
  destruct (coordinates f) as [x y]. cbn [fst snd].
  rewrite !andb_true_iff, !Qle_bool_iff. reflexivity.
Qed.

Lemma quadrants_eq b :
  subdivide_into_quadrants b =
  [ mkQuad (south b) (west b) (mid_lat b) (mid_lon b);
    mkQuad (south b) (mid_lon b) (mid_lat b) (east b);
    mkQuad (mid_lat b) (west b) (north b) (mid_lon b);
    mkQuad (mid_lat b) (mid_lon b) (north b) (east b) ].
Proof. reflexivity. Qed.

Ltac midpoints b :=
  pose proof (half_sum (south b) (north b));
  pose proof (half_sum (west b) (east b));
  unfold mid_lat, mid_lon, inside in *; cbn [south west north east] in *.

Lemma quadrant_within b q x y :
  In q (subdivide_into_quadrants b) -> inside q x y -> inside b x y.
Proof.
  rewrite quadrants_eq. cbn [In].
  intros [<-|[<-|[<-|[<-|[]]]]] H; midpoints b; lra.
Qed.

Lemma quadrants_cover b x y :
  inside b x y -> exists q, In q (subdivide_into_quadrants b) /\ inside q x y.
Proof.
  intros H. rewrite quadrants_eq.
  destruct (Qlt_le_dec y (mid_lat b)) as [Hy|Hy];
    destruct (Qlt_le_dec x (mid_lon b)) as [Hx|Hx].
  - exists (mkQuad (south b) (west b) (mid_lat b) (mid_lon b)).
    split; [cbn; tauto|]. midpoints b; lra.
  - exists (mkQuad (south b) (mid_lon b) (mid_lat b) (east b)).
    split; [cbn; tauto|]. midpoints b; lra.
  - exists (mkQuad (mid_lat b) (west b) (north b) (mid_lon b)).
    split; [cbn; tauto|]. midpoints b; lra.
  - exists (mkQuad (mid_lat b) (mid_lon b) (north b) (east b)).
    split; [cbn; tauto|]. midpoints b; lra.
Qed.

Lemma quadrants_overlap b i j qi qj x y :
  nth_error (subdivide_into_quadrants b) i = Some qi ->
  nth_error (subdivide_into_quadrants b) j = Some qj ->
  i <> j -> inside qi x y -> inside qj x y ->
  (y == mid_lat b)%Q \/ (x == mid_lon b)%Q.
Proof.
  rewrite quadrants_eq. intros Hi Hj Hij Hqi Hqj.
  destruct i as [|[|[|[|i]]]]; cbn in Hi; try (destruct i; discriminate);
    injection Hi as <-;
    (destruct j as [|[|[|[|j]]]]; cbn in Hj; try (destruct j; discriminate);
     injection Hj as <-); try congruence;
    midpoints b; (left; lra) || (right; lra).
Qed.

Lemma quadrants_area b :
  (Qsum (map area (subdivide_into_quadrants b)) == area b)%Q.
Proof.
  rewrite quadrants_eq. unfold Qsum, area, mid_lat, mid_lon, two.
  cbn [map fold_right south west north east]. field.
Qed.

(** C6. [subdivide_into_quadrants] splits at the midpoint of both axes and
    returns the four quadrants in the order south-west, south-east,
    north-west, north-east; a point lies in the box exactly when it lies in
    one of the quadrants, two different quadrants meet only on a midpoint
    line, and the four areas add up to the area of the box. *)
Theorem subdivide_tiles_box (b : Quad) :
  subdivide_into_quadrants b =
    [ mkQuad (south b) (west b) (mid_lat b) (mid_lon b);
      mkQuad (south b) (mid_lon b) (mid_lat b) (east b);
      mkQuad (mid_lat b) (west b) (north b) (mid_lon b);
      mkQuad (mid_lat b) (mid_lon b) (north b) (east b) ]
  /\ (mid_lat b == (south b + north b) / (2 # 1))%Q
  /\ (mid_lon b == (west b + east b) / (2 # 1))%Q
  /\ (forall x y,
        inside b x y <->
        exists q, In q (subdivide_into_quadrants b) /\ inside q x y)
  /\ (forall i j qi qj x y,
        nth_error (subdivide_into_quadrants b) i = Some qi ->
        nth_error (subdivide_into_quadrants b) j = Some qj ->
        i <> j -> inside qi x y -> inside qj x y ->
        (y == mid_lat b)%Q \/ (x == mid_lon b)%Q)
  /\ (Qsum (map area (subdivide_into_quadrants b)) == area b)%Q.
Proof.
  split; [apply quadrants_eq|]. split; [reflexivity|]. split; [reflexivity|].
  split; [|split; [apply quadrants_overlap | apply quadrants_area]].
  intros x y. split; [apply quadrants_cover|].
  intros (q & Hq & Hin). eapply quadrant_within; eassumption.
Qed.

(** ** Shape of built trees *)

Lemma bbox_build max_per_node feats box depth :
  bbox (_build max_per_node feats box depth) = box.
Proof.
  rewrite _build_shape. cbv zeta.
  now destruct (aggregate_fields _ _ _ _).
Qed.

Lemma children_build max_per_node feats box depth :
  children (_build max_per_node feats box depth) =
  if leaf_test max_per_node feats depth then []
  else quadrant_children (fun b q => _build max_per_node b q (depth + 1))
         feats (subdivide_into_quadrants box).
Proof.
  rewrite _build_shape at 1. cbv zeta.
  now destruct (aggregate_fields _ _ _ _).
Qed.

Lemma data_build max_per_node feats box depth :
  data (_build max_per_node feats box depth) =
  if is_empty (children (_build max_per_node feats box depth)) then feats
  else [].
Proof.
  rewrite children_build. rewrite _build_shape at 1. cbv zeta.
  now destruct (aggregate_fields _ _ _ _).
Qed.

Lemma in_quadrant_children mk feats quads c :
  In c (quadrant_children mk feats quads) <->
  exists q, In q quads /\ bucket_of feats q <> []
            /\ c = mk (bucket_of feats q) q.
Proof.
  unfold quadrant_children. rewrite in_flat_map. split.
  - intros (q & Hq & Hc). exists q. split; [exact Hq|].
    destruct (bucket_of feats q) eqn:E; cbn in Hc; [tauto|].
    destruct Hc as [<-|[]]. split; [discriminate|reflexivity].
  - intros (q & Hq & Hne & ->). exists q. split; [exact Hq|].
    destruct (bucket_of feats q) eqn:E; [congruence|]. cbn. now left.
Qed.

Lemma bucket_of_inside feats q f :
  In f (bucket_of feats q) <-> In f feats /\ contains_feature q f = true.
Proof. apply filter_In. Qed.

Lemma contains_some_quadrant b f :
  contains_feature b f = true <->
  exists q, In q (subdivide_into_quadrants b) /\ contains_feature q f = true.
Proof.
  rewrite contains_feature_spec. split.
  - intros (q & Hq & Hin)%quadrants_cover. exists q.
    now rewrite contains_feature_spec.
  - intros (q & Hq & Hin). rewrite contains_feature_spec in Hin.
    eapply quadrant_within; eassumption.
Qed.

Lemma quadrant_children_nil mk feats box :
  quadrant_children mk feats (subdivide_into_quadrants box) = [] <->
  none_inside box feats.
Proof.
  split.
  - intros E f Hf. destruct (contains_feature box f) eqn:Hc; [|reflexivity].
    apply contains_some_quadrant in Hc. destruct Hc as (q & Hq & Hc).
    assert (Hin : In (mk (bucket_of feats q) q)
                     (quadrant_children mk feats (subdivide_into_quadrants box))).
    { apply in_quadrant_children. exists q. repeat split; [exact Hq|].
      intros E'. assert (Hb : In f (bucket_of feats q))
        by now apply bucket_of_inside.
      now rewrite E' in Hb. }
    now rewrite E in Hin.
  - intros Hnone.
    destruct (quadrant_children mk feats (subdivide_into_quadrants box))
      as [|c cs] eqn:E; [reflexivity|].
    assert (Hin : In c (quadrant_children mk feats (subdivide_into_quadrants box)))
      by (rewrite E; now left).
    apply in_quadrant_children in Hin. destruct Hin as (q & Hq & Hne & _).
    destruct (bucket_of feats q) as [|f fs] eqn:Eb; [congruence|].
    assert (Hf : In f (bucket_of feats q)) by (rewrite Eb; now left).
    apply bucket_of_inside in Hf. destruct Hf as [Hf Hc].
    assert (Hbox : contains_feature box f = true)
      by (apply contains_some_quadrant; eauto).
    rewrite (Hnone f Hf) in Hbox. discriminate.
Qed.

Lemma built_nodes max_per_node feats box depth d n :
  In (d, n) (nodes_from depth (_build max_per_node feats box depth)) ->
  (d = depth /\ n = _build max_per_node feats box depth)
  \/ (depth < d /\ built_below max_per_node d n).
Proof.
  remember (levels_left depth) as k eqn:Hk.
  revert feats box depth Hk d n.
  induction k as [k IH] using lt_wf_ind. intros feats box depth Hk d n Hin.
  rewrite nodes_from_eq in Hin. destruct Hin as [E|Hin].
  { left. now injection E as <- <-. }
  right. rewrite children_build in Hin.
  destruct (leaf_test max_per_node feats depth) eqn:Ht; [destruct Hin|].
  apply leaf_test_false in Ht.
  apply in_flat_map in Hin. destruct Hin as (c & Hc & Hin).
  apply in_quadrant_children in Hc. destruct Hc as (q & Hq & Hne & ->).
  apply (IH (levels_left (depth + 1))) in Hin;
    [|subst k; unfold levels_left; lia|reflexivity].
  destruct Hin as [[-> ->]|[Hlt Hb]].
  - split; [lia|]. exists (bucket_of feats q), q.
    repeat split; [exact Hne| |lia].
    intros f Hf. now apply bucket_of_inside in Hf.
  - split; [lia|exact Hb].
Qed.

Lemma subnodes_nodes_from d t : subnodes t = map snd (nodes_from d t).
Proof.
  revert d. induction t as [box dat kids cnt avg IH] using QuadtreeNode_forall_ind.
  intros d. cbn [subnodes nodes_from map snd]. f_equal.
  induction IH as [|c cs Hc _ IHcs]; cbn [flat_map]; [reflexivity|].
  now rewrite map_app, <- Hc, IHcs.
Qed.

Lemma in_subnodes_depth d0 t n :
  In n (subnodes t) <-> exists d, In (d, n) (nodes_from d0 t).
Proof.
  rewrite (subnodes_nodes_from d0), in_map_iff. split.
  - intros ([d m] & E & H). cbn in E. subst m. eauto.
  - intros (d & H). exists (d, n). auto.
Qed.

Lemma build_leaf_iff max_per_node feats box depth :
  children (_build max_per_node feats box depth) = [] <->
  depth >= MAX_DEPTH \/ len feats <= max_per_node \/ none_inside box feats.
Proof.
  rewrite children_build.
  destruct (leaf_test max_per_node feats depth) eqn:Ht.
  - apply leaf_test_true in Ht. split; [tauto|reflexivity].
  - rewrite quadrant_children_nil. apply leaf_test_false in Ht.
    split; [tauto|]. intros [H|[H|H]]; [lia|lia|exact H].
Qed.

Lemma build_leaf_count max_per_node feats box depth :
  children (_build max_per_node feats box depth) = [] ->
  data (_build max_per_node feats box depth) = feats
  /\ poiCount (_build max_per_node feats box depth) = len feats.
Proof.
  intros Hc.
  assert (Hd : data (_build max_per_node feats box depth) = feats)
    by (rewrite data_build, Hc; reflexivity).
  split; [exact Hd|].
  destruct (tree_ok_leaf_post _ (_build_tree_ok max_per_node feats box depth) Hc)
    as [Hcnt _].
  now rewrite Hcnt, Hd.
Qed.

Lemma quadrant_children_length mk feats quads :
  (length (quadrant_children mk feats quads) <= length quads)%nat.
Proof.
  unfold quadrant_children.
  induction quads as [|q quads IH]; cbn [flat_map length]; [lia|].
  rewrite length_app. destruct (is_empty (bucket_of feats q)); cbn [length]; lia.
Qed.

Lemma build_children_length max_per_node feats box depth :
  (length (children (_build max_per_node feats box depth)) <= 4)%nat.
Proof.
  rewrite children_build. destruct (leaf_test _ _ _); [cbn [length]; lia|].
  change 4%nat with (length (subdivide_into_quadrants box)).
  apply quadrant_children_length.
Qed.

(** Every node of a built tree is a result of [_build] at its own depth. *)
Lemma built_node_form max_per_node feats box d n :
  In (d, n) (nodes_from 0 (_build max_per_node feats box 0)) ->
  0 <= d <= MAX_DEPTH
  /\ exists fs q, n = _build max_per_node fs q d
       /\ (0 < d -> fs <> [] /\ forall f, In f fs -> contains_feature q f = true)
       /\ (d = 0 -> fs = feats /\ q = box).
Proof.
  intros [[-> ->]|[Hd (fs & q & -> & Hne & Hin & Hmax)]]%built_nodes.
  - split; [unfold MAX_DEPTH; lia|]. exists feats, box.
    repeat split; lia.
  - split; [lia|]. exists fs, q. repeat split; auto; lia.
Qed.

(** C5. In every built tree a node is a leaf exactly when its children list
    is empty; a node with children holds no data of its own and has between
    one and four children. *)
Theorem structural_invariant feats box max_per_node n :
  In n (subnodes (build_quadtree_for_category feats box max_per_node)) ->
  (is_leaf n = true <-> children n = [])
  /\ (is_leaf n = false -> data n = [])
  /\ (is_leaf n = false -> (1 <= length (children n) <= 4)%nat)
  /\ (data n <> [] -> is_leaf n = true).
Proof.
  intros (d & Hn)%(in_subnodes_depth 0).
  apply built_node_form in Hn. destruct Hn as (_ & fs & q & -> & _).
  pose proof (data_build max_per_node fs q d) as Hd.
  pose proof (build_children_length max_per_node fs q d) as Hl.
  unfold is_leaf.
  destruct (children (_build max_per_node fs q d)) as [|c cs];
    cbn [is_empty length] in *.
  - repeat split; try discriminate; try tauto.
  - repeat split; try discriminate; try lia; try tauto; congruence.
Qed.

(** C8. Building from an empty feature list gives, for every box, a single
    childless node with no data, count [0] and no average position. *)
Theorem empty_input_is_empty_leaf (box : Quad) (max_per_node : Z) :
  build_quadtree_for_category [] box max_per_node = mkNode box [] [] 0 None
  /\ children (build_quadtree_for_category [] box max_per_node) = []
  /\ poiCount (build_quadtree_for_category [] box max_per_node) = 0
  /\ averagePosition (build_quadtree_for_category [] box max_per_node) = None.
Proof.
  assert (E : build_quadtree_for_category [] box max_per_node
              = mkNode box [] [] 0 None).
  { unfold build_quadtree_for_category. rewrite _build_shape.
    destruct (leaf_test max_per_node [] 0); reflexivity. }
  rewrite E. repeat split; reflexivity.
Qed.

(** ** Counting *)

Lemma leaf_features_eq t :
  leaf_features t =
  if is_empty (children t) then data t
  else flat_map leaf_features (children t).
Proof. destruct t as [box dat [|c cs] cnt avg]; reflexivity. Qed.

Lemma len_app {A : Type} (l l' : list A) : len (l ++ l') = len l + len l'.
Proof. unfold len. rewrite length_app. lia. Qed.

Lemma tree_ok_count t : tree_ok t -> poiCount t = len (leaf_features t).
Proof.
  induction t as [box dat kids cnt avg IH] using QuadtreeNode_forall_ind.
  intros Hok. rewrite leaf_features_eq. cbn [children data].
  destruct kids as [|c cs] eqn:Ek; cbn [is_empty].
  - now destruct (tree_ok_leaf_post _ Hok eq_refl) as [H _].
  - rewrite <- Ek in *.
    assert (Hne : children (mkNode box dat kids cnt avg) <> [])
      by (cbn; congruence).
    destruct (tree_ok_internal_post _ Hok Hne) as [H _].
    cbn [poiCount children] in *. rewrite H.
    apply tree_ok_inv in Hok. destruct Hok as [_ Hk]. cbn [children] in Hk.
    clear - IH Hk. induction kids as [|k ks IHks]; [reflexivity|].
    apply Forall_cons_iff in IH, Hk. destruct IH as [IHk IH], Hk as [Hk Hks].
    cbn [map Zsum fold_right flat_map]. rewrite len_app, <- IHk by exact Hk.
    f_equal. now apply IHks.
Qed.

Lemma inside_count_cons box f feats :
  inside_count box (f :: feats) =
  (if contains_feature box f then 1 else 0) + inside_count box feats.
Proof.
  unfold inside_count, len. cbn [filter].
  destruct (contains_feature box f); cbn [length]; lia.
Qed.

Lemma inside_count_le box feats : inside_count box feats <= len feats.
Proof.
  unfold inside_count, len. pose proof (filter_length_le (contains_feature box) feats).
  lia.
Qed.

Lemma inside_count_all box feats :
  (forall f, In f feats -> contains_feature box f = true) ->
  filter (contains_feature box) feats = feats.
Proof.
  induction feats as [|f fs IH]; intros H; cbn [filter]; [reflexivity|].
  rewrite (H f) by now left. f_equal. apply IH. intros g Hg. apply H. now right.
Qed.

(** Every feature inside a box is inside at least one of its quadrants. *)
Lemma cover_count box feats :
  inside_count box feats <=
  Zsum (map (fun q => inside_count q feats) (subdivide_into_quadrants box)).
Proof.
  rewrite quadrants_eq. cbn [map Zsum fold_right].
  induction feats as [|f fs IH].
  - unfold inside_count, len. cbn. lia.
  - rewrite !inside_count_cons.
    pose proof (contains_some_quadrant box f) as Hc.
    rewrite quadrants_eq in Hc. cbn [In] in Hc.
    destruct (contains_feature box f).
    + destruct Hc as [(q & Hq & Hin) _]; [reflexivity|].
      destruct Hq as [<-|[<-|[<-|[<-|[]]]]]; rewrite Hin;
        repeat match goal with
               | |- context [if ?b then _ else _] => destruct b
               end; lia.
    + repeat match goal with
             | |- context [if ?b then _ else _] => destruct b
             end; lia.
Qed.

Lemma Zsum_app xs ys : Zsum (xs ++ ys) = Zsum xs + Zsum ys.
Proof.
  unfold Zsum. induction xs as [|x xs IH]; cbn [app fold_right]; lia.
Qed.

Lemma quadrant_children_count (mk : list Feature -> Quad -> QuadtreeNode)
    feats quads :
  (forall q, inside_count q (bucket_of feats q) <= poiCount (mk (bucket_of feats q) q)) ->
  Zsum (map (fun q => inside_count q feats) quads) <=
  Zsum (map poiCount (quadrant_children mk feats quads)).
Proof.
  intros H. unfold quadrant_children.
  induction quads as [|q quads IH]; cbn [map Zsum fold_right flat_map]; [lia|].
  rewrite map_app.
  rewrite Zsum_app. specialize (H q).
  assert (Hb : inside_count q (bucket_of feats q) = inside_count q feats).
  { unfold inside_count, bucket_of. f_equal. apply inside_count_all.
    intros f Hf. now apply filter_In in Hf. }
  rewrite Hb in H. change (fold_right Z.add 0) with Zsum in *.
  destruct (bucket_of feats q) as [|f fs] eqn:Eb; cbn [is_empty map Zsum fold_right].
  - unfold inside_count, bucket_of in *. rewrite Eb in *. cbn in *. lia.
  - lia.
Qed.

Lemma build_count_lower max_per_node feats box depth :
  inside_count box feats <= poiCount (_build max_per_node feats box depth).
Proof.
  remember (levels_left depth) as k eqn:Hk.
  revert feats box depth Hk.
  induction k as [k IH] using lt_wf_ind. intros feats box depth Hk.
  destruct (children (_build max_per_node feats box depth)) as [|c cs] eqn:Ec.
  - destruct (build_leaf_count _ _ _ _ Ec) as [_ ->]. apply inside_count_le.
  - assert (Hne : children (_build max_per_node feats box depth) <> [])
      by congruence.
    destruct (tree_ok_internal_post _ (_build_tree_ok _ _ _ _) Hne) as [-> _].
    rewrite children_build in *.
    destruct (leaf_test max_per_node feats depth) eqn:Ht; [discriminate|].
    apply leaf_test_false in Ht.
    etransitivity; [apply cover_count|].
    apply quadrant_children_count. intros q.
    apply (IH (levels_left (depth + 1))); [|reflexivity].
    subst k. unfold levels_left. lia.
Qed.

Lemma filter_filter_implied {A : Type} (p r : A -> bool) (l : list A) :
  (forall x, p x = true -> r x = true) ->
  filter p (filter r l) = filter p l.
Proof.
  intros H. induction l as [|x l IH]; cbn [filter]; [reflexivity|].
  destruct (r x) eqn:Er; cbn [filter]; rewrite IH.
  - reflexivity.
  - destruct (p x) eqn:Ep; [|reflexivity].
    apply H in Ep. congruence.
Qed.

(** When all features handed to [_build] lie in the box, every node's box
    lies within that box and every leaf holds exactly the features that lie
    in its own box. *)
Lemma leaves_hold_box_features max_per_node feats box depth :
  (forall f, In f feats -> contains_feature box f = true) ->
  forall l, In l (subnodes (_build max_per_node feats box depth)) ->
    (forall f, contains_feature (bbox l) f = true -> contains_feature box f = true)
    /\ (children l = [] -> data l = filter (contains_feature (bbox l)) feats).
Proof.
  remember (levels_left depth) as k eqn:Hk.
  revert feats box depth Hk.
  induction k as [k IH] using lt_wf_ind. intros feats box depth Hk Hall l Hl.
  rewrite subnodes_eq in Hl. destruct Hl as [<-|Hl].
  - rewrite bbox_build. split; [auto|]. intros Hc.
    destruct (build_leaf_count _ _ _ _ Hc) as [-> _].
    symmetry. now apply inside_count_all.
  - rewrite children_build in Hl.
    destruct (leaf_test max_per_node feats depth) eqn:Ht; [destruct Hl|].
    apply leaf_test_false in Ht.
    apply in_flat_map in Hl. destruct Hl as (c & Hc & Hl).
    apply in_quadrant_children in Hc. destruct Hc as (q & Hq & _ & ->).
    apply (IH (levels_left (depth + 1))) in Hl;
      [|subst k; unfold levels_left; lia|reflexivity|].
    + destruct Hl as [Hbox Hdata]. split.
      * intros f Hf. apply contains_some_quadrant. eauto.
      * intros Hleaf. rewrite (Hdata Hleaf). unfold bucket_of.
        apply filter_filter_implied, Hbox.
    + intros f Hf. now apply bucket_of_inside in Hf.
Qed.

(** ** How often a feature is counted *)

Lemma filter_flat_map {A B : Type} (p : B -> bool) (g : A -> list B) l :
  filter p (flat_map g l) = flat_map (fun x => filter p (g x)) l.
Proof.
  induction l as [|x l IH]; cbn [flat_map]; [reflexivity|].
  now rewrite filter_app, IH.
Qed.

Lemma leaves_eq t :
  leaves t = if is_empty (children t) then [t]
             else flat_map leaves (children t).
Proof.
  unfold leaves at 1. rewrite subnodes_eq. cbn [filter]. unfold is_leaf at 1.
  destruct (children t) as [|c cs]; cbn [is_empty]; [reflexivity|].
  apply filter_flat_map.
Qed.

Lemma in_leaves t l :
  In l (leaves t) <-> In l (subnodes t) /\ children l = [].
Proof.
  unfold leaves. rewrite filter_In. unfold is_leaf.
  destruct (children l); cbn [is_empty]; intuition congruence.
Qed.

Lemma leaf_features_leaves t : leaf_features t = flat_map data (leaves t).
Proof.
  induction t as [box dat kids cnt avg IH] using QuadtreeNode_forall_ind.
  rewrite leaf_features_eq, leaves_eq. cbn [children data].
  destruct kids as [|c cs]; cbn [is_empty].
  - cbn. now rewrite app_nil_r.
  - induction IH as [|k ks Hk _ IHks]; [reflexivity|].
    cbn [flat_map]. rewrite flat_map_app. now rewrite Hk, IHks.
Qed.

Lemma len_flat_map {A B : Type} (g : A -> list B) l :
  len (flat_map g l) = Zsum (map (fun x => len (g x)) l).
Proof.
  induction l as [|x l IH]; cbn [flat_map map Zsum fold_right]; [reflexivity|].
  rewrite len_app, IH. reflexivity.
Qed.

Lemma Zsum_map_ext {A : Type} (g h : A -> Z) l :
  (forall x, In x l -> g x = h x) -> Zsum (map g l) = Zsum (map h l).
Proof.
  intros H. f_equal. apply map_ext_in. exact H.
Qed.

Lemma Zsum_map_add {A : Type} (g h : A -> Z) l :
  Zsum (map (fun x => g x + h x) l) = Zsum (map g l) + Zsum (map h l).
Proof.
  induction l as [|x l IH]; cbn [map Zsum fold_right]; [reflexivity|].
  change (fold_right Z.add 0) with Zsum. lia.
Qed.

Lemma len_filter_sum {A : Type} (p : A -> bool) l :
  len (filter p l) = Zsum (map (fun x => if p x then 1 else 0) l).
Proof.
  induction l as [|x l IH]; cbn [filter map Zsum fold_right]; [reflexivity|].
  change (fold_right Z.add 0) with Zsum. rewrite <- IH.
  destruct (p x); unfold len; cbn [length]; lia.
Qed.

(** Counting the pairs of a relation row by row or column by column. *)
Lemma count_exchange {A B : Type} (p : A -> B -> bool) (L : list A) (F : list B) :
  Zsum (map (fun l => len (filter (p l) F)) L)
  = Zsum (map (fun f => len (filter (fun l => p l f) L)) F).
Proof.
  induction L as [|a L IH]; cbn [map Zsum fold_right filter].
  - induction F as [|f F IHF]; cbn [map Zsum fold_right]; [reflexivity|].
    change (fold_right Z.add 0) with Zsum. rewrite <- IHF. reflexivity.
  - change (fold_right Z.add 0) with Zsum. rewrite IH, len_filter_sum.
    rewrite <- Zsum_map_add. apply Zsum_map_ext. intros f _.
    destruct (p a f); unfold len; cbn [length]; lia.
Qed.

(** The box of a node of a built tree lies within the box of the root. *)
Lemma node_box_within max_per_node feats box depth l f :
  In l (subnodes (_build max_per_node feats box depth)) ->
  contains_feature (bbox l) f = true -> contains_feature box f = true.
Proof.
  rewrite subnodes_eq. intros [<-|Hl].
  - now rewrite bbox_build.
  - rewrite children_build in Hl.
    destruct (leaf_test max_per_node feats depth); [destruct Hl|].
    apply in_flat_map in Hl. destruct Hl as (c & Hc & Hl).
    apply in_quadrant_children in Hc. destruct Hc as (q & Hq & _ & ->).
    intros Hin. apply contains_some_quadrant. exists q. split; [exact Hq|].
    refine (proj1 (leaves_hold_box_features _ _ _ _ _ l Hl) f Hin).
    intros g Hg. now apply bucket_of_inside in Hg.
Qed.

(** As soon as the root has children, or all features lie in the root box,
    every leaf holds the input features that lie in its own box. *)
Lemma leaf_data_filter max_per_node feats box depth l :
  children (_build max_per_node feats box depth) <> []
  \/ (forall f, In f feats -> contains_feature box f = true) ->
  In l (subnodes (_build max_per_node feats box depth)) -> children l = [] ->
  data l = filter (contains_feature (bbox l)) feats.
Proof.
  intros Hcase Hl Hleaf.
  destruct (children (_build max_per_node feats box depth)) as [|c0 cs0] eqn:Ec.
  - destruct Hcase as [Hne|Hall]; [congruence|].
    now apply (leaves_hold_box_features max_per_node feats box depth Hall l Hl).
  - rewrite subnodes_eq in Hl. destruct Hl as [<-|Hl]; [congruence|].
    rewrite Ec in Hl. rewrite <- Ec in Hl. rewrite children_build in Hl.
    destruct (leaf_test max_per_node feats depth); [destruct Hl|].
    apply in_flat_map in Hl. destruct Hl as (c & Hc & Hl).
    apply in_quadrant_children in Hc. destruct Hc as (q & Hq & _ & ->).
    assert (Hall : forall g, In g (bucket_of feats q) ->
                             contains_feature q g = true)
      by (intros g Hg; now apply bucket_of_inside in Hg).
    destruct (leaves_hold_box_features _ _ _ _ Hall l Hl) as [Hbox Hdata].
    rewrite (Hdata Hleaf). unfold bucket_of.
    apply filter_filter_implied, Hbox.
Qed.

(** A feature of the input that lies in the box lies in the box of a leaf. *)
Lemma leaf_box_holds max_per_node feats box depth f :
  In f feats -> contains_feature box f = true ->
  exists l, In l (leaves (_build max_per_node feats box depth))
            /\ contains_feature (bbox l) f = true.
Proof.
  remember (levels_left depth) as k eqn:Hk.
  revert feats box depth Hk.
  induction k as [k IH] using lt_wf_ind. intros feats box depth Hk Hf Hc.
  rewrite leaves_eq, children_build.
  destruct (leaf_test max_per_node feats depth) eqn:Ht; cbn [is_empty].
  - eexists. split; [left; reflexivity|]. now rewrite bbox_build.
  - apply leaf_test_false in Ht.
    pose proof Hc as Hq. apply contains_some_quadrant in Hq.
    destruct Hq as (q & Hq & Hin).
    assert (Hb : In f (bucket_of feats q)) by now apply bucket_of_inside.
    assert (Hchild : In (_build max_per_node (bucket_of feats q) q (depth + 1))
                        (quadrant_children
                           (fun b q0 => _build max_per_node b q0 (depth + 1))
                           feats (subdivide_into_quadrants box))).
    { apply in_quadrant_children. exists q. split; [exact Hq|].
      split; [|reflexivity]. intros E. now rewrite E in Hb. }
    destruct (quadrant_children _ feats (subdivide_into_quadrants box))
      as [|c cs] eqn:Ec; [destruct Hchild|]. cbn [is_empty]. rewrite <- Ec.
    destruct (IH (levels_left (depth + 1)) ltac:(subst k; unfold levels_left; lia)
                (bucket_of feats q) q (depth + 1) eq_refl Hb Hin)
      as (l & Hl & Hlin).
    exists l. split; [|exact Hlin]. apply in_flat_map.
    eexists. split; [rewrite Ec; exact Hchild|exact Hl].
Qed.

Lemma times_counted_eq t f :
  times_counted t f =
  if is_empty (children t) then (if contains_feature (bbox t) f then 1 else 0)
  else Zsum (map (fun c => times_counted c f) (children t)).
Proof.
  unfold times_counted at 1. rewrite leaves_eq.
  destruct (children t) as [|c cs]; cbn [is_empty].
  - cbn [filter]. destruct (contains_feature (bbox t) f); reflexivity.
  - rewrite filter_flat_map, len_flat_map. reflexivity.
Qed.

Lemma filter_none {A : Type} (p : A -> bool) (l : list A) :
  (forall x, In x l -> p x = false) -> filter p l = [].
Proof.
  induction l as [|x l IH]; intros H; cbn [filter]; [reflexivity|].
  rewrite (H x) by now left. apply IH. intros y Hy. apply H. now right.
Qed.

Lemma times_counted_outside max_per_node feats box depth f :
  contains_feature box f = false ->
  times_counted (_build max_per_node feats box depth) f = 0.
Proof.
  intros Hout. unfold times_counted.
  rewrite filter_none; [reflexivity|].
  intros l [Hl _]%in_leaves.
  destruct (contains_feature (bbox l) f) eqn:E; [|reflexivity].
  apply (node_box_within _ _ _ _ _ _ Hl) in E. congruence.
Qed.

Lemma quadrant_children_sum (h : QuadtreeNode -> Z) mk feats quads :
  Zsum (map h (quadrant_children mk feats quads))
  = Zsum (map (fun q => if is_empty (bucket_of feats q) then 0
                        else h (mk (bucket_of feats q) q)) quads).
Proof.
  unfold quadrant_children.
  induction quads as [|q quads IH]; cbn [flat_map map Zsum fold_right];
    [reflexivity|].
  change (fold_right Z.add 0) with Zsum.
  rewrite map_app, Zsum_app, IH.
  destruct (is_empty (bucket_of feats q)); cbn [map Zsum fold_right]; lia.
Qed.

(** A feature on no split line of a built tree lies in at most one leaf box. *)
Lemma times_counted_once max_per_node feats box depth f :
  ~ on_split_line (_build max_per_node feats box depth) f ->
  times_counted (_build max_per_node feats box depth) f <= 1.
Proof.
  remember (levels_left depth) as k eqn:Hk.
  revert feats box depth Hk.
  induction k as [k IH] using lt_wf_ind. intros feats box depth Hk Hno.
  destruct (contains_feature box f) eqn:Hbox;
    [|rewrite times_counted_outside by exact Hbox; lia].
  rewrite times_counted_eq.
  destruct (children (_build max_per_node feats box depth)) as [|c0 cs0] eqn:Ec;
    cbn [is_empty]; [destruct (contains_feature (bbox _) f); lia|].
  rewrite <- Ec.
  assert (Hmid : ~ on_midline box f).
  { intros Hm. apply Hno. exists (_build max_per_node feats box depth).
    rewrite bbox_build. repeat split; try assumption.
    - rewrite subnodes_eq. now left.
    - congruence. }
  rewrite children_build in *.
  destruct (leaf_test max_per_node feats depth) eqn:Ht; [discriminate|].
  apply leaf_test_false in Ht.
  rewrite quadrant_children_sum.
  assert (Hq : forall q, In q (subdivide_into_quadrants box) ->
    0 <= (if is_empty (bucket_of feats q) then 0
          else times_counted
                 (_build max_per_node (bucket_of feats q) q (depth + 1)) f)
      <= (if contains_feature q f then 1 else 0)).
  { intros q Hq.
    destruct (is_empty (bucket_of feats q)) eqn:Eb;
      [destruct (contains_feature q f); lia|].
    split; [unfold times_counted, len; lia|].
    destruct (contains_feature q f) eqn:Hin;
      [|rewrite times_counted_outside by exact Hin; lia].
    apply (IH (levels_left (depth + 1))); [subst k; unfold levels_left; lia
                                          |reflexivity|].
    intros (n & Hn & Hc & Hcont & Hm). apply Hno. exists n.
    repeat split; try assumption.
    rewrite subnodes_eq. right. rewrite children_build.
    destruct (leaf_test max_per_node feats depth) eqn:Ht';
      [apply leaf_test_true in Ht'; lia|].
    apply in_flat_map. eexists. split; [|exact Hn].
    apply in_quadrant_children. exists q. split; [exact Hq|].
    split; [|reflexivity]. intros E. rewrite E in Eb. discriminate. }
  assert (Hex : forall i j qi qj,
    nth_error (subdivide_into_quadrants box) i = Some qi ->
    nth_error (subdivide_into_quadrants box) j = Some qj ->
    i <> j -> contains_feature qi f = true -> contains_feature qj f = true ->
    False).
  { intros i j qi qj Hi Hj Hij Hci Hcj.
    apply contains_feature_spec in Hci, Hcj.
    destruct (quadrants_overlap box i j qi qj _ _ Hi Hj Hij Hci Hcj) as [H|H];
      apply Hmid; [left|right]; exact H. }
  revert Hq Hex. rewrite quadrants_eq.
  set (q1 := mkQuad (south box) (west box) (mid_lat box) (mid_lon box)).
  set (q2 := mkQuad (south box) (mid_lon box) (mid_lat box) (east box)).
  set (q3 := mkQuad (mid_lat box) (west box) (north box) (mid_lon box)).
  set (q4 := mkQuad (mid_lat box) (mid_lon box) (north box) (east box)).
  intros Hq Hex.
  pose proof (Hq q1 ltac:(cbn; tauto)) as B1.
  pose proof (Hq q2 ltac:(cbn; tauto)) as B2.
  pose proof (Hq q3 ltac:(cbn; tauto)) as B3.
  pose proof (Hq q4 ltac:(cbn; tauto)) as B4.
  pose proof (Hex 0%nat 1%nat q1 q2 eq_refl eq_refl ltac:(lia)) as E12.
  pose proof (Hex 0%nat 2%nat q1 q3 eq_refl eq_refl ltac:(lia)) as E13.
  pose proof (Hex 0%nat 3%nat q1 q4 eq_refl eq_refl ltac:(lia)) as E14.
  pose proof (Hex 1%nat 2%nat q2 q3 eq_refl eq_refl ltac:(lia)) as E23.
  pose proof (Hex 1%nat 3%nat q2 q4 eq_refl eq_refl ltac:(lia)) as E24.
  pose proof (Hex 2%nat 3%nat q3 q4 eq_refl eq_refl ltac:(lia)) as E34.
  cbn [map Zsum fold_right].
  destruct (contains_feature q1 f), (contains_feature q2 f),
    (contains_feature q3 f), (contains_feature q4 f);
    try (exfalso; auto; fail); lia.
Qed.

Lemma inside_count_sum box feats :
  inside_count box feats
  = Zsum (map (fun f => if contains_feature box f then 1 else 0) feats).
Proof. apply len_filter_sum. Qed.

(** C3 (amended). The root count is the number of feature entries held by the
    leaves. It is never below the number of input features inside the root
    box, and a root that stays a leaf counts every supplied feature. As soon
    as the root has children, or all input features lie inside the root box,
    every leaf holds exactly the input features inside its own box, so the
    root count counts each input feature once for every leaf box that
    contains it: at least once when the feature lies in the root box, never
    when it lies outside, and more than once only when it lies on a split
    line. The root count is then the number of input features inside the
    root box whenever no input feature lies on a split line. *)
Theorem root_count_accounting feats box max_per_node :
  let t := build_quadtree_for_category feats box max_per_node in
  poiCount t = len (leaf_features t)
  /\ inside_count box feats <= poiCount t
  /\ (children t = [] -> poiCount t = len feats)
  /\ (children t <> []
      \/ (forall f, In f feats -> contains_feature box f = true) ->
      (forall l, In l (subnodes t) -> children l = [] ->
         data l = filter (contains_feature (bbox l)) feats)
      /\ poiCount t = Zsum (map (times_counted t) feats)
      /\ (forall f, In f feats -> contains_feature box f = true ->
                    1 <= times_counted t f)
      /\ (forall f, contains_feature box f = false -> times_counted t f = 0)
      /\ (forall f, ~ on_split_line t f -> times_counted t f <= 1)
      /\ ((forall f, In f feats -> ~ on_split_line t f) ->
          poiCount t = inside_count box feats)).
Proof.
  cbv zeta. unfold build_quadtree_for_category.
  set (t := _build max_per_node feats box 0).
  assert (Hcount : poiCount t = len (leaf_features t))
    by apply tree_ok_count, _build_tree_ok.
  split; [exact Hcount|].
  split; [apply build_count_lower|].
  split; [intros Hc; now apply build_leaf_count|].
  intros Hcase.
  assert (Hdata : forall l, In l (subnodes t) -> children l = [] ->
                    data l = filter (contains_feature (bbox l)) feats)
    by (intros l; now apply leaf_data_filter).
  assert (Hsum : poiCount t = Zsum (map (times_counted t) feats)).
  { rewrite Hcount, leaf_features_leaves, len_flat_map.
    rewrite (Zsum_map_ext _ (fun l => len (filter (contains_feature (bbox l)) feats))).
    - apply (count_exchange (fun l f => contains_feature (bbox l) f)).
    - intros l [Hl Hleaf]%in_leaves. now rewrite Hdata. }
  assert (Hlow : forall f, In f feats -> contains_feature box f = true ->
                           1 <= times_counted t f).
  { intros f Hf Hc.
    destruct (leaf_box_holds max_per_node feats box 0 f Hf Hc) as (l & Hl & Hin).
    unfold times_counted. fold t in Hl.
    assert (Hm : In l (filter (fun l0 => contains_feature (bbox l0) f) (leaves t)))
      by (apply filter_In; now split).
    destruct (filter _ (leaves t)); [destruct Hm|].
    unfold len. cbn [length]. lia. }
  assert (Hout : forall f, contains_feature box f = false ->
                           times_counted t f = 0)
    by (intros f; apply times_counted_outside).
  assert (Honce : forall f, ~ on_split_line t f -> times_counted t f <= 1)
    by (intros f; apply times_counted_once).
  repeat split; try assumption.
  intros Hno. rewrite Hsum, inside_count_sum. apply Zsum_map_ext.
  intros f Hf. specialize (Honce f (Hno f Hf)).
  destruct (contains_feature box f) eqn:Hc.
  - specialize (Hlow f Hf Hc). lia.
  - now apply Hout.
Qed.

(** C4 (amended). No node lies deeper than [MAX_DEPTH]. A node, built at depth
    [d] from the features [fs] and the box [q], is a leaf exactly when
    [d >= MAX_DEPTH], or [len fs <= max_per_node], or no feature of [fs] lies
    in [q]; the last case arises at the root only. Hence a leaf above
    [MAX_DEPTH] holds more than [max_per_node] points in one case only: it is
    the root, the input has more than [max_per_node] features, and none of
    them lies in the root box. *)
Theorem depth_and_capacity_policy feats box max_per_node d n :
  In (d, n) (nodes_from 0 (build_quadtree_for_category feats box max_per_node)) ->
  0 <= d <= MAX_DEPTH
  /\ (exists fs q,
        n = _build max_per_node fs q d
        /\ (children n = [] <->
            d >= MAX_DEPTH \/ len fs <= max_per_node \/ none_inside q fs)
        /\ (0 < d -> ~ none_inside q fs))
  /\ (children n = [] -> d < MAX_DEPTH ->
      (max_per_node < poiCount n <->
       d = 0 /\ max_per_node < len feats /\ none_inside box feats)).
Proof.
  intros Hn. apply built_node_form in Hn.
  destruct Hn as (Hd & fs & q & -> & Hpos & Hroot).
  split; [exact Hd|]. split.
  - exists fs, q. split; [reflexivity|]. split; [apply build_leaf_iff|].
    intros Hd0 Hnone. destruct (Hpos Hd0) as [Hne Hin].
    destruct fs as [|f fs]; [congruence|].
    specialize (Hnone f (or_introl eq_refl)).
    specialize (Hin f (or_introl eq_refl)). congruence.
  - intros Hleaf Hlt.
    destruct (build_leaf_count _ _ _ _ Hleaf) as [_ ->].
    apply build_leaf_iff in Hleaf. split.
    + intros Hover. destruct Hleaf as [H|[H|Hnone]]; [lia|lia|].
      destruct (Z.eq_dec d 0) as [Hd0|Hd0].
      * destruct (Hroot Hd0) as [-> ->]. auto.
      * exfalso. destruct (Hpos ltac:(lia)) as [Hne Hin].
        destruct fs as [|g fs]; [congruence|].
        specialize (Hnone g (or_introl eq_refl)).
        specialize (Hin g (or_introl eq_refl)). congruence.
    + intros (Hd0 & Hover & _). destruct (Hroot Hd0) as [-> _]. exact Hover.
Qed.

Lemma data_within_box max_per_node feats box depth n f :
  (forall g, In g feats -> contains_feature box g = true) ->
  In n (subnodes (_build max_per_node feats box depth)) ->
  In f (data n) -> contains_feature box f = true.
Proof.
  intros Hall Hn Hf.
  destruct (leaves_hold_box_features _ _ _ _ Hall n Hn) as [Hbox Hdata].
  apply (in_subnodes_depth depth) in Hn. destruct Hn as (d & Hn).
  assert (Hform : exists fs q, n = _build max_per_node fs q d).
  { apply built_nodes in Hn.
    destruct Hn as [[-> ->]|[_ (fs & q & -> & _)]]; eauto. }
  destruct Hform as (fs & q & ->).
  rewrite data_build in Hf.
  destruct (children (_build max_per_node fs q d)) as [|c cs] eqn:Ec;
    cbn [is_empty] in Hf; [|destruct Hf].
  apply Hbox. rewrite data_build, Ec in Hdata. cbn [is_empty] in Hdata.
  rewrite (Hdata eq_refl) in Hf. now apply filter_In in Hf.
Qed.

Lemma bucket_of_filter_box feats box q :
  In q (subdivide_into_quadrants box) ->
  bucket_of (filter (contains_feature box) feats) q = bucket_of feats q.
Proof.
  intros Hq. unfold bucket_of. apply filter_filter_implied.
  intros f Hf. apply contains_some_quadrant. eauto.
Qed.

Lemma quadrant_children_filter_box mk feats box :
  quadrant_children mk (filter (contains_feature box) feats)
    (subdivide_into_quadrants box)
  = quadrant_children mk feats (subdivide_into_quadrants box).
Proof.
  unfold quadrant_children.
  assert (H : forall quads,
    (forall q, In q quads -> In q (subdivide_into_quadrants box)) ->
    flat_map (fun q =>
        if is_empty (bucket_of (filter (contains_feature box) feats) q) then []
        else [mk (bucket_of (filter (contains_feature box) feats) q) q]) quads
    = flat_map (fun q =>
        if is_empty (bucket_of feats q) then []
        else [mk (bucket_of feats q) q]) quads).
  { induction quads as [|q quads IH]; intros Hsub; cbn [flat_map];
      [reflexivity|].
    rewrite bucket_of_filter_box by (apply Hsub; now left).
    f_equal. apply IH. intros q' Hq'. apply Hsub. now right. }
  apply H. auto.
Qed.

(** C9 (amended). [_build] applies no containment filter to the features it
    is given. If the termination test holds, the node is a leaf that holds
    and counts all of them. If the test fails, the buckets, and so the
    children, are those of the features inside the box alone, and a feature
    outside the box is held nowhere below the node; the node then has
    children, no data, and the sum of its children's counts as count when some
    supplied feature lies inside the box, and otherwise stays a leaf that
    holds and counts every supplied feature. *)
Theorem unfiltered_features max_per_node feats box depth :
  let t := _build max_per_node feats box depth in
  (leaf_test max_per_node feats depth = true ->
     children t = [] /\ data t = feats /\ poiCount t = len feats)
  /\ (leaf_test max_per_node feats depth = false ->
      children t =
        quadrant_children (fun b q => _build max_per_node b q (depth + 1))
          (filter (contains_feature box) feats) (subdivide_into_quadrants box)
      /\ (forall f c n,
            contains_feature box f = false ->
            In c (children t) -> In n (subnodes c) -> ~ In f (data n))
      /\ (children t = [] <-> none_inside box feats)
      /\ (children t <> [] ->
            data t = [] /\ poiCount t = Zsum (map poiCount (children t)))
      /\ (children t = [] -> data t = feats /\ poiCount t = len feats)).
Proof.
  cbv zeta. split.
  - intros Ht.
    assert (Hc : children (_build max_per_node feats box depth) = [])
      by (rewrite children_build, Ht; reflexivity).
    split; [exact Hc|]. now apply build_leaf_count.
  - intros Ht. split; [|split; [|split; [|split]]].
    + rewrite children_build, Ht. symmetry. apply quadrant_children_filter_box.
    + intros f c n Hout Hc Hn Hf.
      rewrite children_build, Ht in Hc.
      apply in_quadrant_children in Hc. destruct Hc as (q & Hq & _ & ->).
      assert (Hin : contains_feature q f = true).
      { eapply data_within_box; [|exact Hn|exact Hf].
        intros g Hg. now apply bucket_of_inside in Hg. }
      assert (Hbox : contains_feature box f = true)
        by (apply contains_some_quadrant; eauto).
      congruence.
    + rewrite build_leaf_iff. apply leaf_test_false in Ht.
      split; [intros [H|[H|H]]; [lia|lia|exact H] | tauto].
    + intros Hne. split.
      * rewrite data_build.
        destruct (children (_build max_per_node feats box depth));
          [congruence|reflexivity].
      * now destruct (tree_ok_internal_post _ (_build_tree_ok _ _ _ _) Hne).
    + apply build_leaf_count.
Qed.

(** ** Inputs on which the unamended statements fail *)

(** C3, counterexample. One feature outside the root box and the default
    capacity: the root stays a leaf and counts the feature, although no input
    feature lies within the root box. *)
Lemma root_count_counterexample :
  let feats := [feature_at 10 10 0] in
  let t := build_quadtree_for_category feats box_0_4 MAX_PER_NODE in
  inside_count box_0_4 feats = 0
  /\ poiCount t = 1
  /\ poiCount t <> inside_count box_0_4 feats.
Proof. vm_compute. repeat split. discriminate. Qed.

(** C4, counterexample. Two features outside the root box with capacity [1]:
    the leaf test fails at depth [0], no quadrant receives a feature, and the
    root stays a leaf above [MAX_DEPTH] that holds two points. *)
Lemma leaf_capacity_counterexample :
  let t := build_quadtree_for_category far_away box_0_4 1 in
  In (0, t) (nodes_from 0 t)
  /\ children t = []
  /\ 0 < MAX_DEPTH
  /\ poiCount t = 2
  /\ ~ poiCount t <= 1
  /\ ~ (0 >= MAX_DEPTH \/ len far_away <= 1).
Proof.
  cbv zeta.
  assert (E : poiCount (build_quadtree_for_category far_away box_0_4 1) = 2)
    by (vm_compute; reflexivity).
  rewrite E. repeat split; try (vm_compute; reflexivity); try lia.
  - vm_compute. left. reflexivity.
  - unfold MAX_DEPTH, len, far_away. cbn [length]. lia.
Qed.

(** C9, counterexample. The leaf test fails, the two supplied features lie
    outside the box, and yet both stay in the node's data and are counted. *)
Lemma unfiltered_features_counterexample :
  let f := feature_at 10 10 0 in
  let t := _build 1 far_away box_0_4 0 in
  leaf_test 1 far_away 0 = false
  /\ In f far_away
  /\ contains_feature box_0_4 f = false
  /\ In f (data t)
  /\ poiCount t = 2
  /\ Zsum (map poiCount (children t)) = 0.
Proof.
  cbv zeta. repeat split; try (vm_compute; reflexivity);
    vm_compute; left; reflexivity.
Qed.

(** ** Boundary points *)

Lemma child_for_quadrant max_per_node feats box depth f q :
  leaf_test max_per_node feats depth = false ->
  In f feats -> In q (subdivide_into_quadrants box) ->
  contains_feature q f = true ->
  In f (bucket_of feats q)
  /\ In (_build max_per_node (bucket_of feats q) q (depth + 1))
        (children (_build max_per_node feats box depth))
  /\ len (bucket_of feats q)
     <= poiCount (_build max_per_node (bucket_of feats q) q (depth + 1)).
Proof.
  intros Ht Hf Hq Hc.
  assert (Hb : In f (bucket_of feats q)) by now apply bucket_of_inside.
  split; [exact Hb|]. split.
  - rewrite children_build, Ht. apply in_quadrant_children.
    exists q. repeat split; [exact Hq|]. intros E. now rewrite E in Hb.
  - etransitivity; [|apply build_count_lower].
    unfold inside_count. rewrite inside_count_all; [reflexivity|].
    intros g Hg. now apply bucket_of_inside in Hg.
Qed.

(** C7. Containment is inclusive on all four edges. A point of the box on the
    midpoint latitude is in a southern quadrant exactly when it is in the
    northern quadrant above it, and likewise for the midpoint longitude, so
    the midpoint itself is in all four. Whenever a node subdivides, every
    quadrant that contains a feature gets a child whose bucket holds that
    feature and whose count covers its bucket. On the box [(0, 0, 4, 4)] the
    feature at [(2, 2)] is contained in all four quadrants and, once the root
    subdivides, counted in each of the four children. *)
Theorem boundary_point_duplication :
  (forall b f,
     contains_feature b f = true <->
     ((south b <= lat_of f)%Q /\ (lat_of f <= north b)%Q)
     /\ ((west b <= lon_of f)%Q /\ (lon_of f <= east b)%Q))
  /\ (forall b f sw se nw ne,
        subdivide_into_quadrants b = [sw; se; nw; ne] ->
        contains_feature b f = true ->
        ((lat_of f == mid_lat b)%Q ->
           contains_feature sw f = contains_feature nw f
           /\ contains_feature se f = contains_feature ne f)
        /\ ((lon_of f == mid_lon b)%Q ->
           contains_feature sw f = contains_feature se f
           /\ contains_feature nw f = contains_feature ne f)
        /\ ((lat_of f == mid_lat b)%Q -> (lon_of f == mid_lon b)%Q ->
           Forall (fun q => contains_feature q f = true) [sw; se; nw; ne]))
  /\ (forall max_per_node feats box depth f q,
        leaf_test max_per_node feats depth = false ->
        In f feats -> In q (subdivide_into_quadrants box) ->
        contains_feature q f = true ->
        In f (bucket_of feats q)
        /\ In (_build max_per_node (bucket_of feats q) q (depth + 1))
              (children (_build max_per_node feats box depth))
        /\ len (bucket_of feats q)
           <= poiCount (_build max_per_node (bucket_of feats q) q (depth + 1)))
  /\ (let f := feature_at 2 2 0 in
      let t := build_quadtree_for_category [f] box_0_4 0 in
      Forall (fun q => contains_feature q f = true)
             (subdivide_into_quadrants box_0_4)
      /\ map bbox (children t) = subdivide_into_quadrants box_0_4
      /\ map poiCount (children t) = [1; 1; 1; 1]
      /\ Forall (fun c => In f (leaf_features c)) (children t)
      /\ poiCount t = 4).
Proof.
  split; [intros b f; apply contains_feature_spec|].
  split; [|split; [apply child_for_quadrant|]].
  - intros b f sw se nw ne E Hb. rewrite quadrants_eq in E.
    injection E as <- <- <- <-.
    apply contains_feature_spec in Hb.
    assert (Hbool : forall q q',
      (inside q (lon_of f) (lat_of f) <-> inside q' (lon_of f) (lat_of f)) ->
      contains_feature q f = contains_feature q' f).
    { intros q q' H. rewrite <- !contains_feature_spec in H.
      destruct (contains_feature q f), (contains_feature q' f);
        try reflexivity; destruct H as [H1 H2];
        [symmetry; now apply H1 | now apply H2]. }
    split; [|split].
    + intros Hy. split; apply Hbool; midpoints b; lra.
    + intros Hx. split; apply Hbool; midpoints b; lra.
    + intros Hy Hx.
      repeat (apply Forall_cons; [apply contains_feature_spec; midpoints b; lra|]).
      apply Forall_nil.
  - cbv zeta. repeat split; try (vm_compute; reflexivity).
    + vm_compute. repeat (apply Forall_cons; [reflexivity|]). apply Forall_nil.
    + vm_compute. repeat (apply Forall_cons; [left; reflexivity|]). apply Forall_nil.
Qed.

(** ** Running the aggregation again *)

(** C10. The aggregation pass is idempotent: a second run over an aggregated
    tree returns it unchanged. Every node of a built tree is such a fixed
    point, and the pass that a subdividing node runs over its subtree returns
    the already aggregated children as they were. *)
Theorem aggregation_idempotent :
  (forall t,
     _compute_average_position (_compute_average_position t) =
     _compute_average_position t)
  /\ (forall max_per_node feats box depth,
        Forall (fun n => _compute_average_position n = n)
               (subnodes (_build max_per_node feats box depth)))
  /\ (forall max_per_node feats box depth,
        let node := subdivided (fun b q => _build max_per_node b q (depth + 1))
                      feats box in
        children (_compute_average_position node) = children node).
Proof.
  split; [apply compute_twice|]. split.
  - intros mpn feats box depth. apply Forall_forall. intros n Hn.
    apply tree_ok_fixed. eapply tree_ok_subnode; [apply _build_tree_ok|exact Hn].
  - intros mpn feats box depth. cbv zeta. rewrite children_compute.
    apply map_fixed. unfold subdivided. cbn [children].
    apply quadrant_children_Forall. intros q _ _.
    apply tree_ok_fixed, _build_tree_ok.
Qed.

(** ** Per-depth statistics on a finished tree *)

(** C2. Building and aggregating always return a tree, but
    [compute_depth_stats] on the finished tree raises [AttributeError] when it
    reads [chunkSizeKm] at the first node it visits. *)
Theorem depth_stats_raises feats box max_per_node :
  (exists t, build_quadtree_for_category feats box max_per_node = t
             /\ _compute_average_position t = t)
  /\ compute_depth_stats (build_quadtree_for_category feats box max_per_node)
     = Raised (AttributeError "QuadtreeNode" "chunkSizeKm").
Proof.
  split.
  - eexists. split; [reflexivity|]. apply tree_ok_fixed, _build_tree_ok.
  - unfold compute_depth_stats.
    rewrite subnodes_eq. cbn [length depth_stats_loop]. reflexivity.
Qed.

(** ** Instances *)

(** The four-point scenario: one point per quadrant, capacity [1]. *)
Example four_points_scenario :
  let t := build_quadtree_for_category four_points box_0_4 1 in
  map bbox (children t) = subdivide_into_quadrants box_0_4
  /\ map data (children t) =
       [[feature_at 1 1 0]; [feature_at 3 1 2]; [feature_at 1 3 1]; [feature_at 3 3 3]]
  /\ map children (children t) = [[]; []; []; []]
  /\ poiCount t = 4
  /\ (exists x y, averagePosition t = Some (x, y)
                  /\ (x == 2 # 1)%Q /\ (y == 2 # 1)%Q).
Proof.
  cbv zeta. repeat split; try (vm_compute; reflexivity).
  exists (8 # 4)%Q, (8 # 4)%Q. repeat split; vm_compute; reflexivity.
Qed.

(** Two features on the centre of the box, capacity [1]: each is counted in
    all four quadrants. *)
Example centre_points_counted_four_times :
  let feats := [feature_at 2 2 0; feature_at 2 2 1] in
  let t := build_quadtree_for_category feats box_0_4 1 in
  inside_count box_0_4 feats = 2 /\ poiCount t = 8.
Proof. vm_compute. split; reflexivity. Qed.

(** Twenty-six features on the centre of the box with the default capacity:
    the root subdivides and each quadrant counts all of them. *)
Example centre_points_default_capacity :
  let feats := map (feature_at 2 2) (seq 0 26) in
  let t := build_quadtree_for_category feats box_0_4 MAX_PER_NODE in
  map bbox (children t) = subdivide_into_quadrants box_0_4
  /\ map poiCount (children t) = [26; 26; 26; 26]
  /\ poiCount t = 104.
Proof. vm_compute. repeat split; reflexivity. Qed.

(** C1, instance: the root of the four-point tree is an internal node. *)
Lemma aggregation_postconditions_witness :
  let t := build_quadtree_for_category four_points box_0_4 1 in
  In t (subnodes t) /\ internal_post t.
Proof.
  cbv zeta.
  assert (H : In (build_quadtree_for_category four_points box_0_4 1)
                 (subnodes (build_quadtree_for_category four_points box_0_4 1)))
    by (vm_compute; left; reflexivity).
  split; [exact H|].
  apply (aggregation_postconditions four_points box_0_4 1 _ H).
  vm_compute. discriminate.
Defined.

(** C5, instance: the root of the four-point tree. *)
Lemma structural_invariant_witness :
  let t := build_quadtree_for_category four_points box_0_4 1 in
  In t (subnodes t) /\ data t = [] /\ (1 <= length (children t) <= 4)%nat.
Proof.
  cbv zeta.
  assert (H : In (build_quadtree_for_category four_points box_0_4 1)
                 (subnodes (build_quadtree_for_category four_points box_0_4 1)))
    by (vm_compute; left; reflexivity).
  split; [exact H|].
  destruct (structural_invariant four_points box_0_4 1 _ H) as (_ & Hd & Hl & _).
  split; [apply Hd | apply Hl]; vm_compute; reflexivity.
Defined.

(** C3, instance: the four-point tree has children, no point lies on a split
    line, and the root counts the four points of the box. *)
Lemma root_count_accounting_witness :
  let t := build_quadtree_for_category four_points box_0_4 1 in
  children t <> []
  /\ (forall f, In f four_points -> ~ on_split_line t f)
  /\ poiCount t = inside_count box_0_4 four_points
  /\ inside_count box_0_4 four_points = 4.
Proof.
  cbv zeta.
  set (t := build_quadtree_for_category four_points box_0_4 1).
  assert (Hne : children t <> []) by (vm_compute; discriminate).
  assert (Hno : forall f, In f four_points -> ~ on_split_line t f).
  { intros f Hf (n & Hn & Hc & _ & Hm).
    vm_compute in Hn.
    destruct Hn as [<-|[<-|[<-|[<-|[<-|[]]]]]];
      try (apply Hc; reflexivity).
    destruct Hf as [<-|[<-|[<-|[<-|[]]]]]; destruct Hm as [Hm|Hm];
      vm_compute in Hm; discriminate. }
  split; [exact Hne|]. split; [exact Hno|].
  destruct (root_count_accounting four_points box_0_4 1)
    as (_ & _ & _ & Hrest).
  destruct (Hrest (or_introl Hne)) as (_ & _ & _ & _ & _ & Heq).
  split; [exact (Heq Hno)|reflexivity].
Defined.

(** C4, instance: the south-west child of the four-point tree, a leaf at
    depth [1] holding one point. *)
Lemma depth_and_capacity_policy_witness :
  let t := build_quadtree_for_category four_points box_0_4 1 in
  let n := nth 0 (children t) t in
  In (1, n) (nodes_from 0 t) /\ children n = [] /\ poiCount n <= 1.
Proof.
  cbv zeta.
  set (t := build_quadtree_for_category four_points box_0_4 1).
  assert (H : In (1, nth 0 (children t) t) (nodes_from 0 t))
    by (vm_compute; right; left; reflexivity).
  split; [exact H|].
  destruct (depth_and_capacity_policy four_points box_0_4 1 _ _ H)
    as (_ & _ & Hcap).
  assert (Hleaf : children (nth 0 (children t) t) = [])
    by (vm_compute; reflexivity).
  split; [exact Hleaf|].
  destruct (Hcap Hleaf ltac:(unfold MAX_DEPTH; lia)) as [Hover _].
  destruct (Z.lt_ge_cases 1 (poiCount (nth 0 (children t) t))) as [Hgt|Hle];
    [destruct (Hover Hgt); lia|lia].
Defined.

(** * Properties of the rest of the program *)

(** ** Tuples *)

(** X1. [from_tuple] and [to_tuple] are inverse to each other. *)
Theorem quad_tuple_round_trip :
  (forall q, from_tuple (to_tuple q) = q)
  /\ (forall t, to_tuple (from_tuple t) = t).
Proof.
  split.
  - intros [s w n e]. reflexivity.
  - intros [[[s w] n] e]. reflexivity.
Qed.

(** ** Serialisation *)

Lemma dict_nodes_to_dict t : dict_nodes (to_dict t) = map to_dict (subnodes t).
Proof.
  induction t as [box dat kids cnt avg IH] using QuadtreeNode_forall_ind.
  cbn [to_dict dict_nodes subnodes map]. f_equal.
  induction IH as [|c cs Hc _ IHcs]; cbn [map flat_map]; [reflexivity|].
  now rewrite map_app, Hc, IHcs.
Qed.

Lemma to_dict_injective t1 t2 : to_dict t1 = to_dict t2 -> t1 = t2.
Proof.
  revert t2.
  induction t1 as [box dat kids cnt avg IH] using QuadtreeNode_forall_ind.
  intros [box2 dat2 kids2 cnt2 avg2] E. cbn [to_dict] in E.
  injection E as -> -> _ -> -> Hk. f_equal.
  revert kids2 Hk. induction IH as [|c cs Hc _ IHcs]; intros [|c2 cs2] Hk;
    cbn [map] in Hk; try discriminate; [reflexivity|].
  injection Hk as Hc2 Hcs2. f_equal; auto.
Qed.

(** X2. Serialisation loses nothing: two trees with the same dictionary are
    the same tree, and the dictionary has one nested dictionary per node. *)
Theorem to_dict_faithful :
  (forall t1 t2, to_dict t1 = to_dict t2 -> t1 = t2)
  /\ (forall t, length (dict_nodes (to_dict t)) = length (subnodes t)).
Proof.
  split; [apply to_dict_injective|].
  intros t. now rewrite dict_nodes_to_dict, length_map.
Qed.

Lemma flat_map_map {A B C : Type} (f : A -> B) (g : B -> list C) (l : list A) :
  flat_map g (map f l) = flat_map (fun x => g (f x)) l.
Proof.
  induction l as [|x l IH]; cbn [map flat_map]; [reflexivity|]. now rewrite IH.
Qed.

Lemma Zsum_flat_map {A : Type} (f : A -> list Z) (l : list A) :
  Zsum (flat_map f l) = Zsum (map (fun x => Zsum (f x)) l).
Proof.
  induction l as [|x l IH]; cbn [flat_map map]; [reflexivity|].
  rewrite Zsum_app, IH. reflexivity.
Qed.

Lemma leaf_count_sum t :
  tree_ok t ->
  Forall (fun n => children n <> [] -> data n = []) (subnodes t) ->
  poiCount t = Zsum (map (fun n => len (data n)) (subnodes t)).
Proof.
  induction t as [box dat kids cnt avg IH] using QuadtreeNode_forall_ind.
  intros Hok Hshape. rewrite subnodes_eq in *. cbn [children] in *.
  apply Forall_cons_iff in Hshape. destruct Hshape as [Hroot Hrest].
  cbn [children data] in Hroot. cbn [map Zsum fold_right data poiCount].
  change (fold_right Z.add 0) with Zsum.
  assert (Hkids : Zsum (map poiCount kids)
                  = Zsum (map (fun n => len (data n)) (flat_map subnodes kids))).
  { apply tree_ok_inv in Hok. destruct Hok as [_ Hk]. cbn [children] in Hk.
    apply Forall_flat_map in Hrest. clear - IH Hk Hrest.
    induction kids as [|k ks IHks]; [reflexivity|].
    apply Forall_cons_iff in IH, Hk, Hrest.
    destruct IH as [IHk IH], Hk as [Hk Hks], Hrest as [Hr Hrs].
    cbn [map flat_map Zsum fold_right]. change (fold_right Z.add 0) with Zsum.
    rewrite map_app, Zsum_app, <- IHks by assumption.
    rewrite <- IHk by assumption. reflexivity. }
  destruct kids as [|k ks] eqn:Ek.
  - destruct (tree_ok_leaf_post _ Hok eq_refl) as [H _].
    cbn [poiCount data] in H. rewrite H. cbn. lia.
  - rewrite <- Ek in *.
    assert (Hne : children (mkNode box dat kids cnt avg) <> [])
      by (cbn; congruence).
    destruct (tree_ok_internal_post _ Hok Hne) as [H _].
    cbn [poiCount children] in H. rewrite H, Hkids, Hroot by congruence.
    cbn. lia.
Qed.

Lemma built_shape_all max_per_node feats box depth :
  Forall (fun n => children n <> [] -> data n = [])
         (subnodes (_build max_per_node feats box depth)).
Proof.
  apply Forall_forall. intros n Hn Hne.
  apply (in_subnodes_depth depth) in Hn. destruct Hn as (d & Hn).
  assert (Hform : exists fs q, n = _build max_per_node fs q d).
  { apply built_nodes in Hn.
    destruct Hn as [[-> ->]|[_ (fs & q & -> & _)]]; eauto. }
  destruct Hform as (fs & q & ->). rewrite data_build.
  destruct (children (_build max_per_node fs q d)); [congruence|reflexivity].
Qed.

Lemma subnodes_trans t n m :
  In n (subnodes t) -> In m (subnodes n) -> In m (subnodes t).
Proof.
  induction t as [b dt ks c a IH] using QuadtreeNode_forall_ind.
  intros Hn Hm. rewrite subnodes_eq in Hn |- *. cbn [children] in *.
  destruct Hn as [<-|Hn]; [now rewrite subnodes_eq in Hm|].
  right. apply in_flat_map in Hn. destruct Hn as (k & Hk & Hn).
  apply in_flat_map. exists k. split; [exact Hk|].
  rewrite Forall_forall in IH. auto.
Qed.

(** X3. In the dictionary of a built tree every nested dictionary has
    [leafCount = len(data)], has data only when it has no children, and has
    as [poiCount] the sum of [leafCount] over itself and everything nested in
    it. *)
Theorem to_dict_counts feats box max_per_node d :
  In d (dict_nodes (to_dict (build_quadtree_for_category feats box max_per_node))) ->
  dict_leafCount d = len (dict_data d)
  /\ (dict_children d <> [] -> dict_data d = [] /\ dict_leafCount d = 0)
  /\ dict_poiCount d = Zsum (map dict_leafCount (dict_nodes d)).
Proof.
  rewrite dict_nodes_to_dict, in_map_iff. intros (n & <- & Hn).
  unfold build_quadtree_for_category in Hn.
  assert (Hok : tree_ok n)
    by (eapply tree_ok_subnode; [apply _build_tree_ok|exact Hn]).
  assert (Hshape : Forall (fun m => children m <> [] -> data m = []) (subnodes n)).
  { apply Forall_forall. intros m Hm.
    pose proof (built_shape_all max_per_node feats box 0) as H.
    rewrite Forall_forall in H. apply H.
    eapply subnodes_trans; eassumption. }
  pose proof (leaf_count_sum n Hok Hshape) as Hsum.
  destruct n as [b dt ks c a]. cbn [to_dict dict_leafCount dict_data
    dict_children dict_poiCount]. split; [reflexivity|]. split.
  - intros Hne. rewrite Forall_forall in Hshape.
    assert (Hd : dt = []).
    { apply (Hshape (mkNode b dt ks c a)); [rewrite subnodes_eq; now left|].
      cbn. destruct ks; [now cbn in Hne|discriminate]. }
    subst dt. split; reflexivity.
  - change (mkNodeDict b c (len dt) a dt (map to_dict ks))
      with (to_dict (mkNode b dt ks c a)).
    rewrite dict_nodes_to_dict, map_map. cbn [poiCount] in Hsum.
    etransitivity; [exact Hsum|].
    f_equal. apply map_ext. intros [b' dt' ks' c' a']. reflexivity.
Qed.

(** X3, instance: the root dictionary of the four-point tree. *)
Lemma to_dict_counts_witness :
  let d := to_dict (build_quadtree_for_category four_points box_0_4 1) in
  In d (dict_nodes d) /\ dict_poiCount d = 4 /\ dict_leafCount d = 0.
Proof.
  cbv zeta.
  set (d := to_dict (build_quadtree_for_category four_points box_0_4 1)).
  assert (H : In d (dict_nodes d)) by (vm_compute; left; reflexivity).
  split; [exact H|].
  destruct (to_dict_counts four_points box_0_4 1 d H) as (_ & Hc & Hp).
  split; [rewrite Hp; vm_compute; reflexivity|].
  apply Hc. vm_compute. discriminate.
Defined.

(** ** Sixteen chunks *)

Lemma contains_some_cell b f :
  contains_feature b f = true <->
  exists c, In c (subdivide_into_16 b) /\ contains_feature c f = true.
Proof.
  unfold subdivide_into_16. split.
  - intros (q & Hq & Hc)%contains_some_quadrant.
    apply contains_some_quadrant in Hc. destruct Hc as (c & Hc & Hin).
    exists c. split; [|exact Hin]. apply in_flat_map. eauto.
  - intros (c & Hc & Hin). apply in_flat_map in Hc.
    destruct Hc as (q & Hq & Hc).
    apply contains_some_quadrant. exists q. split; [exact Hq|].
    apply contains_some_quadrant. eauto.
Qed.

(** X4. [subdivide_into_16] returns sixteen boxes: the four quadrants of the
    first quadrant, then those of the second, and so on. A point lies in the
    big box exactly when it lies in one of the sixteen, and their areas add up
    to the area of the big box. *)
Theorem sixteen_chunks_tile (b : Quad) :
  length (subdivide_into_16 b) = 16%nat
  /\ (forall i c,
        nth_error (subdivide_into_16 b) i = Some c <->
        (i < 16)%nat /\
        exists q, nth_error (subdivide_into_quadrants b) (i / 4) = Some q
                  /\ nth_error (subdivide_into_quadrants q) (i mod 4) = Some c)
  /\ (forall x y,
        inside b x y <-> exists c, In c (subdivide_into_16 b) /\ inside c x y)
  /\ (Qsum (map area (subdivide_into_16 b)) == area b)%Q.
Proof.
  split; [reflexivity|]. split; [|split].
  - intros i c. split.
    + intros H.
      assert (Hi : (i < 16)%nat).
      { change 16%nat with (length (subdivide_into_16 b)).
        apply nth_error_Some. rewrite H. discriminate. }
      split; [exact Hi|].
      do 16 (destruct i as [|i]; [eexists; split; [reflexivity|exact H]|]).
      lia.
    + intros (Hi & q & Hq & Hc).
      do 16 (destruct i as [|i];
             [cbn in Hq; injection Hq as <-; exact Hc|]).
      lia.
  - intros x y. split.
    + intros (q & Hq & Hin)%quadrants_cover.
      apply quadrants_cover in Hin. destruct Hin as (c & Hc & Hin).
      exists c. split; [|exact Hin]. apply in_flat_map. eauto.
    + intros (c & Hc & Hin). apply in_flat_map in Hc.
      destruct Hc as (q & Hq & Hc).
      eapply quadrant_within; [exact Hq|].
      eapply quadrant_within; eassumption.
  - unfold subdivide_into_16, subdivide_into_quadrants, Qsum, area, two.
    cbn [flat_map app map fold_right south west north east]. field.
Qed.

(** ** Chunked trees *)

Lemma in_combine_seq {A : Type} (l : list A) s i x :
  In (i, x) (combine (seq s (length l)) l) <->
  (s <= i)%nat /\ nth_error l (i - s) = Some x.
Proof.
  revert s. induction l as [|a l IH]; intros s; cbn [length seq combine In].
  - split; [tauto|]. intros [_ H]. now destruct (i - s)%nat.
  - rewrite IH. split.
    + intros [E|[Hs Hn]].
      * injection E as <- <-. split; [lia|]. now rewrite Nat.sub_diag.
      * split; [lia|]. replace (i - s)%nat with (S (i - S s)) by lia. exact Hn.
    + intros [Hs Hn]. destruct (Nat.eq_dec s i) as [<-|Hne].
      * rewrite Nat.sub_diag in Hn. cbn in Hn. injection Hn as <-. now left.
      * right. split; [lia|].
        replace (i - s)%nat with (S (i - S s)) in Hn by lia. exact Hn.
Qed.

Lemma in_enumerate {A : Type} (l : list A) i x :
  In (i, x) (enumerate l) <-> nth_error l i = Some x.
Proof.
  unfold enumerate. rewrite in_combine_seq, Nat.sub_0_r.
  split; [tauto|]. intros H. split; [lia|exact H].
Qed.

Lemma in_chunk_quadtrees feats master i t :
  In (i, t) (chunk_quadtrees feats master) <->
  exists cbox,
    nth_error (subdivide_into_16 master) i = Some cbox
    /\ filter (contains_feature cbox) feats <> []
    /\ t = build_quadtree_for_category
             (filter (contains_feature cbox) feats) cbox 50.
Proof.
  unfold chunk_quadtrees. rewrite in_flat_map. split.
  - intros ([j cbox] & Hj & Hin). apply in_enumerate in Hj. cbv zeta in Hin.
    destruct (filter (contains_feature cbox) feats) as [|f fs] eqn:E;
      cbn [is_empty In] in Hin; [tauto|].
    destruct Hin as [Heq|[]]. injection Heq as <- <-.
    exists cbox. rewrite E. repeat split; [exact Hj|discriminate].
  - intros (cbox & Hn & Hne & ->). exists (i, cbox).
    split; [now apply in_enumerate|]. cbv zeta.
    destruct (filter (contains_feature cbox) feats); [congruence|].
    cbn. now left.
Qed.

Lemma filter_inside_all box feats f :
  In f (filter (contains_feature box) feats) -> contains_feature box f = true.
Proof. intros H. now apply filter_In in H. Qed.

(** X5. Every tree [build_subcat_quadtrees] writes for a chunk is built over
    the chunk's box with index below 16, is not empty, and counts at its root
    at least the features of the chunk; a chunk gets a tree exactly when one
    of the features lies in it. *)
Theorem chunk_trees_are_populated feats master i t :
  In (i, t) (chunk_quadtrees feats master) ->
  (i < 16)%nat
  /\ nth_error (subdivide_into_16 master) i = Some (bbox t)
  /\ 1 <= poiCount t
  /\ inside_count (bbox t) feats <= poiCount t
  /\ (exists f, In f feats /\ contains_feature (bbox t) f = true).
Proof.
  intros (cbox & Hn & Hne & ->)%in_chunk_quadtrees.
  unfold build_quadtree_for_category. rewrite bbox_build.
  assert (Hi : (i < 16)%nat).
  { change 16%nat with (length (subdivide_into_16 master)).
    apply nth_error_Some. rewrite Hn. discriminate. }
  pose proof (build_count_lower 50 (filter (contains_feature cbox) feats) cbox 0)
    as Hlow.
  assert (Hall : inside_count cbox (filter (contains_feature cbox) feats)
                 = inside_count cbox feats).
  { unfold inside_count. f_equal. apply inside_count_all.
    intros f. apply filter_inside_all. }
  rewrite Hall in Hlow.
  destruct (filter (contains_feature cbox) feats) as [|f fs] eqn:E; [congruence|].
  assert (Hf : In f feats /\ contains_feature cbox f = true).
  { apply filter_In. rewrite E. now left. }
  repeat split; [exact Hi|exact Hn| |exact Hlow|eauto].
  unfold inside_count, len in *. rewrite E in Hlow. cbn [length] in Hlow. lia.
Qed.

Lemma chunk_exists feats master i cbox f :
  nth_error (subdivide_into_16 master) i = Some cbox ->
  In f feats -> contains_feature cbox f = true ->
  exists t, In (i, t) (chunk_quadtrees feats master).
Proof.
  intros Hn Hf Hc. eexists. apply in_chunk_quadtrees.
  exists cbox. repeat split; [exact Hn|]. intros E.
  assert (H : In f (filter (contains_feature cbox) feats))
    by (apply filter_In; auto).
  now rewrite E in H.
Qed.

Lemma leaf_capacity_inside max_per_node feats box d n :
  feats <> [] ->
  (forall f, In f feats -> contains_feature box f = true) ->
  In (d, n) (nodes_from 0 (_build max_per_node feats box 0)) ->
  children n = [] -> d < MAX_DEPTH -> poiCount n <= max_per_node.
Proof.
  intros Hne Hall Hn Hleaf Hlt. apply built_node_form in Hn.
  destruct Hn as (Hd & fs & q & -> & Hpos & Hroot).
  destruct (build_leaf_count _ _ _ _ Hleaf) as [_ ->].
  apply build_leaf_iff in Hleaf. destruct Hleaf as [H|[H|Hnone]]; [lia|exact H|].
  exfalso.
  assert (Hfs : fs <> [] /\ forall f, In f fs -> contains_feature q f = true).
  { destruct (Z.eq_dec d 0) as [->|Hd0].
    - destruct (Hroot eq_refl) as [-> ->]. auto.
    - apply Hpos. lia. }
  destruct Hfs as [Hfs Hin]. destruct fs as [|g fs]; [congruence|].
  specialize (Hnone g (or_introl eq_refl)).
  specialize (Hin g (or_introl eq_refl)). congruence.
Qed.

(** X6. In every chunk tree the capacity holds without exception: a leaf
    above [MAX_DEPTH] holds at most 50 points, and no node is deeper than
    [MAX_DEPTH]. *)
Theorem chunk_trees_respect_capacity feats master i t d n :
  In (i, t) (chunk_quadtrees feats master) ->
  In (d, n) (nodes_from 0 t) ->
  0 <= d <= MAX_DEPTH
  /\ (children n = [] -> d < MAX_DEPTH -> poiCount n <= 50).
Proof.
  intros (cbox & Hc & Hne & ->)%in_chunk_quadtrees Hn.
  unfold build_quadtree_for_category in Hn. split.
  - now apply built_node_form in Hn.
  - intros Hleaf Hlt.
    eapply leaf_capacity_inside; [exact Hne| |exact Hn|exact Hleaf|exact Hlt].
    intros f. apply filter_inside_all.
Qed.

Lemma leaf_features_from_input max_per_node feats box depth f :
  In f (leaf_features (_build max_per_node feats box depth)) -> In f feats.
Proof.
  remember (levels_left depth) as k eqn:Hk.
  revert feats box depth Hk.
  induction k as [k IH] using lt_wf_ind. intros feats box depth Hk.
  rewrite leaf_features_eq.
  destruct (children (_build max_per_node feats box depth)) as [|c cs] eqn:Ec;
    cbn [is_empty].
  - destruct (build_leaf_count _ _ _ _ Ec) as [-> _]. auto.
  - rewrite <- Ec. rewrite children_build.
    destruct (leaf_test max_per_node feats depth) eqn:Ht;
      [rewrite children_build, Ht in Ec; discriminate|].
    apply leaf_test_false in Ht.
    intros (c' & Hc' & Hf)%in_flat_map.
    apply in_quadrant_children in Hc'. destruct Hc' as (q & Hq & _ & ->).
    apply (IH (levels_left (depth + 1))) in Hf;
      [|subst k; unfold levels_left; lia|reflexivity].
    now apply bucket_of_inside in Hf.
Qed.

Lemma held_by_some_leaf max_per_node feats box depth f :
  In f feats -> contains_feature box f = true ->
  In f (leaf_features (_build max_per_node feats box depth)).
Proof.
  remember (levels_left depth) as k eqn:Hk.
  revert feats box depth Hk.
  induction k as [k IH] using lt_wf_ind. intros feats box depth Hk Hf Hc.
  rewrite leaf_features_eq.
  destruct (children (_build max_per_node feats box depth)) as [|c cs] eqn:Ec;
    cbn [is_empty].
  - destruct (build_leaf_count _ _ _ _ Ec) as [-> _]. exact Hf.
  - rewrite <- Ec.
    destruct (leaf_test max_per_node feats depth) eqn:Ht;
      [rewrite children_build, Ht in Ec; discriminate|].
    apply contains_some_quadrant in Hc. destruct Hc as (q & Hq & Hc).
    destruct (child_for_quadrant max_per_node feats box depth f q Ht Hf Hq Hc)
      as (Hb & Hchild & _).
    apply in_flat_map. eexists. split; [exact Hchild|].
    apply leaf_test_false in Ht.
    apply (IH (levels_left (depth + 1)));
      [subst k; unfold levels_left; lia|reflexivity|exact Hb|exact Hc].
Qed.

(** X7. The chunk trees hold exactly the features that lie in the master box:
    a feature is held by a leaf of some chunk tree if and only if it is one of
    the input features and lies in the master box. *)
Theorem chunk_trees_hold_master_features feats master f :
  (In f feats /\ contains_feature master f = true) <->
  (exists i t, In (i, t) (chunk_quadtrees feats master)
               /\ In f (leaf_features t)).
Proof.
  split.
  - intros [Hf Hc]. apply contains_some_cell in Hc.
    destruct Hc as (cbox & Hcell & Hc).
    apply In_nth_error in Hcell. destruct Hcell as (i & Hi).
    exists i, (build_quadtree_for_category
                 (filter (contains_feature cbox) feats) cbox 50).
    split.
    + apply in_chunk_quadtrees. exists cbox. repeat split; [exact Hi|].
      intros E. assert (H : In f (filter (contains_feature cbox) feats))
        by (apply filter_In; auto).
      now rewrite E in H.
    + apply held_by_some_leaf; [apply filter_In; auto|exact Hc].
  - intros (i & t & (cbox & Hi & _ & ->)%in_chunk_quadtrees & Hf).
    apply leaf_features_from_input in Hf. apply filter_In in Hf.
    destruct Hf as [Hf Hc]. split; [exact Hf|].
    apply contains_some_cell. exists cbox. split; [|exact Hc].
    eapply nth_error_In. exact Hi.
Qed.

(** X5, instance: the first chunk of the four-point input. *)
Lemma chunk_trees_are_populated_witness :
  let t := build_quadtree_for_category
             (filter (contains_feature (mkQuad 0 0 (4 # 4) (4 # 4))) four_points)
             (mkQuad 0 0 (4 # 4) (4 # 4)) 50 in
  In (0%nat, t) (chunk_quadtrees four_points box_0_4) /\ 1 <= poiCount t.
Proof.
  cbv zeta.
  match goal with |- In ?p ?l /\ _ =>
    assert (H : In p l) by (vm_compute; left; reflexivity) end.
  split; [exact H|].
  now destruct (chunk_trees_are_populated _ _ _ _ H) as (_ & _ & Hp & _).
Defined.

(** X6, instance: the root of the first chunk tree of the four-point input. *)
Lemma chunk_trees_respect_capacity_witness :
  let t := build_quadtree_for_category
             (filter (contains_feature (mkQuad 0 0 (4 # 4) (4 # 4))) four_points)
             (mkQuad 0 0 (4 # 4) (4 # 4)) 50 in
  In (0%nat, t) (chunk_quadtrees four_points box_0_4)
  /\ In (0, t) (nodes_from 0 t) /\ poiCount t <= 50.
Proof.
  cbv zeta.
  match goal with |- In ?p ?l /\ In ?p' ?l' /\ _ =>
    assert (H : In p l) by (vm_compute; left; reflexivity);
    assert (H' : In p' l') by (vm_compute; left; reflexivity) end.
  split; [exact H|]. split; [exact H'|].
  destruct (chunk_trees_respect_capacity _ _ _ _ _ _ H H') as [_ Hcap].
  apply Hcap; [vm_compute; reflexivity|unfold MAX_DEPTH; lia].
Defined.

(** ** Grid split *)

Lemma py_range_length n : length (py_range n) = Z.to_nat n.
Proof. unfold py_range. now rewrite length_map, length_seq. Qed.

Lemma in_py_range n i : In i (py_range n) <-> 0 <= i < n.
Proof.
  unfold py_range. rewrite in_map_iff. split.
  - intros (k & <- & Hk%in_seq). lia.
  - intros H. exists (Z.to_nat i). split; [lia|]. apply in_seq. lia.
Qed.

Lemma py_range_nth n i :
  0 <= i < n -> nth_error (py_range n) (Z.to_nat i) = Some i.
Proof.
  intros H. unfold py_range.
  rewrite nth_error_map, nth_error_seq.
  destruct (Nat.ltb_spec (Z.to_nat i) (Z.to_nat n)) as [_|Hge]; [|lia].
  cbn. f_equal. lia.
Qed.

Lemma rows_length {A B C : Type} (g : A -> B -> C) rows cols :
  length (flat_map (fun i => map (g i) cols) rows)
  = (length rows * length cols)%nat.
Proof.
  induction rows as [|r rows IH]; cbn [flat_map length]; [reflexivity|].
  rewrite length_app, length_map, IH. lia.
Qed.

Lemma rows_nth {A B C : Type} (g : A -> B -> C) rows cols a b ri cj :
  nth_error rows a = Some ri -> nth_error cols b = Some cj ->
  nth_error (flat_map (fun i => map (g i) cols) rows) (a * length cols + b)
  = Some (g ri cj).
Proof.
  revert a. induction rows as [|r rows IH]; intros a Ha Hb.
  - now destruct a.
  - cbn [flat_map]. destruct a as [|a]; cbn [nth_error] in Ha.
    + injection Ha as ->. cbn [Nat.mul Nat.add].
      assert (Hlt : (b < length cols)%nat)
        by (apply nth_error_Some; rewrite Hb; discriminate).
      rewrite nth_error_app1 by (rewrite length_map; exact Hlt).
      rewrite nth_error_map, Hb. reflexivity.
    + rewrite nth_error_app2 by (rewrite length_map; lia).
      rewrite length_map.
      replace (S a * length cols + b - length cols)%nat
        with (a * length cols + b)%nat by lia.
      now apply IH.
Qed.

(** X8. [split_bbox] raises [ZeroDivisionError] for the divider [0], returns
    no chunk for a negative divider, and for a positive divider returns
    [divider * divider] chunks in row-major order: the chunk of row [i] and
    column [j] sits at index [i * divider + j]. *)
Theorem split_bbox_grid (bbox : BBox) (divider : Z) :
  (divider = 0 -> split_bbox bbox divider = Err ZeroDivisionError)
  /\ (divider < 0 -> split_bbox bbox divider = Ok [])
  /\ (0 < divider ->
      exists cells,
        split_bbox bbox divider = Ok cells
        /\ len cells = divider * divider
        /\ forall i j, 0 <= i < divider -> 0 <= j < divider ->
             nth_error cells (Z.to_nat (i * divider + j))
             = Some (grid_cell bbox
                       ((max_lat bbox - min_lat bbox) / inject_Z divider)%Q
                       ((max_lon bbox - min_lon bbox) / inject_Z divider)%Q
                       i j)).
Proof.
  unfold split_bbox. split; [intros ->; reflexivity|]. split.
  - intros Hneg. destruct (Z.eqb_spec divider 0) as [E|_]; [lia|].
    unfold py_range. replace (Z.to_nat divider) with 0%nat by lia. reflexivity.
  - intros Hpos. destruct (Z.eqb_spec divider 0) as [E|_]; [lia|].
    cbv zeta. eexists. split; [reflexivity|]. split.
    + unfold len. rewrite rows_length, !py_range_length. lia.
    + intros i j Hi Hj.
      replace (Z.to_nat (i * divider + j))
        with (Z.to_nat i * length (py_range divider) + Z.to_nat j)%nat
        by (rewrite py_range_length; nia).
      apply (rows_nth (grid_cell bbox _ _)); now apply py_range_nth.
Qed.

(** X10. The sixteen chunks of [subdivide_into_16] are the cells of the
    four-by-four grid of [split_bbox], in another order: the cell of row [i]
    and column [j] is chunk number [chunk_index i j]. *)
Theorem sixteen_chunks_are_grid_cells (b : BBox) (i j : nat) :
  (i < 4)%nat -> (j < 4)%nat ->
  exists cells c q,
    split_bbox b 4 = Ok cells
    /\ nth_error cells (4 * i + j) = Some c
    /\ nth_error (subdivide_into_16 (quad_of_bbox b)) (chunk_index i j) = Some q
    /\ same_box (quad_of_bbox c) q.
Proof.
  intros Hi Hj.
  assert (Ci : (i = 0 \/ i = 1 \/ i = 2 \/ i = 3)%nat) by lia.
  assert (Cj : (j = 0 \/ j = 1 \/ j = 2 \/ j = 3)%nat) by lia.
  destruct Ci as [->|[->|[->| ->]]]; destruct Cj as [->|[->|[->| ->]]];
    (eexists _, _, _; split; [reflexivity|]; split; [reflexivity|];
     split; [reflexivity|];
     unfold same_box, quad_of_bbox, grid_cell, two;
     cbn [south west north east min_lat min_lon max_lat max_lon Z.add
          Pos.add Pos.succ inject_Z];
     repeat split;
     repeat match goal with
            | |- context [inject_Z ?z] =>
                let v := eval vm_compute in (inject_Z z) in
                change (inject_Z z) with v
            end;
     field).
Qed.

(** X10, instance: row 1, column 2 of the unit square is chunk 6. *)
Lemma sixteen_chunks_are_grid_cells_witness :
  exists q,
    nth_error (subdivide_into_16 (quad_of_bbox (mkBBox 0 0 1 1))) 6 = Some q
    /\ same_box (mkQuad (1 # 4) (2 # 4) (2 # 4) (3 # 4)) q.
Proof.
  destruct (sixteen_chunks_are_grid_cells (mkBBox 0 0 1 1) 1 2)
    as (cells & c & q & Hs & Hc & Hq & Hsame); [lia|lia|].
  exists q. split; [exact Hq|].
  injection Hs as <-. injection Hc as <-.
  destruct Hsame as (H1 & H2 & H3 & H4).
  cbn [quad_of_bbox grid_cell south west north east min_lat min_lon max_lat
       max_lon] in *.
  repeat split.
  - rewrite <- H1. reflexivity.
  - rewrite <- H2. reflexivity.
  - rewrite <- H3. reflexivity.
  - rewrite <- H4. reflexivity.
Defined.

(** ** Filtering features *)

Lemma filter_step_kept state feat :
  filter_step state feat =
  let '(cleaned, m, t) := state in
  if negb (has_geometry feat) then (cleaned, m + 1, t)
  else if negb (has_tags feat) then (cleaned, m, t + 1)
  else (cleaned ++ [feat], m, t).
Proof.
  destruct state as [[cleaned m] t]. unfold filter_step, has_geometry, has_tags.
  cbv zeta.
  destruct (is_none (get_or_none (properties_of feat) "lat")
            || is_none (get_or_none (properties_of feat) "lon"));
    cbn [negb]; [reflexivity|].
  destruct (is_empty (tag_keys_of (properties_of feat))); reflexivity.
Qed.

Lemma filter_features_from features : forall cleaned m t,
  fold_left filter_step features (cleaned, m, t) =
  (cleaned ++ filter kept features,
   m + count_where (fun f => negb (has_geometry f)) features,
   t + count_where (fun f => has_geometry f && negb (has_tags f)) features).
Proof.
  unfold count_where, len.
  induction features as [|f fs IH]; intros cleaned m t; cbn [fold_left filter].
  - rewrite app_nil_r. cbn. f_equal; [f_equal|]; lia.
  - rewrite filter_step_kept. unfold kept.
    destruct (has_geometry f); cbn [negb andb].
    + destruct (has_tags f); cbn [negb]; rewrite IH.
      * rewrite <- app_assoc. cbn [app]. reflexivity.
      * cbn [length]. f_equal. lia.
    + rewrite IH. cbn [length]. f_equal. f_equal. lia.
Qed.

Lemma filter_features_eq features :
  filter_features features =
  (filter kept features,
   count_where (fun f => negb (has_geometry f)) features,
   count_where (fun f => has_geometry f && negb (has_tags f)) features).
Proof. unfold filter_features. now rewrite filter_features_from. Qed.

Lemma count_where_partition features :
  len (filter kept features)
  + count_where (fun f => negb (has_geometry f)) features
  + count_where (fun f => has_geometry f && negb (has_tags f)) features
  = len features.
Proof.
  unfold count_where, len, kept.
  induction features as [|f fs IH]; cbn [filter length]; [reflexivity|].
  destruct (has_geometry f), (has_tags f); cbn [negb andb length]; lia.
Qed.

Lemma filter_kept_none (p : GeoFeature -> bool) features :
  (forall f, kept f = true -> p f = false) ->
  count_where p (filter kept features) = 0.
Proof.
  intros H. unfold count_where, len.
  induction features as [|f fs IH]; cbn [filter]; [reflexivity|].
  destruct (kept f) eqn:E; [|exact IH].
  cbn [filter]. now rewrite (H f E).
Qed.

(** X11. [filter_features] keeps, in their order, exactly the features that
    have a latitude and a longitude and a key outside [skip_keys]; the two
    counters count the features dropped for each reason, so the three numbers
    add up to the number of features. Filtering the result again changes
    nothing and discards nothing. *)
Theorem filter_features_partitions (features : list GeoFeature) :
  let '(cleaned, missing_geometry, no_tags) := filter_features features in
  cleaned = filter kept features
  /\ missing_geometry = count_where (fun f => negb (has_geometry f)) features
  /\ no_tags = count_where (fun f => has_geometry f && negb (has_tags f)) features
  /\ len cleaned + missing_geometry + no_tags = len features
  /\ filter_features cleaned = (cleaned, 0, 0).
Proof.
  rewrite filter_features_eq. repeat split.
  - apply count_where_partition.
  - rewrite filter_features_eq. f_equal; [f_equal|].
    + clear. induction features as [|f fs IH]; cbn [filter]; [reflexivity|].
      destruct (kept f) eqn:E; [|exact IH]. cbn [filter]. now rewrite E, IH.
    + apply filter_kept_none. unfold kept. intros f H.
      apply andb_true_iff in H. destruct H as [-> _]. reflexivity.
    + apply filter_kept_none. unfold kept. intros f H.
      apply andb_true_iff in H. destruct H as [-> ->]. reflexivity.
Qed.

(** ** Classification *)

Lemma classify_via_dict_sound rules props cls :
  classify_via_dict rules props = Some cls ->
  exists key mapping val,
    In (key, mapping) rules /\ dict_get props key = Some val
    /\ (mapping_lookup mapping val = Some cls
        \/ (mapping_lookup mapping val = None
            /\ mapping_get mapping "*" = Some cls)).
Proof.
  induction rules as [|[key mapping] rest IH]; cbn [classify_via_dict];
    [discriminate|].
  destruct (dict_get props key) as [val|] eqn:Eg.
  - destruct (mapping_lookup mapping val) as [c|] eqn:El.
    + intros [= <-]. exists key, mapping, val. cbn. auto.
    + destruct (mapping_get mapping "*") as [c|] eqn:Ew.
      * intros [= <-]. exists key, mapping, val. cbn. auto.
      * intros H. destruct (IH H) as (k & m & v & Hin & Hrest).
        exists k, m, v. cbn. auto.
  - intros H. destruct (IH H) as (k & m & v & Hin & Hrest).
    exists k, m, v. cbn. auto.
Qed.

Lemma classify_via_dict_none rules props :
  classify_via_dict rules props = None <->
  forall key mapping val,
    In (key, mapping) rules -> dict_get props key = Some val ->
    mapping_lookup mapping val = None /\ mapping_get mapping "*" = None.
Proof.
  induction rules as [|[key mapping] rest IH]; cbn [classify_via_dict In].
  - split; [tauto|reflexivity].
  - destruct (dict_get props key) as [val|] eqn:Eg.
    + destruct (mapping_lookup mapping val) as [c|] eqn:El.
      * split; [discriminate|]. intros H.
        destruct (H key mapping val (or_introl eq_refl) Eg). congruence.
      * destruct (mapping_get mapping "*") as [c|] eqn:Ew.
        -- split; [discriminate|]. intros H.
           destruct (H key mapping val (or_introl eq_refl) Eg). congruence.
        -- rewrite IH. split.
           ++ intros H k m v [[= <- <-]|Hin] Hv; [|eauto].
              rewrite Eg in Hv. injection Hv as <-. auto.
           ++ intros H k m v Hin. apply H. now right.
    + rewrite IH. split.
      * intros H k m v [[= <- <-]|Hin] Hv; [congruence|eauto].
      * intros H k m v Hin. apply H. now right.
Qed.

Lemma classify_via_dict_app pre post props :
  classify_via_dict pre props = None ->
  classify_via_dict (pre ++ post) props = classify_via_dict post props.
Proof.
  induction pre as [|[key mapping] pre IH]; cbn [app classify_via_dict];
    [reflexivity|].
  destruct (dict_get props key) as [val|]; [|exact IH].
  destruct (mapping_lookup mapping val); [discriminate|].
  destruct (mapping_get mapping "*"); [discriminate|exact IH].
Qed.

(** X12. [classify_via_dict] answers with the class of the first rule, in
    table order, whose key is a key of the properties and whose mapping has
    the value or the wildcard ["*"]; the value wins over the wildcard; it
    answers [None] exactly when no rule has such a key. *)
Theorem classify_via_dict_first_match (rules : Rules) (props : PyDict) :
  (forall cls,
     classify_via_dict rules props = Some cls ->
     exists key mapping val,
       In (key, mapping) rules /\ dict_get props key = Some val
       /\ (mapping_lookup mapping val = Some cls
           \/ (mapping_lookup mapping val = None
               /\ mapping_get mapping "*" = Some cls)))
  /\ (classify_via_dict rules props = None <->
      forall key mapping val,
        In (key, mapping) rules -> dict_get props key = Some val ->
        mapping_lookup mapping val = None /\ mapping_get mapping "*" = None)
  /\ (forall pre key mapping post val,
        rules = pre ++ (key, mapping) :: post ->
        classify_via_dict pre props = None ->
        dict_get props key = Some val ->
        (forall cls, mapping_lookup mapping val = Some cls ->
                     classify_via_dict rules props = Some cls)
        /\ (forall cls, mapping_lookup mapping val = None ->
                        mapping_get mapping "*" = Some cls ->
                        classify_via_dict rules props = Some cls)).
Proof.
  split; [intros cls; apply classify_via_dict_sound|].
  split; [apply classify_via_dict_none|].
  intros pre key mapping post val -> Hpre Hval.
  rewrite (classify_via_dict_app pre _ props Hpre).
  cbn [classify_via_dict]. rewrite Hval. split.
  - intros cls ->. reflexivity.
  - intros cls -> ->. reflexivity.
Qed.

Lemma classify_poi_eq rules lower feature :
  classify_poi rules lower feature =
  if negb (has_geometry feature)
  then Ok (("Discard", "Discard", "missing_geometry"), [])%string
  else if negb (has_tags feature)
  then Ok (("Discard", "Discard", "no_tags"), [])%string
  else
    match classify_via_dict rules (properties_of feature) with
    | Some (cat, sub) => Ok ((cat, sub, "ok"), [])%string
    | None =>
        match (match dict_get (properties_of feature) "name" with
               | Some v => v
               | None => PyStr ""
               end) with
        | PyStr s =>
            let name := lower s in
            if is_substring "hut" name || is_substring "cabin" name
            then Ok (("Accommodation", "Hut", "ok"), [])%string
            else if is_substring "gipfel" name
            then Ok (("Nature", "Peak", "ok"), [])%string
            else if existsb (fun w => is_substring w name)
                      ["waterfall"; "falls"; "cascad"]%string
            then Ok (("Nature", "Waterfall", "ok"), [])%string
            else
              match store_unclassified feature with
              | Err e => Err e
              | Ok record =>
                  Ok (("Discard", "Discard", "unclassified"), [record])%string
              end
        | _ => Err (AttributeErrorOn "lower")
        end
    end.
Proof.
  unfold classify_poi, has_geometry, has_tags. cbv zeta.
  destruct (is_none (get_or_none (properties_of feature) "lat")
            || is_none (get_or_none (properties_of feature) "lon"));
    cbn [negb]; [reflexivity|].
  destruct (is_empty (tag_keys_of (properties_of feature))); reflexivity.
Qed.

Lemma has_geometry_properties feature :
  has_geometry feature = true -> exists props, feat_properties feature = Some props.
Proof.
  unfold has_geometry, properties_of.
  destruct (feat_properties feature) as [props|]; [eauto|].
  cbn. discriminate.
Qed.

(** The cases of [classify_poi], in the order of its tests. *)
Lemma classify_poi_cases rules lower feature :
  (forall cat sub reason log,
     classify_poi rules lower feature = Ok ((cat, sub, reason), log) ->
     (reason = "missing_geometry"%string /\ has_geometry feature = false
        /\ cat = "Discard"%string /\ sub = "Discard"%string /\ log = [])
     \/ (reason = "no_tags"%string /\ has_geometry feature = true
        /\ has_tags feature = false
        /\ cat = "Discard"%string /\ sub = "Discard"%string /\ log = [])
     \/ (reason = "ok"%string /\ kept feature = true /\ log = []
        /\ (classify_via_dict rules (properties_of feature) = Some (cat, sub)
            \/ (classify_via_dict rules (properties_of feature) = None
                /\ In (cat, sub) fallback_classes)))
     \/ (reason = "unclassified"%string /\ kept feature = true
        /\ cat = "Discard"%string /\ sub = "Discard"%string
        /\ classify_via_dict rules (properties_of feature) = None
        /\ exists record, store_unclassified feature = Ok record
                          /\ log = [record]))
  /\ (forall e,
        classify_poi rules lower feature = Err e ->
        e = AttributeErrorOn "lower" /\ kept feature = true
        /\ classify_via_dict rules (properties_of feature) = None
        /\ exists v, dict_get (properties_of feature) "name" = Some v
                     /\ forall s, v <> PyStr s).
Proof.
  rewrite classify_poi_eq. unfold kept.
  destruct (has_geometry feature) eqn:Hg; cbn [negb andb].
  2:{ split; [|discriminate]. intros cat sub reason log [= <- <- <- <-].
      left. repeat split. }
  destruct (has_tags feature) eqn:Ht; cbn [negb].
  2:{ split; [|discriminate]. intros cat sub reason log [= <- <- <- <-].
      right. left. repeat split. }
  destruct (classify_via_dict rules (properties_of feature)) as [[c s]|] eqn:Ec.
  { split; [|discriminate]. intros cat sub reason log [= <- <- <- <-].
    right. right. left. repeat split. now left. }
  destruct (has_geometry_properties feature Hg) as (props & Hprops).
  assert (Hstore : exists record, store_unclassified feature = Ok record).
  { unfold store_unclassified. rewrite Hprops. eauto. }
  destruct Hstore as (record & Hstore). rewrite Hstore.
  destruct (dict_get (properties_of feature) "name") as [[|s|x]|] eqn:En.
  - split; [discriminate|]. intros e [= <-]. repeat split.
    exists PyNone. split; [reflexivity|discriminate].
  - split; [|repeat (match goal with |- context [if ?b then _ else _] =>
                       destruct b end); discriminate].
    intros cat sub reason log. cbv zeta. unfold fallback_classes.
    repeat (match goal with |- context [if ?b then _ else _] =>
              destruct b end);
      intros [= <- <- <- <-]; right; right;
      [left|left|left|right]; repeat split; cbn [In]; eauto 6.
  - split; [discriminate|]. intros e [= <-]. repeat split.
    exists (PyFloat x). split; [reflexivity|discriminate].
  - split; [|repeat (match goal with |- context [if ?b then _ else _] =>
                       destruct b end); discriminate].
    intros cat sub reason log. cbv zeta. unfold fallback_classes.
    repeat (match goal with |- context [if ?b then _ else _] =>
              destruct b end);
      intros [= <- <- <- <-]; right; right;
      [left|left|left|right]; repeat split; cbn [In]; eauto 6.
Qed.

(** X13. What [classify_poi] can return. Without latitude or longitude the
    answer is [Discard] with reason [missing_geometry]; otherwise, without a
    key outside [skip_keys], [Discard] with reason [no_tags]; otherwise the
    class found in the rules, or one of the three classes of the name-based
    fallback, with reason [ok]; otherwise [Discard] with reason
    [unclassified], and only then one record is appended to the file of
    unclassified points. *)
Theorem classify_poi_outcomes rules lower feature cat sub reason log :
  classify_poi rules lower feature = Ok ((cat, sub, reason), log) ->
  (reason = "missing_geometry"%string /\ has_geometry feature = false
     /\ cat = "Discard"%string /\ sub = "Discard"%string /\ log = [])
  \/ (reason = "no_tags"%string /\ has_geometry feature = true
     /\ has_tags feature = false
     /\ cat = "Discard"%string /\ sub = "Discard"%string /\ log = [])
  \/ (reason = "ok"%string /\ kept feature = true /\ log = []
     /\ (classify_via_dict rules (properties_of feature) = Some (cat, sub)
         \/ (classify_via_dict rules (properties_of feature) = None
             /\ In (cat, sub) fallback_classes)))
  \/ (reason = "unclassified"%string /\ kept feature = true
     /\ cat = "Discard"%string /\ sub = "Discard"%string
     /\ classify_via_dict rules (properties_of feature) = None
     /\ exists record, store_unclassified feature = Ok record
                       /\ log = [record]).
Proof.
  intros H. destruct (classify_poi_cases rules lower feature) as [Hout _].
  exact (Hout cat sub reason log H).
Qed.


(** X14. [filter_features] and [classify_poi] test the same two conditions:
    [classify_poi] answers [missing_geometry] or [no_tags] exactly for the
    features that [filter_features] drops, so a feature that comes out of
    [filter_features] is never discarded for one of these two reasons. *)
Theorem filter_and_classify_agree rules lower :
  (forall feature,
     kept feature = false <->
     exists reason,
       classify_poi rules lower feature
         = Ok (("Discard", "Discard", reason), [])%string
       /\ (reason = "missing_geometry" \/ reason = "no_tags")%string)
  /\ (forall features feature cat sub reason log,
        In feature (fst (fst (filter_features features))) ->
        classify_poi rules lower feature = Ok ((cat, sub, reason), log) ->
        reason = "ok"%string \/ reason = "unclassified"%string).
Proof.
  assert (Hone : forall feature,
     kept feature = false <->
     exists reason,
       classify_poi rules lower feature
         = Ok (("Discard", "Discard", reason), [])%string
       /\ (reason = "missing_geometry" \/ reason = "no_tags")%string).
  { intros feature. split.
    - intros Hk. rewrite classify_poi_eq. unfold kept in Hk.
      destruct (has_geometry feature); cbn [negb andb] in *; [|eauto].
      rewrite Hk. cbn [negb]. eauto.
    - intros (reason & Hc & Hr).
      destruct (classify_poi_cases rules lower feature) as [Hout _].
      destruct (Hout _ _ _ _ Hc)
        as [(_ & Hg & _)|[(_ & Hg & Ht & _)|[(E & _)|(E & _)]]];
        unfold kept.
      + now rewrite Hg.
      + now rewrite Hg, Ht.
      + destruct Hr; congruence.
      + destruct Hr; congruence. }
  split; [exact Hone|].
  intros features feature cat sub reason log Hin Hc.
  rewrite filter_features_eq in Hin. cbn [fst] in Hin.
  apply filter_In in Hin. destruct Hin as [_ Hk].
  destruct (classify_poi_cases rules lower feature) as [Hout _].
  destruct (Hout _ _ _ _ Hc)
    as [(_ & Hg & _)|[(_ & Hg & Ht & _)|[(E & _)|(E & _)]]]; auto;
    unfold kept in Hk; rewrite Hg in Hk; cbn in Hk; congruence.
Qed.

(** ** The rules table of the repository *)

Lemma mapping_get_in mapping key cls :
  mapping_get mapping key = Some cls -> In (key, cls) mapping.
Proof.
  induction mapping as [|[k v] rest IH]; cbn [mapping_get In]; [discriminate|].
  destruct (String.eqb_spec k key) as [->|_].
  - intros [= ->]. now left.
  - intros H. right. now apply IH.
Qed.

Lemma table_categories_complete key mapping value cat sub :
  In (key, mapping) CLASSIFICATION_RULES -> In (value, (cat, sub)) mapping ->
  In cat table_categories /\ cat <> "Discard"%string.
Proof.
  intros Hk Hv.
  assert (Hall : forallb (fun '(_, m) =>
            forallb (fun '(_, (c, _)) =>
                       str_in c table_categories
                       && negb (String.eqb c "Discard")) m)
            CLASSIFICATION_RULES = true) by (vm_compute; reflexivity).
  rewrite forallb_forall in Hall. specialize (Hall _ Hk). cbn beta iota in Hall.
  rewrite forallb_forall in Hall. specialize (Hall _ Hv). cbn beta iota in Hall.
  apply andb_true_iff in Hall. destruct Hall as [Hc Hd].
  split.
  - unfold str_in in Hc. apply existsb_exists in Hc.
    destruct Hc as (c & Hin & Heq). apply String.eqb_eq in Heq. now subst.
  - intros ->. discriminate.
Qed.

(** X15. With the table of the repository, every class [classify_via_dict]
    answers has one of the eleven categories of the table; the wildcard
    entries work: properties with a key [shop], [place] or [natural] always
    get a class; and [classify_poi] answers the category [Discard] exactly
    when its reason is not [ok]. *)
Theorem repository_rules_classes :
  (forall props cat sub,
     classify_via_dict CLASSIFICATION_RULES props = Some (cat, sub) ->
     In cat table_categories)
  /\ (forall props key,
        In key ["shop"; "place"; "natural"]%string ->
        dict_has props key = true ->
        classify_via_dict CLASSIFICATION_RULES props <> None)
  /\ (forall lower feature cat sub reason log,
        classify_poi CLASSIFICATION_RULES lower feature
          = Ok ((cat, sub, reason), log) ->
        (cat = "Discard"%string <-> reason <> "ok"%string)).
Proof.
  assert (Hcat : forall props cat sub,
     classify_via_dict CLASSIFICATION_RULES props = Some (cat, sub) ->
     In cat table_categories /\ cat <> "Discard"%string).
  { intros props cat sub H. apply classify_via_dict_sound in H.
    destruct H as (key & mapping & val & Hin & _ & Hcls).
    destruct Hcls as [Hl|[_ Hw]].
    - destruct val as [|s|x]; try discriminate. cbn in Hl.
      apply mapping_get_in in Hl. eapply table_categories_complete; eassumption.
    - apply mapping_get_in in Hw. eapply table_categories_complete; eassumption. }
  split; [intros props cat sub H; now apply Hcat in H|]. split.
  - intros props key Hkey Hhas Hnone.
    rewrite classify_via_dict_none in Hnone. unfold dict_has in Hhas.
    destruct (dict_get props key) as [v|] eqn:E; [|discriminate].
    cbn [In] in Hkey. destruct Hkey as [<-|[<-|[<-|[]]]].
    + assert (Hw : exists m, In ("shop"%string, m) CLASSIFICATION_RULES
                              /\ mapping_get m "*" <> None).
      { eexists. split;
          [unfold CLASSIFICATION_RULES; do 2 right; left; reflexivity|].
        vm_compute. discriminate. }
      destruct Hw as (m & Hin & Hw).
      destruct (Hnone _ m v Hin E) as [_ H]. contradiction.
    + assert (Hw : exists m, In ("place"%string, m) CLASSIFICATION_RULES
                              /\ mapping_get m "*" <> None).
      { eexists. split;
          [unfold CLASSIFICATION_RULES; do 3 right; left; reflexivity|].
        vm_compute. discriminate. }
      destruct Hw as (m & Hin & Hw).
      destruct (Hnone _ m v Hin E) as [_ H]. contradiction.
    + assert (Hw : exists m, In ("natural"%string, m) CLASSIFICATION_RULES
                              /\ mapping_get m "*" <> None).
      { eexists. split;
          [unfold CLASSIFICATION_RULES; do 5 right; left; reflexivity|].
        vm_compute. discriminate. }
      destruct Hw as (m & Hin & Hw).
      destruct (Hnone _ m v Hin E) as [_ H]. contradiction.
  - intros lower feature cat sub reason log H.
    destruct (classify_poi_cases CLASSIFICATION_RULES lower feature)
      as [Hout _].
    destruct (Hout _ _ _ _ H)
      as [(-> & _ & -> & _)|[(-> & _ & _ & -> & _)|[(-> & _ & _ & Hc)
          |(-> & _ & -> & _)]]];
      try (split; [discriminate|reflexivity]).
    split; [|congruence]. intros ->. exfalso.
    destruct Hc as [Hc|[_ Hc]].
    + apply Hcat in Hc. destruct Hc as [_ Hc]. congruence.
    + cbn in Hc. destruct Hc as [E|[E|[E|[]]]]; discriminate.
Qed.

(** ** Converting nodes *)

Lemma dict_get_set d key value k :
  dict_get (dict_set d key value) k =
  if String.eqb key k then Some value else dict_get d k.
Proof.
  induction d as [|[k0 v0] rest IH]; cbn [dict_set dict_get].
  - reflexivity.
  - destruct (String.eqb_spec k0 key) as [->|Hne]; cbn [dict_get].
    + destruct (String.eqb_spec key k); reflexivity.
    + rewrite IH. destruct (String.eqb_spec k0 k) as [->|_]; [|reflexivity].
      destruct (String.eqb_spec key k); [congruence|reflexivity].
Qed.

Lemma dict_keys_set d key value k :
  In k (dict_keys (dict_set d key value)) <-> In k (dict_keys d) \/ k = key.
Proof.
  unfold dict_keys.
  induction d as [|[k0 v0] rest IH]; cbn [dict_set map fst In].
  - split; [intros [->|[]]; auto|intros [[]| ->]; auto].
  - destruct (String.eqb_spec k0 key) as [->|Hne]; cbn [map fst In].
    + split; [tauto|intros [H| ->]; auto].
    + rewrite IH. tauto.
Qed.

Lemma add_tag_eq properties tag :
  add_tag properties tag =
  match tag_key tag, attrib_get (elem_attrib tag) "v" with
  | Some k, Some v => dict_set properties k (PyStr v)
  | _, _ => properties
  end.
Proof.
  unfold add_tag, tag_key.
  destruct (attrib_get (elem_attrib tag) "k") as [k|];
    destruct (attrib_get (elem_attrib tag) "v") as [v|]; try reflexivity.
  destruct (truthy (Some k) && truthy (Some v)); reflexivity.
Qed.

Lemma tags_keep_values tags : forall properties key,
  is_none (get_or_none properties key) = false ->
  is_none (get_or_none (fold_left add_tag tags properties) key) = false.
Proof.
  induction tags as [|tag tags IH]; intros properties key H; cbn [fold_left];
    [exact H|].
  apply IH. rewrite add_tag_eq.
  destruct (tag_key tag) as [k|]; [|exact H].
  destruct (attrib_get (elem_attrib tag) "v") as [v|]; [|exact H].
  unfold get_or_none. rewrite dict_get_set.
  destruct (String.eqb k key); [reflexivity|exact H].
Qed.

Lemma tags_keys tags : forall properties key,
  In key (dict_keys (fold_left add_tag tags properties)) <->
  In key (dict_keys properties)
  \/ exists tag, In tag tags /\ tag_key tag = Some key.
Proof.
  induction tags as [|tag tags IH]; intros properties key; cbn [fold_left In].
  - split; [auto|intros [H|(t & [] & _)]; exact H].
  - rewrite IH, add_tag_eq. split.
    + intros [H|(t & Ht & Hk)]; [|right; eauto].
      destruct (tag_key tag) as [k|] eqn:Ek; [|auto].
      destruct (attrib_get (elem_attrib tag) "v") as [v|] eqn:Ev; [|auto].
      apply dict_keys_set in H. destruct H as [H| ->]; [auto|].
      right. exists tag. auto.
    + intros [H|(t & [<-|Ht] & Hk)].
      * left. destruct (tag_key tag) as [k|]; [|exact H].
        destruct (attrib_get (elem_attrib tag) "v"); [|exact H].
        apply dict_keys_set. auto.
      * left. rewrite Hk.
        assert (Hv : exists v, attrib_get (elem_attrib tag) "v" = Some v).
        { unfold tag_key in Hk.
          destruct (attrib_get (elem_attrib tag) "k");
            destruct (attrib_get (elem_attrib tag) "v"); try discriminate.
          eauto. }
        destruct Hv as (v & ->). apply dict_keys_set. auto.
      * right. eauto.
Qed.

Lemma meaningful_tag_key tag :
  meaningful_tag tag = true <->
  exists k, tag_key tag = Some k /\ str_in k skip_keys = false.
Proof.
  unfold meaningful_tag, tag_key.
  destruct (attrib_get (elem_attrib tag) "k") as [k|];
    destruct (attrib_get (elem_attrib tag) "v") as [v|];
    try (split; [discriminate|intros (k' & H & _); discriminate]).
  destruct (truthy (Some k) && truthy (Some v)); cbn [andb].
  - rewrite negb_true_iff. split.
    + intros H. eauto.
    + intros (k' & [= <-] & H). exact H.
  - split; [discriminate|intros (k' & H & _); discriminate].
Qed.

Lemma has_tags_iff feat :
  has_tags feat = true <->
  exists key, In key (dict_keys (properties_of feat))
              /\ str_in key skip_keys = false.
Proof.
  unfold has_tags, tag_keys_of. rewrite negb_true_iff. split.
  - intros H.
    destruct (filter (fun k => negb (str_in k skip_keys))
                     (dict_keys (properties_of feat))) as [|k ks] eqn:E;
      [discriminate|].
    assert (Hk : In k (k :: ks)) by now left.
    rewrite <- E in Hk. apply filter_In in Hk. destruct Hk as [Hk Hs].
    exists k. split; [exact Hk|]. now apply negb_true_iff.
  - intros (key & Hk & Hs).
    destruct (filter (fun k => negb (str_in k skip_keys))
                     (dict_keys (properties_of feat))) as [|k ks] eqn:E;
      [|reflexivity].
    assert (Hin : In key (filter (fun k => negb (str_in k skip_keys))
                                 (dict_keys (properties_of feat)))).
    { apply filter_In. split; [exact Hk|]. now rewrite Hs. }
    now rewrite E in Hin.
Qed.

(** The cases of [node_to_feature]. *)
Lemma node_to_feature_cases py_float node :
  (forall feat,
     node_to_feature py_float node = Ok feat ->
     has_geometry feat = true
     /\ (exists lat lon,
           py_float (attrib_get_default node "lat" "0.0") = Some lat
           /\ py_float (attrib_get_default node "lon" "0.0") = Some lon
           /\ feat_coordinates feat = Some (lon, lat))
     /\ has_tags feat = existsb meaningful_tag (findall node "tag"))
  /\ (forall e,
        node_to_feature py_float node = Err e ->
        exists s, e = ValueError s /\ py_float s = None).
Proof.
  unfold node_to_feature. cbv zeta.
  destruct (py_float (attrib_get_default node "lat" "0.0")) as [lat|] eqn:Elat.
  2:{ split; [discriminate|]. intros e [= <-]. eauto. }
  destruct (py_float (attrib_get_default node "lon" "0.0")) as [lon|] eqn:Elon.
  2:{ split; [discriminate|]. intros e [= <-]. eauto. }
  split; [|discriminate]. intros feat [= <-]. split; [|split].
  - unfold has_geometry, properties_of. cbn [feat_properties].
    rewrite !tags_keep_values by reflexivity. reflexivity.
  - exists lat, lon. repeat split.
  - match goal with |- ?a = ?b => destruct b eqn:Eb end.
    + apply existsb_exists in Eb. destruct Eb as (tag & Htag & Hm).
      apply meaningful_tag_key in Hm. destruct Hm as (k & Hk & Hs).
      apply has_tags_iff. exists k. split; [|exact Hs].
      unfold properties_of. cbn [feat_properties]. apply tags_keys. eauto.
    + match goal with |- ?a = false => destruct a eqn:Ea end; [|reflexivity].
      apply has_tags_iff in Ea. destruct Ea as (key & Hk & Hs).
      unfold properties_of in Hk. cbn [feat_properties] in Hk.
      apply tags_keys in Hk. destruct Hk as [Hk|(tag & Htag & Hk)].
      * cbn in Hk. destruct Hk as [<-|[<-|[<-|[<-|[]]]]]; discriminate.
      * assert (Hm : existsb meaningful_tag (findall node "tag") = true).
        { apply existsb_exists. exists tag. split; [exact Htag|].
          apply meaningful_tag_key. eauto. }
        congruence.
Qed.

(** X16. A feature that [node_to_feature] returns always has a latitude and
    a longitude: its coordinates are the parsed [lon] and [lat] attributes
    (["0.0"] when absent). It has a key outside [skip_keys] exactly when the
    node has a [tag] child with non-empty [k] and [v] whose [k] is not one of
    [skip_keys]. The only exception is the [ValueError] of [float]. *)
Theorem node_to_feature_geometry py_float node :
  (forall feat,
     node_to_feature py_float node = Ok feat ->
     has_geometry feat = true
     /\ (exists lat lon,
           py_float (attrib_get_default node "lat" "0.0") = Some lat
           /\ py_float (attrib_get_default node "lon" "0.0") = Some lon
           /\ feat_coordinates feat = Some (lon, lat))
     /\ has_tags feat = existsb meaningful_tag (findall node "tag"))
  /\ (forall e,
        node_to_feature py_float node = Err e ->
        exists s, e = ValueError s /\ py_float s = None).
Proof.
  destruct (node_to_feature_cases py_float node) as [Hok Herr].
  split.
  - intros feat H. exact (Hok feat H).
  - intros e H. exact (Herr e H).
Qed.

Lemma convert_nodes_Forall2 py_float nodes feats :
  convert_nodes_to_geojson py_float nodes = Ok feats ->
  Forall2 (fun n f => node_to_feature py_float n = Ok f) nodes feats.
Proof.
  revert feats. induction nodes as [|n nodes IH]; intros feats;
    cbn [convert_nodes_to_geojson].
  - intros [= <-]. constructor.
  - destruct (node_to_feature py_float n) as [f|e] eqn:En; [|discriminate].
    destruct (convert_nodes_to_geojson py_float nodes) as [fs|e];
      [|discriminate].
    intros [= <-]. constructor; auto.
Qed.

(** X17. On a parsed tile the chain [remove_empty_nodes],
    [convert_nodes_to_geojson], [filter_features] never reports a feature
    with missing geometry; it keeps one feature for each node that has a tag
    worth keeping and counts every other node with [tag] children as having
    no tags. *)
Theorem tile_features_counts py_float root cleaned missing_geometry no_tags :
  tile_features py_float root = Ok (cleaned, missing_geometry, no_tags) ->
  missing_geometry = 0
  /\ len cleaned
     = count_where (fun n => existsb meaningful_tag (findall n "tag"))
                   (remove_empty_nodes root)
  /\ len cleaned + no_tags = len (remove_empty_nodes root)
  /\ Forall (fun f => kept f = true) cleaned.
Proof.
  unfold tile_features. cbv zeta.
  destruct (convert_nodes_to_geojson py_float (remove_empty_nodes root))
    as [feats|e] eqn:Ec; [|discriminate].
  apply convert_nodes_Forall2 in Ec.
  rewrite filter_features_eq. intros [= <- <- <-].
  assert (Hgeo : forall p : GeoFeature -> bool,
            (forall f, has_geometry f = true -> p f = false) ->
            count_where p feats = 0).
  { intros p Hp. unfold count_where, len. clear - Ec Hp.
    induction Ec as [|n f ns fs Hn _ IH]; [reflexivity|].
    cbn [filter].
    destruct (node_to_feature_cases py_float n) as [Hok _].
    destruct (Hok f Hn) as (Hg & _). now rewrite (Hp f Hg). }
  assert (Hm : count_where (fun f => negb (has_geometry f)) feats = 0).
  { apply Hgeo. intros f ->. reflexivity. }
  assert (Hkept : len (filter kept feats)
     = count_where (fun n => existsb meaningful_tag (findall n "tag"))
                   (remove_empty_nodes root)).
  { unfold count_where, len. f_equal. clear - Ec.
    induction Ec as [|n f ns fs Hn _ IH]; [reflexivity|].
    cbn [filter].
    destruct (node_to_feature_cases py_float n) as [Hok _].
    destruct (Hok f Hn) as (Hg & _ & Ht).
    assert (Hk : kept f = existsb meaningful_tag (findall n "tag"))
      by (unfold kept; rewrite Hg, Ht; reflexivity).
    rewrite Hk. destruct (existsb meaningful_tag (findall n "tag"));
      cbn [length]; now rewrite IH. }
  split; [exact Hm|]. split; [exact Hkept|]. split.
  - pose proof (count_where_partition feats) as Hp. rewrite Hm in Hp.
    assert (Hlen : len feats = len (remove_empty_nodes root)).
    { unfold len. f_equal. symmetry. eapply Forall2_length. exact Ec. }
    lia.
  - apply Forall_forall. intros f Hf. now apply filter_In in Hf.
Qed.

(** X13, instance: a kiosk falls under the wildcard of [shop]. *)
Lemma classify_poi_outcomes_witness :
  classify_poi sample_rules (fun s => s) sample_feature
  = Ok (("Shop", "Misc Shops", "ok"), [])%string
  /\ kept sample_feature = true.
Proof.
  split; [reflexivity|].
  destruct (classify_poi_outcomes sample_rules (fun s => s) sample_feature
              "Shop" "Misc Shops" "ok" [] eq_refl)
    as [(Hr & _)|[(Hr & _)|[(_ & Hk & _)|(Hr & _)]]];
    try discriminate Hr.
  exact Hk.
Defined.


(** X16, instance: [sample_node] becomes a feature with geometry and a tag. *)
Lemma node_to_feature_geometry_witness :
  exists feat,
    node_to_feature sample_float sample_node = Ok feat
    /\ has_geometry feat = true /\ has_tags feat = true.
Proof.
  eexists. split; [reflexivity|].
  destruct (node_to_feature_geometry sample_float sample_node) as [Hok _].
  destruct (Hok _ eq_refl) as (Hg & _ & Ht).
  split; [exact Hg|]. rewrite Ht. reflexivity.
Defined.

(** X17, instance: a tile with [sample_node] and a node without tags. *)
Lemma tile_features_counts_witness :
  exists cleaned,
    tile_features sample_float
      (mkElement "osm" [] [sample_node; mkElement "node" [] []])
    = Ok (cleaned, 0, 0)
    /\ len cleaned = 1.
Proof.
  eexists. split; [vm_compute; reflexivity|].
  match goal with
  | |- len ?c = 1 =>
      destruct (tile_features_counts sample_float
                  (mkElement "osm" [] [sample_node; mkElement "node" [] []])
                  c 0 0) as (_ & Hl & _); [vm_compute; reflexivity|]
  end.
  rewrite Hl. vm_compute. reflexivity.
Defined.

(** ** Box edges in binary64 *)

(** The order of binary64 numbers. *)
Lemma SFcompare_antisym X Y c :
  SFcompare X Y = Some c -> SFcompare Y X = Some (CompOpp c).
Proof.
  destruct X as [s1|s1| |s1 m1 e1], Y as [s2|s2| |s2 m2 e2]; cbn;
    try discriminate; intros [= <-];
    try (destruct s1; reflexivity); try (destruct s2; reflexivity);
    try (destruct s1, s2; reflexivity).
  destruct s1, s2; try reflexivity;
    rewrite (Z.compare_antisym e1 e2);
    destruct (e1 ?= e2)%Z; cbn; try reflexivity;
    rewrite (Pos.compare_cont_antisym m1 m2 Eq); cbn;
    try reflexivity.
Qed.

Lemma SFcompare_some X Y :
  SFcompare X X <> None -> SFcompare Y Y <> None -> SFcompare X Y <> None.
Proof. destruct X, Y; cbn; congruence. Qed.

Lemma leb_number_r x y : PrimFloat.leb x y = true -> Float64.is_number y.
Proof.
  unfold Float64.is_number. rewrite !FloatAxioms.leb_spec. unfold SFleb.
  destruct (Prim2SF x) as [s1|s1| |s1 m1 e1], (Prim2SF y) as [s2|s2| |s2 m2 e2];
    cbn; try discriminate; try reflexivity; intros _;
    destruct s2; try reflexivity;
    rewrite Z.compare_refl, Pos.compare_cont_refl; reflexivity.
Qed.

Lemma leb_total x y :
  Float64.is_number x -> Float64.is_number y ->
  PrimFloat.leb x y = false -> PrimFloat.leb y x = true.
Proof.
  unfold Float64.is_number. rewrite !FloatAxioms.leb_spec. unfold SFleb. intros Hx Hy.
  assert (Hs : SFcompare (Prim2SF x) (Prim2SF y) <> None).
  { apply SFcompare_some.
    - destruct (SFcompare (Prim2SF x) (Prim2SF x)); congruence.
    - destruct (SFcompare (Prim2SF y) (Prim2SF y)); congruence. }
  destruct (SFcompare (Prim2SF x) (Prim2SF y)) as [c|] eqn:E; [|congruence].
  rewrite (SFcompare_antisym _ _ _ E).
  destruct c; cbn; congruence.
Qed.

Lemma SFcompare_eq A B :
  SFcompare A B = Some Eq -> forall X, SFcompare X A = SFcompare X B.
Proof.
  destruct A as [s1|s1| |s1 m1 e1], B as [s2|s2| |s2 m2 e2]; cbn;
    try discriminate; try (destruct s1; discriminate);
    try (destruct s2; discriminate).
  - intros _ X. destruct X; reflexivity.
  - destruct s1, s2; try discriminate; intros _ X; destruct X; reflexivity.
  - destruct s1, s2; try discriminate;
      destruct (Z.compare_spec e1 e2) as [->| |]; try discriminate;
      intros [= H];
      [apply (f_equal CompOpp) in H; cbn in H; rewrite CompOpp_involutive in H|];
      apply Pos.compare_eq in H; subst m2; intros X; reflexivity.
Qed.

(** Two numbers neither of which is below the other compare alike with
    every third. *)
Lemma leb_eq_subst a b x :
  Float64.is_number a -> Float64.is_number b ->
  PrimFloat.ltb a b = false -> PrimFloat.ltb b a = false ->
  PrimFloat.leb x a = PrimFloat.leb x b.
Proof.
  unfold Float64.is_number.
  rewrite !FloatAxioms.leb_spec, !FloatAxioms.ltb_spec. unfold SFleb, SFltb.
  intros Ha Hb Hab Hba.
  assert (Hs : SFcompare (Prim2SF a) (Prim2SF b) <> None).
  { apply SFcompare_some.
    - destruct (SFcompare (Prim2SF a) (Prim2SF a)); congruence.
    - destruct (SFcompare (Prim2SF b) (Prim2SF b)); congruence. }
  destruct (SFcompare (Prim2SF a) (Prim2SF b)) as [c|] eqn:E; [|congruence].
  rewrite (SFcompare_antisym _ _ _ E) in Hba.
  destruct c; cbn in Hab, Hba; try discriminate.
  now rewrite (SFcompare_eq _ _ E).
Qed.

(** Consecutive edges that are numbers leave no gap between the first and
    the last. *)
Lemma edges_cover (e : Z -> float) (n : nat) (x : float) :
  (forall k, 0 <= k <= Z.of_nat (S n) -> Float64.is_number (e k)) ->
  PrimFloat.leb (e 0) x = true ->
  PrimFloat.leb x (e (Z.of_nat (S n))) = true ->
  exists i, 0 <= i < Z.of_nat (S n)
    /\ PrimFloat.leb (e i) x = true /\ PrimFloat.leb x (e (i + 1)) = true.
Proof.
  induction n as [|n IH]; intros Hnum Hlo Hhi.
  - exists 0. split; [lia|]. split; [exact Hlo|exact Hhi].
  - destruct (PrimFloat.leb x (e (Z.of_nat (S n)))) eqn:Hx.
    + destruct IH as (i & Hi & H1 & H2);
        [intros k Hk; apply Hnum; lia|exact Hlo|reflexivity|].
      exists i. split; [lia|]. auto.
    + exists (Z.of_nat (S n)). split; [lia|]. split.
      * apply leb_total; [|apply Hnum; lia|exact Hx].
        exact (leb_number_r _ _ Hlo).
      * replace (Z.of_nat (S n) + 1) with (Z.of_nat (S (S n))) by lia.
        exact Hhi.
Qed.

(** X9. In binary64 arithmetic [split_bbox] with a positive divider returns
    [divider * divider] chunks in row-major order, each spanning two
    consecutive edges of either axis, so that neighbouring chunks share their
    edge exactly. When no edge is a NaN, the chunks cover without gaps the
    rectangle between the first and the last edges. The last edges can fall
    short of the box: for the unit box and the divider 49 the corner
    [(1.0, 1.0)] of the box lies in no chunk. *)
Theorem split_bbox_rounded_grid :
  (forall bbox divider,
     0 < divider < 2 ^ 63 ->
     let lat_edge := Float64.edge (Float64.min_lat bbox) (Float64.max_lat bbox)
                       divider in
     let lon_edge := Float64.edge (Float64.min_lon bbox) (Float64.max_lon bbox)
                       divider in
     exists cells,
       Float64.split_bbox bbox divider = Ok cells
       /\ len cells = divider * divider
       /\ (forall i j, 0 <= i < divider -> 0 <= j < divider ->
             nth_error cells (Z.to_nat (i * divider + j))
             = Some (Float64.mkBBox (lat_edge i) (lon_edge j)
                                    (lat_edge (i + 1)) (lon_edge (j + 1))))
       /\ ((forall k, 0 <= k <= divider ->
              Float64.is_number (lat_edge k) /\ Float64.is_number (lon_edge k)) ->
           forall lon lat,
             PrimFloat.leb (lat_edge 0) lat = true ->
             PrimFloat.leb lat (lat_edge divider) = true ->
             PrimFloat.leb (lon_edge 0) lon = true ->
             PrimFloat.leb lon (lon_edge divider) = true ->
             exists c, In c cells /\ Float64.contains c lon lat = true))
  /\ (exists cells,
        Float64.split_bbox (Float64.mkBBox 0 0 1 1) 49 = Ok cells
        /\ Float64.contains (Float64.mkBBox 0 0 1 1) 1 1 = true
        /\ forall c, In c cells -> Float64.contains c 1 1 = false).
Proof.
  split.
  - intros bbox divider Hd lat_edge lon_edge.
    assert (Hne : divider <> 0) by lia.
    unfold Float64.split_bbox.
    destruct (Z.eqb_spec divider 0) as [E|_]; [contradiction|]. cbv zeta.
    eexists. split; [reflexivity|]. split; [|split].
    + unfold len. rewrite rows_length, !py_range_length. lia.
    + intros i j Hi Hj.
      replace (Z.to_nat (i * divider + j))
        with (Z.to_nat i * length (py_range divider) + Z.to_nat j)%nat
        by (rewrite py_range_length; nia).
      apply (rows_nth (Float64.grid_cell bbox _ _)); now apply py_range_nth.
    + intros Hnum lon lat Hy1 Hy2 Hx1 Hx2.
      assert (Hn : divider = Z.of_nat (S (Z.to_nat (divider - 1)))) by lia.
      destruct (edges_cover lat_edge (Z.to_nat (divider - 1)) lat)
        as (i & Hi & Hi1 & Hi2);
        [intros k Hk; apply Hnum; lia|exact Hy1|rewrite <- Hn; exact Hy2|].
      destruct (edges_cover lon_edge (Z.to_nat (divider - 1)) lon)
        as (j & Hj & Hj1 & Hj2);
        [intros k Hk; apply Hnum; lia|exact Hx1|rewrite <- Hn; exact Hx2|].
      exists (Float64.mkBBox (lat_edge i) (lon_edge j)
                             (lat_edge (i + 1)) (lon_edge (j + 1))).
      split.
      * apply in_flat_map. exists i. split; [apply in_py_range; lia|].
        apply in_map_iff. exists j. split; [reflexivity|apply in_py_range; lia].
      * unfold Float64.contains. cbn [Float64.min_lat Float64.max_lat
                                      Float64.min_lon Float64.max_lon].
        now rewrite Hi1, Hi2, Hj1, Hj2.
  - eexists. split; [vm_compute; reflexivity|]. split; [vm_compute; reflexivity|].
    apply Forall_forall. vm_compute.
    repeat (apply Forall_cons; [reflexivity|]). apply Forall_nil.
Qed.

(** X9, instance: the unit box split in four by four; the point
    [(0.3, 0.7)] lies in a chunk. *)
Lemma split_bbox_rounded_grid_witness :
  exists cells c,
    Float64.split_bbox (Float64.mkBBox 0 0 1 1) 4 = Ok cells
    /\ In c cells
    /\ Float64.contains c 0x1.3333333333333p-2 0x1.6666666666666p-1 = true.
Proof.
  destruct split_bbox_rounded_grid as [Hgrid _].
  destruct (Hgrid (Float64.mkBBox 0 0 1 1) 4 ltac:(lia))
    as (cells & Hsplit & _ & _ & Hcover).
  assert (Hnum : forall k, 0 <= k <= 4 ->
    Float64.is_number
      (Float64.edge (Float64.min_lat (Float64.mkBBox 0 0 1 1))
                    (Float64.max_lat (Float64.mkBBox 0 0 1 1)) 4 k)
    /\ Float64.is_number
         (Float64.edge (Float64.min_lon (Float64.mkBBox 0 0 1 1))
                       (Float64.max_lon (Float64.mkBBox 0 0 1 1)) 4 k)).
  { intros k Hk.
    assert (Ck : k = 0 \/ k = 1 \/ k = 2 \/ k = 3 \/ k = 4) by lia.
    destruct Ck as [->|[->|[->|[->| ->]]]]; split; vm_compute; reflexivity. }
  destruct (Hcover Hnum 0x1.3333333333333p-2%float 0x1.6666666666666p-1%float)
    as (c & Hc & Hin); try (vm_compute; reflexivity).
  exists cells, c. auto.
Defined.

(** ** Tiles in binary64 *)

Lemma lon_loop_fuel fuel :
  forall fuel' bbox lon_step current_lat next_lat current_lon bboxes r,
    (fuel <= fuel')%nat ->
    Float64.lon_loop fuel bbox lon_step current_lat next_lat current_lon bboxes
    = Some r ->
    Float64.lon_loop fuel' bbox lon_step current_lat next_lat current_lon bboxes
    = Some r.
Proof.
  induction fuel as [|fuel IH];
    intros fuel' bbox lon_step current_lat next_lat current_lon bboxes r Hle;
    destruct fuel' as [|fuel']; cbn [Float64.lon_loop];
    destruct (PrimFloat.ltb current_lon (Float64.max_lon bbox));
    try discriminate; try (intros H; exact H); try lia.
  cbv zeta. apply IH. lia.
Qed.

Lemma lat_loop_fuel fuel :
  forall fuel' bbox lat_step lon_step current_lat bboxes r,
    (fuel <= fuel')%nat ->
    Float64.lat_loop fuel bbox lat_step lon_step current_lat bboxes = Some r ->
    Float64.lat_loop fuel' bbox lat_step lon_step current_lat bboxes = Some r.
Proof.
  induction fuel as [|fuel IH];
    intros fuel' bbox lat_step lon_step current_lat bboxes r Hle;
    destruct fuel' as [|fuel']; cbn [Float64.lat_loop];
    destruct (PrimFloat.ltb current_lat (Float64.max_lat bbox));
    try discriminate; try (intros H; exact H); try lia.
  cbv zeta.
  destruct (Float64.lon_loop (S fuel) bbox lon_step current_lat _ _ bboxes)
    as [row|] eqn:Erow; [|discriminate].
  rewrite (lon_loop_fuel (S fuel) (S fuel') _ _ _ _ _ _ _ ltac:(lia) Erow).
  apply IH. lia.
Qed.

(** A longitude step that rounding absorbs keeps the inner loop running. *)
Lemma lon_loop_stuck bbox lon_step current_lat next_lat current_lon :
  PrimFloat.ltb current_lon (Float64.max_lon bbox) = true ->
  Float64.py_min (current_lon + lon_step)%float (Float64.max_lon bbox)
  = current_lon ->
  forall fuel bboxes,
    Float64.lon_loop fuel bbox lon_step current_lat next_lat current_lon bboxes
    = None.
Proof.
  intros Hlt Hmin. induction fuel as [|fuel IH]; intros bboxes;
    cbn [Float64.lon_loop]; rewrite Hlt; [reflexivity|].
  cbv zeta. rewrite Hmin. apply IH.
Qed.

Lemma py_min_bound a b :
  PrimFloat.ltb b (Float64.py_min a b) = false
  \/ Float64.py_min a b = b.
Proof.
  unfold Float64.py_min. destruct (PrimFloat.ltb b a) eqn:E; auto.
Qed.

Lemma lon_loop_extends fuel :
  forall bbox lon_step current_lat next_lat current_lon bboxes r,
    Float64.lon_loop fuel bbox lon_step current_lat next_lat current_lon bboxes
    = Some r ->
    exists row, r = bboxes ++ row
      /\ Forall (fun t => Float64.min_lat t = current_lat
                          /\ Float64.max_lat t = next_lat) row.
Proof.
  induction fuel as [|fuel IH];
    intros bbox lon_step current_lat next_lat current_lon bboxes r;
    cbn [Float64.lon_loop];
    destruct (PrimFloat.ltb current_lon (Float64.max_lon bbox));
    try discriminate;
    try (intros [= <-]; exists []; split; [now rewrite app_nil_r|constructor]).
  cbv zeta. intros H. apply IH in H. destruct H as (row & -> & Hrow).
  eexists. split; [rewrite <- app_assoc; reflexivity|].
  constructor; [split; reflexivity|exact Hrow].
Qed.

(** A row that is returned covers every longitude from where it starts to
    the edge of the box. *)
Lemma lon_loop_covers fuel :
  forall bbox lon_step current_lat next_lat current_lon bboxes r lon,
    Float64.lon_loop fuel bbox lon_step current_lat next_lat current_lon bboxes
    = Some r ->
    (forall t, In t r -> Float64.is_number (Float64.max_lon t)) ->
    PrimFloat.ltb current_lon (Float64.max_lon bbox) = true ->
    PrimFloat.leb current_lon lon = true ->
    PrimFloat.leb lon (Float64.max_lon bbox) = true ->
    exists t, In t r
      /\ Float64.min_lat t = current_lat /\ Float64.max_lat t = next_lat
      /\ PrimFloat.leb (Float64.min_lon t) lon = true
      /\ PrimFloat.leb lon (Float64.max_lon t) = true.
Proof.
  induction fuel as [|fuel IH];
    intros bbox lon_step current_lat next_lat current_lon bboxes r lon;
    cbn [Float64.lon_loop]; intros H Hnum Hlt; rewrite Hlt in H;
    [discriminate|].
  cbv zeta in H. intros Hlo Hhi.
  set (next_lon := Float64.py_min (current_lon + lon_step)%float
                                  (Float64.max_lon bbox)) in *.
  set (tile := Float64.mkBBox current_lat current_lon next_lat next_lon) in *.
  assert (Htile : In tile r).
  { destruct (lon_loop_extends _ _ _ _ _ _ _ _ H) as (row & -> & _).
    apply in_or_app. left. apply in_or_app. right. now left. }
  destruct (PrimFloat.leb lon next_lon) eqn:Hx.
  - exists tile. repeat split; try assumption.
  - assert (Hnext : Float64.is_number next_lon) by exact (Hnum tile Htile).
    assert (Hlon : Float64.is_number lon) by exact (leb_number_r _ _ Hlo).
    assert (Hmax : Float64.is_number (Float64.max_lon bbox))
      by exact (leb_number_r _ _ Hhi).
    assert (Hge : PrimFloat.leb next_lon lon = true)
      by (apply leb_total; assumption).
    destruct (PrimFloat.ltb next_lon (Float64.max_lon bbox)) eqn:Hgo.
    + exact (IH _ _ _ _ _ _ _ lon H Hnum Hgo Hge Hhi).
    + exfalso.
      destruct (py_min_bound (current_lon + lon_step)%float
                  (Float64.max_lon bbox)) as [Hb|Hb]; fold next_lon in Hb.
      * rewrite (leb_eq_subst next_lon (Float64.max_lon bbox) lon
                   Hnext Hmax Hgo Hb) in Hx. congruence.
      * rewrite Hb in Hx. congruence.
Qed.

Lemma lat_loop_extends fuel :
  forall bbox lat_step lon_step current_lat bboxes r,
    Float64.lat_loop fuel bbox lat_step lon_step current_lat bboxes = Some r ->
    exists rows, r = bboxes ++ rows.
Proof.
  induction fuel as [|fuel IH];
    intros bbox lat_step lon_step current_lat bboxes r;
    cbn [Float64.lat_loop];
    destruct (PrimFloat.ltb current_lat (Float64.max_lat bbox));
    try discriminate;
    try (intros [= <-]; exists []; now rewrite app_nil_r).
  cbv zeta.
  destruct (Float64.lon_loop (S fuel) bbox lon_step current_lat _ _ bboxes)
    as [row|] eqn:Erow; [|discriminate].
  intros H. apply IH in H. destruct H as (rows & ->).
  apply lon_loop_extends in Erow. destruct Erow as (row' & -> & _).
  eexists. rewrite <- app_assoc. reflexivity.
Qed.

(** The tiles that are returned cover every point from the latitude where
    the loop starts to the upper edges of the box. *)
Lemma lat_loop_covers fuel :
  forall bbox lat_step lon_step current_lat bboxes r lon lat,
    Float64.lat_loop fuel bbox lat_step lon_step current_lat bboxes = Some r ->
    (forall t, In t r -> Float64.is_number (Float64.max_lat t)
                         /\ Float64.is_number (Float64.max_lon t)) ->
    PrimFloat.ltb current_lat (Float64.max_lat bbox) = true ->
    PrimFloat.ltb (Float64.min_lon bbox) (Float64.max_lon bbox) = true ->
    PrimFloat.leb current_lat lat = true ->
    PrimFloat.leb lat (Float64.max_lat bbox) = true ->
    PrimFloat.leb (Float64.min_lon bbox) lon = true ->
    PrimFloat.leb lon (Float64.max_lon bbox) = true ->
    exists t, In t r /\ Float64.contains t lon lat = true.
Proof.
  induction fuel as [|fuel IH];
    intros bbox lat_step lon_step current_lat bboxes r lon lat;
    cbn [Float64.lat_loop]; intros H Hnum Hlt; rewrite Hlt in H;
    [discriminate|].
  cbv zeta in H. intros Hextent Hy1 Hy2 Hx1 Hx2.
  set (next_lat := Float64.py_min (current_lat + lat_step)%float
                                  (Float64.max_lat bbox)) in *.
  destruct (Float64.lon_loop (S fuel) bbox lon_step current_lat next_lat
              (Float64.min_lon bbox) bboxes) as [row|] eqn:Erow;
    [|discriminate].
  destruct (lat_loop_extends _ _ _ _ _ _ _ H) as (rows & Hr).
  assert (Hrow : forall t, In t row -> In t r)
    by (intros t Ht; rewrite Hr; apply in_or_app; now left).
  destruct (lon_loop_covers _ _ _ _ _ _ _ _ lon Erow
              (fun t Ht => proj2 (Hnum t (Hrow t Ht))) Hextent Hx1 Hx2)
    as (tile & Htile & Hmin & Hmaxt & Ht1 & Ht2).
  destruct (PrimFloat.leb lat next_lat) eqn:Hy.
  - exists tile. split; [now apply Hrow|].
    unfold Float64.contains. now rewrite Hmin, Hmaxt, Hy1, Hy, Ht1, Ht2.
  - assert (Hnext : Float64.is_number next_lat).
    { rewrite <- Hmaxt. apply Hnum. now apply Hrow. }
    assert (Hlat : Float64.is_number lat) by exact (leb_number_r _ _ Hy1).
    assert (Hmax : Float64.is_number (Float64.max_lat bbox))
      by exact (leb_number_r _ _ Hy2).
    assert (Hge : PrimFloat.leb next_lat lat = true)
      by (apply leb_total; assumption).
    destruct (PrimFloat.ltb next_lat (Float64.max_lat bbox)) eqn:Hgo.
    + exact (IH _ _ _ _ _ _ lon lat H Hnum Hgo Hextent Hge Hy2 Hx1 Hx2).
    + exfalso.
      destruct (py_min_bound (current_lat + lat_step)%float
                  (Float64.max_lat bbox)) as [Hb|Hb]; fold next_lat in Hb.
      * rewrite (leb_eq_subst next_lat (Float64.max_lat bbox) lat
                   Hnext Hmax Hgo Hb) in Hy. congruence.
      * rewrite Hb in Hy. congruence.
Qed.

(** X18. In binary64 arithmetic [generate_tile_bboxes] raises [ValueError]
    when a step is not positive (the latitude step is checked first), and
    once it returns its result is the same for every larger budget of loop
    rounds. When it returns tiles none of whose upper edges is a NaN, the
    tiles cover every point of a box with positive extent. It need not
    return: when rounding absorbs the longitude step added to [min_lon], no
    budget suffices, as for [AUSTRIA_BBOX] with both steps [5e-16]. Repeated
    addition drifts: for [BBox(0, 0, 1, 0.1)] with both steps [0.1] it
    returns eleven tiles, and the third is higher than the step. *)
Theorem generate_tile_bboxes_rounded :
  (forall fuel bbox lat_step lon_step,
     (PrimFloat.leb lat_step 0 = true ->
        Float64.generate_tile_bboxes fuel bbox lat_step lon_step
        = Some (Err (ValueError "lat_step must be > 0.")))
     /\ (PrimFloat.leb lat_step 0 = false -> PrimFloat.leb lon_step 0 = true ->
         Float64.generate_tile_bboxes fuel bbox lat_step lon_step
         = Some (Err (ValueError "lon_step must be > 0.")))
     /\ (forall fuel' r,
           (fuel <= fuel')%nat ->
           Float64.generate_tile_bboxes fuel bbox lat_step lon_step = Some r ->
           Float64.generate_tile_bboxes fuel' bbox lat_step lon_step = Some r)
     /\ (forall tiles,
           Float64.generate_tile_bboxes fuel bbox lat_step lon_step
           = Some (Ok tiles) ->
           PrimFloat.ltb (Float64.min_lat bbox) (Float64.max_lat bbox) = true ->
           PrimFloat.ltb (Float64.min_lon bbox) (Float64.max_lon bbox) = true ->
           (forall t, In t tiles ->
              Float64.is_number (Float64.max_lat t)
              /\ Float64.is_number (Float64.max_lon t)) ->
           forall lon lat,
             Float64.contains bbox lon lat = true ->
             exists t, In t tiles /\ Float64.contains t lon lat = true)
     /\ (PrimFloat.leb lat_step 0 = false -> PrimFloat.leb lon_step 0 = false ->
         PrimFloat.ltb (Float64.min_lat bbox) (Float64.max_lat bbox) = true ->
         PrimFloat.ltb (Float64.min_lon bbox) (Float64.max_lon bbox) = true ->
         Float64.py_min (Float64.min_lon bbox + lon_step)%float
                        (Float64.max_lon bbox)
         = Float64.min_lon bbox ->
         Float64.generate_tile_bboxes fuel bbox lat_step lon_step = None))
  /\ (forall fuel,
        PrimFloat.ltb 0 0x1.203af9ee75616p-51 = true
        /\ Float64.generate_tile_bboxes fuel Float64.AUSTRIA_BBOX
             0x1.203af9ee75616p-51 0x1.203af9ee75616p-51 = None)
  /\ (exists tiles t,
        Float64.generate_tile_bboxes 12
          (Float64.mkBBox 0 0 1 0x1.999999999999ap-4)
          0x1.999999999999ap-4 0x1.999999999999ap-4 = Some (Ok tiles)
        /\ length tiles = 11%nat
        /\ nth_error tiles 2 = Some t
        /\ PrimFloat.ltb 0x1.999999999999ap-4
                         (Float64.max_lat t - Float64.min_lat t)%float = true).
Proof.
  assert (Hstuck : forall fuel bbox lat_step lon_step,
    PrimFloat.leb lat_step 0 = false -> PrimFloat.leb lon_step 0 = false ->
    PrimFloat.ltb (Float64.min_lat bbox) (Float64.max_lat bbox) = true ->
    PrimFloat.ltb (Float64.min_lon bbox) (Float64.max_lon bbox) = true ->
    Float64.py_min (Float64.min_lon bbox + lon_step)%float
                   (Float64.max_lon bbox)
    = Float64.min_lon bbox ->
    Float64.generate_tile_bboxes fuel bbox lat_step lon_step = None).
  { intros fuel bbox lat_step lon_step Hlat Hlon Hy Hx Hmin.
    unfold Float64.generate_tile_bboxes. rewrite Hlat, Hlon.
    destruct fuel as [|fuel]; cbn [Float64.lat_loop]; rewrite Hy;
      [reflexivity|].
    cbv zeta. now rewrite (lon_loop_stuck bbox lon_step _ _ _ Hx Hmin). }
  split; [|split].
  - intros fuel bbox lat_step lon_step. split; [|split; [|split; [|split]]].
    + intros H. unfold Float64.generate_tile_bboxes. now rewrite H.
    + intros H1 H2. unfold Float64.generate_tile_bboxes. now rewrite H1, H2.
    + intros fuel' r Hle. unfold Float64.generate_tile_bboxes.
      destruct (PrimFloat.leb lat_step 0); [auto|].
      destruct (PrimFloat.leb lon_step 0); [auto|].
      destruct (Float64.lat_loop fuel bbox lat_step lon_step _ [])
        as [tiles|] eqn:E; [|discriminate].
      now rewrite (lat_loop_fuel fuel fuel' _ _ _ _ _ _ Hle E).
    + intros tiles Hgen Hy Hx Hnum lon lat Hin.
      unfold Float64.generate_tile_bboxes in Hgen.
      destruct (PrimFloat.leb lat_step 0); [discriminate|].
      destruct (PrimFloat.leb lon_step 0); [discriminate|].
      destruct (Float64.lat_loop fuel bbox lat_step lon_step _ [])
        as [tiles'|] eqn:E; [|discriminate].
      injection Hgen as ->.
      unfold Float64.contains in Hin.
      apply andb_true_iff in Hin. destruct Hin as [Hlat Hlon].
      apply andb_true_iff in Hlat, Hlon.
      destruct Hlat as [Hy1 Hy2], Hlon as [Hx1 Hx2].
      exact (lat_loop_covers _ _ _ _ _ _ _ lon lat E Hnum Hy Hx
               Hy1 Hy2 Hx1 Hx2).
    + apply Hstuck.
  - intros fuel. split; [vm_compute; reflexivity|].
    apply Hstuck; vm_compute; reflexivity.
  - eexists _, _. split; [vm_compute; reflexivity|].
    split; [reflexivity|]. split; [reflexivity|]. vm_compute. reflexivity.
Qed.

(** X18, instance: the eleven tiles of [BBox(0, 0, 1, 0.1)] with both steps
    [0.1] cover the point [(0.05, 0.95)]. *)
Lemma generate_tile_bboxes_rounded_witness :
  exists tiles t,
    Float64.generate_tile_bboxes 12
      (Float64.mkBBox 0 0 1 0x1.999999999999ap-4)
      0x1.999999999999ap-4 0x1.999999999999ap-4 = Some (Ok tiles)
    /\ In t tiles
    /\ Float64.contains t 0x1.999999999999ap-5 0x1.e666666666666p-1 = true.
Proof.
  pose (tiles := ltac:(
    let v := eval vm_compute in
      (Float64.generate_tile_bboxes 12
         (Float64.mkBBox 0 0 1 0x1.999999999999ap-4)
         0x1.999999999999ap-4 0x1.999999999999ap-4) in
    match v with Some (Ok ?l) => exact l end)).
  assert (E : Float64.generate_tile_bboxes 12
                (Float64.mkBBox 0 0 1 0x1.999999999999ap-4)
                0x1.999999999999ap-4 0x1.999999999999ap-4 = Some (Ok tiles))
    by (vm_compute; reflexivity).
  destruct generate_tile_bboxes_rounded as (Hgen & _ & _).
  destruct (Hgen 12%nat (Float64.mkBBox 0 0 1 0x1.999999999999ap-4)
              0x1.999999999999ap-4%float 0x1.999999999999ap-4%float)
    as (_ & _ & _ & Hcover & _).
  assert (Hnum : forall t, In t tiles ->
            Float64.is_number (Float64.max_lat t)
            /\ Float64.is_number (Float64.max_lon t)).
  { intros t Ht. unfold Float64.is_number, tiles in *.
    repeat (destruct Ht as [<-|Ht]; [split; vm_compute; reflexivity|]).
    destruct Ht. }
  destruct (Hcover tiles E ltac:(vm_compute; reflexivity)
              ltac:(vm_compute; reflexivity) Hnum
              0x1.999999999999ap-5%float 0x1.e666666666666p-1%float
              ltac:(vm_compute; reflexivity)) as (t & Ht & Hin).
  exists tiles, t. split; [exact E|]. split; [exact Ht|exact Hin].
Defined.

(** ** Fetching with retries *)

Lemma reply_cases r :
  (exists text, succeeds_with r text) \/ fails r.
Proof.
  destruct r as [status text|]; [|right; exact I].
  destruct (Z.eq_dec status 429) as [->|Hne]; [right; now left|].
  destruct (raises_for_status status) eqn:E.
  - right. now right.
  - left. exists text, status. auto.
Qed.

Lemma attempt_succeeds server max_attempts attempt rest slept sent text :
  succeeds_with (server sent) text ->
  attempt_loop server max_attempts (attempt :: rest) slept sent
  = (Ok text, slept ++ [1], S sent).
Proof.
  intros (status & E & Hne & Hr). cbn [attempt_loop]. rewrite E.
  destruct (Z.eqb_spec status 429); [contradiction|]. now rewrite Hr.
Qed.

Lemma attempt_fails server max_attempts attempt rest slept sent :
  fails (server sent) ->
  exists backoff,
    (backoff = 5 * (attempt + 1) \/ backoff = 3 * (attempt + 1))
    /\ attempt_loop server max_attempts (attempt :: rest) slept sent
       = attempt_loop server max_attempts rest (slept ++ [backoff]) (S sent).
Proof.
  intros H. cbn [attempt_loop]. destruct (server sent) as [status text|].
  - destruct (Z.eqb_spec status 429) as [->|Hne]; [eauto|].
    destruct H as [H|H]; [contradiction|]. rewrite H. eauto.
  - eauto.
Qed.

(** X19. [fetch_osm_data] sends at least one and at most three requests and
    sleeps at most 30 seconds in all. It returns the text of the first reply
    that is neither a 429 nor an error status, provided that reply is among
    the first three; it sends no request after it. When the first three
    replies all fail it raises [RequestException] after three requests. *)
Theorem fetch_osm_data_retries (server : nat -> Reply) :
  let '(outcome, slept, sent) := fetch_osm_data server in
  (1 <= sent <= 3)%nat
  /\ Zsum slept <= 30
  /\ length slept = sent
  /\ (forall text,
        outcome = Ok text <->
        exists k, (k < 3)%nat /\ succeeds_with (server k) text
                  /\ (forall j, (j < k)%nat -> fails (server j))
                  /\ sent = S k)
  /\ (forall e,
        outcome = Err e <->
        e = RequestException 3
        /\ (forall j, (j < 3)%nat -> fails (server j)) /\ sent = 3%nat).
Proof.
  assert (Hexcl : forall r text, succeeds_with r text -> fails r -> False).
  { intros r text (status & -> & Hne & Hr) [H|H]; congruence. }
  assert (Hdet : forall r t1 t2,
            succeeds_with r t1 -> succeeds_with r t2 -> t1 = t2).
  { intros r t1 t2 (s1 & -> & _) (s2 & [= _ ->] & _). reflexivity. }
  unfold fetch_osm_data. cbv zeta.
  change (py_range 3) with [0; 1; 2].
  destruct (reply_cases (server 0%nat)) as [(t0 & H0)|F0].
  { rewrite (attempt_succeeds _ _ _ _ _ _ _ H0). cbn [app].
    split; [lia|]. split; [cbn; lia|]. split; [reflexivity|]. split.
    - intros text. split.
      + intros [= <-]. exists 0%nat. repeat split; [lia|exact H0|lia].
      + intros (k & Hk & Hs & Hf & Hsent). injection Hsent as <-.
        f_equal. eapply Hdet; eassumption.
    - intros e. split; [discriminate|].
      intros (_ & Hf & _). exfalso. eapply Hexcl; [exact H0|]. apply Hf. lia. }
  destruct (attempt_fails server 3 0 [1; 2] [] 0%nat F0) as (b0 & Hb0 & ->).
  cbn [app].
  destruct (reply_cases (server 1%nat)) as [(t1 & H1)|F1].
  { rewrite (attempt_succeeds _ _ _ _ _ _ _ H1). cbn [app].
    split; [lia|]. split; [cbn; lia|]. split; [reflexivity|]. split.
    - intros text. split.
      + intros [= <-]. exists 1%nat. repeat split; [lia|exact H1|].
        intros j Hj. replace j with 0%nat by lia. exact F0.
      + intros (k & Hk & Hs & Hf & Hsent). injection Hsent as <-.
        f_equal. eapply Hdet; eassumption.
    - intros e. split; [discriminate|].
      intros (_ & Hf & _). exfalso. eapply Hexcl; [exact H1|]. apply Hf. lia. }
  destruct (attempt_fails server 3 1 [2] [b0] 1%nat F1) as (b1 & Hb1 & ->).
  cbn [app].
  destruct (reply_cases (server 2%nat)) as [(t2 & H2)|F2].
  { rewrite (attempt_succeeds _ _ _ _ _ _ _ H2). cbn [app].
    split; [lia|]. split; [cbn; lia|]. split; [reflexivity|]. split.
    - intros text. split.
      + intros [= <-]. exists 2%nat. repeat split; [lia|exact H2|].
        intros j Hj.
        assert (Cj : (j = 0 \/ j = 1)%nat) by lia.
        destruct Cj as [-> | ->]; assumption.
      + intros (k & Hk & Hs & Hf & Hsent). injection Hsent as <-.
        f_equal. eapply Hdet; eassumption.
    - intros e. split; [discriminate|].
      intros (_ & Hf & _). exfalso. eapply Hexcl; [exact H2|]. apply Hf. lia. }
  destruct (attempt_fails server 3 2 [] [b0; b1] 2%nat F2) as (b2 & Hb2 & ->).
  cbn [app attempt_loop].
  split; [lia|]. split; [cbn; lia|]. split; [reflexivity|]. split.
  - intros text. split; [discriminate|].
    intros (k & Hk & Hs & Hf & Hsent). exfalso.
    assert (Ck : (k = 0 \/ k = 1 \/ k = 2)%nat) by lia.
    destruct Ck as [-> |[-> | ->]]; eapply Hexcl; eassumption.
  - intros e. split.
    + intros [= <-]. repeat split. intros j Hj.
      assert (Cj : (j = 0 \/ j = 1 \/ j = 2)%nat) by lia.
      destruct Cj as [-> |[-> | ->]]; assumption.
    + intros (-> & _). reflexivity.
Qed.

(** ** Classifying and grouping *)

Lemma class_eqb_eq k k' : class_eqb k k' = true <-> k = k'.
Proof.
  destruct k as [a b], k' as [a' b']. unfold class_eqb. cbn [fst snd].
  rewrite andb_true_iff, !String.eqb_eq. split.
  - intros [-> ->]. reflexivity.
  - intros [= -> ->]. auto.
Qed.

Lemma grouped_append m key feat :
  grouped (cat_map_append m key feat) = grouped m + 1.
Proof.
  unfold grouped. induction m as [|[k fs] rest IH];
    cbn [cat_map_append map Zsum fold_right snd].
  - unfold len. cbn. lia.
  - destruct (class_eqb k key); cbn [map Zsum fold_right snd].
    + rewrite len_app. unfold len at 2. cbn [length]. lia.
    + change (fold_right Z.add 0) with Zsum in *. rewrite IH. lia.
Qed.

Lemma in_group_append m key feat key' f :
  in_group (cat_map_append m key feat) key' f <->
  in_group m key' f \/ (key' = key /\ f = feat).
Proof.
  unfold in_group. induction m as [|[k fs] rest IH]; cbn [cat_map_append].
  - split.
    + intros (feats & [[= <- <-]|[]] & [<-|[]]). auto.
    + intros [(feats & [] & _)|[-> ->]]. exists [feat]. cbn. auto.
  - destruct (class_eqb k key) eqn:E.
    + apply class_eqb_eq in E. subst k. split.
      * intros (feats & [[= <- <-]|Hin] & Hf).
        -- apply in_app_or in Hf. destruct Hf as [Hf|[<-|[]]]; [|auto].
           left. exists fs. cbn. auto.
        -- left. exists feats. cbn. auto.
      * intros [(feats & [[= <- <-]|Hin] & Hf)|[-> ->]].
        -- exists (fs ++ [feat]). split; [now left|]. apply in_or_app. auto.
        -- exists feats. cbn. auto.
        -- exists (fs ++ [feat]). split; [now left|].
           apply in_or_app. right. now left.
    + split.
      * intros (feats & [[= <- <-]|Hin] & Hf).
        -- left. exists fs. cbn. auto.
        -- destruct (proj1 IH (ex_intro _ feats (conj Hin Hf)))
             as [(fs' & Hin' & Hf')|H]; [|auto].
           left. exists fs'. cbn. auto.
      * intros [(feats & [[= <- <-]|Hin] & Hf)|H].
        -- exists fs. cbn. auto.
        -- destruct (proj2 IH (or_introl (ex_intro _ feats (conj Hin Hf))))
             as (fs' & Hin' & Hf').
           exists fs'. cbn. auto.
        -- destruct (proj2 IH (or_intror H)) as (fs' & Hin' & Hf').
           exists fs'. cbn. auto.
Qed.

Lemma cat_map_append_keys m key feat :
  NoDup (map fst m) -> Forall (fun e => snd e <> []) m ->
  NoDup (map fst (cat_map_append m key feat))
  /\ Forall (fun e => snd e <> []) (cat_map_append m key feat)
  /\ (forall k, In k (map fst (cat_map_append m key feat)) <->
                In k (map fst m) \/ k = key).
Proof.
  induction m as [|[k fs] rest IH]; intros Hnd Hne; cbn [cat_map_append].
  - split; [repeat constructor; auto|]. split; [repeat constructor; discriminate|].
    intros k. cbn. split; [intros [<-|[]]; auto|intros [[]| ->]; auto].
  - apply NoDup_cons_iff in Hnd. destruct Hnd as [Hk Hnd].
    apply Forall_cons_iff in Hne. destruct Hne as [Hfs Hne].
    cbn [map fst] in *.
    destruct (class_eqb k key) eqn:E.
    + apply class_eqb_eq in E. subst k. cbn [map fst]. split; [|split].
      * constructor; assumption.
      * constructor; [|exact Hne]. cbn. now destruct fs.
      * intros k'. cbn. split; [auto|intros [H| ->]; [exact H|now left]].
    + destruct (IH Hnd Hne) as (IH1 & IH2 & IH3). cbn [map fst]. split; [|split].
      * constructor; [|exact IH1]. rewrite IH3. intros [H| ->]; [auto|].
        assert (class_eqb key key = true) by now apply class_eqb_eq.
        congruence.
      * constructor; assumption.
      * intros k'. cbn. rewrite IH3. tauto.
Qed.

(** How one round changes the state. *)
Lemma classify_step_effect rules lower only_subcats test_subcats st feat st' :
  classify_step rules lower only_subcats test_subcats st feat = Ok st' ->
  total_feats st' = total_feats st + 1
  /\ missing_geometry (discard_stats st')
     = missing_geometry (discard_stats st)
       + (if has_geometry feat then 0 else 1)
  /\ no_tags (discard_stats st')
     = no_tags (discard_stats st)
       + (if has_geometry feat && negb (has_tags feat) then 1 else 0)
  /\ unclassified (discard_stats st') >= unclassified (discard_stats st)
  /\ (only_subcats = false ->
      grouped (cat_map st') + total_discarded (discard_stats st')
      = grouped (cat_map st) + total_discarded (discard_stats st) + 1)
  /\ (NoDup (map fst (cat_map st)) ->
      Forall (fun e => snd e <> []) (cat_map st) ->
      NoDup (map fst (cat_map st'))
      /\ Forall (fun e => snd e <> []) (cat_map st'))
  /\ (forall key f,
        in_group (cat_map st') key f ->
        in_group (cat_map st) key f
        \/ (f = feat
            /\ classify_poi rules lower feat
               = Ok ((fst key, snd key, "ok"%string), [])
            /\ fst key <> "Discard"%string
            /\ (only_subcats = true -> In (snd key) test_subcats))).
Proof.
  unfold classify_step.
  destruct (classify_poi rules lower feat) as [[[[cat sub] reason] records]|e]
    eqn:Ec; [|discriminate].
  destruct (classify_poi_cases rules lower feat) as [Hout _].
  specialize (Hout _ _ _ _ Ec). unfold kept in Hout.
  destruct (String.eqb_spec cat "Discard") as [->|Hcat].
  - intros [= <-]. cbn [total_feats discard_stats cat_map].
    split; [reflexivity|].
    assert (Hr : (reason = "missing_geometry"%string
                  /\ has_geometry feat = false)
              \/ (reason = "no_tags"%string /\ has_geometry feat = true
                  /\ has_tags feat = false)
              \/ (reason <> "missing_geometry"%string
                  /\ reason <> "no_tags"%string
                  /\ has_geometry feat = true /\ has_tags feat = true)).
    { destruct Hout as [(-> & Hg & _)|[(-> & Hg & Ht & _)|[(-> & Hk & _)
                        |(-> & Hk & _)]]]; auto;
        apply andb_true_iff in Hk; destruct Hk as [Hg Ht];
        right; right; repeat split; auto; discriminate. }
    unfold count_discard, total_discarded.
    destruct Hr as [(-> & Hg)|[(-> & Hg & Ht)|(N1 & N2 & Hg & Ht)]];
      rewrite ?Hg, ?Ht; cbn [String.eqb Ascii.eqb Bool.eqb andb negb
        missing_geometry no_tags unclassified].
    + repeat split; try lia; tauto.
    + repeat split; try lia; tauto.
    + destruct (String.eqb_spec reason "missing_geometry"); [contradiction|].
      destruct (String.eqb_spec reason "no_tags"); [contradiction|].
      cbn [missing_geometry no_tags unclassified].
      repeat split; try lia; tauto.
  - assert (Hok : reason = "ok"%string /\ records = []
                  /\ has_geometry feat = true /\ has_tags feat = true).
    { destruct Hout as [(_ & _ & -> & _)|[(_ & _ & _ & -> & _)
                        |[(-> & Hk & -> & _)|(_ & _ & -> & _)]]];
        try congruence.
      apply andb_true_iff in Hk. tauto. }
    destruct Hok as (-> & -> & Hg & Ht). rewrite Hg, Ht. cbn [andb negb].
    destruct (only_subcats && negb (str_in sub test_subcats)) eqn:Eo;
      intros [= <-]; cbn [total_feats discard_stats cat_map].
    + repeat split; try lia; try tauto.
      intros ->. discriminate.
    + destruct only_subcats eqn:Eonly; cbn [andb] in Eo.
      * apply negb_false_iff in Eo.
        repeat split; try lia; try discriminate.
        -- now apply cat_map_append_keys.
        -- now apply cat_map_append_keys.
        -- intros key f Hin. apply in_group_append in Hin.
           destruct Hin as [Hin|[-> ->]]; [auto|]. right. cbn [fst snd].
           repeat split; auto. intros _.
           unfold str_in in Eo. apply existsb_exists in Eo.
           destruct Eo as (x & Hx & E). apply String.eqb_eq in E. now subst.
      * repeat split; try lia.
        -- intros _. rewrite grouped_append. lia.
        -- now apply cat_map_append_keys.
        -- now apply cat_map_append_keys.
        -- intros key f Hin. apply in_group_append in Hin.
           destruct Hin as [Hin|[-> ->]]; [auto|]. right. cbn [fst snd].
           repeat split; auto. discriminate.
Qed.

Lemma classify_loop_effect rules lower only_subcats test_subcats feats :
  forall st st',
  classify_loop rules lower only_subcats test_subcats feats st = Ok st' ->
  total_feats st' = total_feats st + len feats
  /\ missing_geometry (discard_stats st')
     = missing_geometry (discard_stats st)
       + count_where (fun f => negb (has_geometry f)) feats
  /\ no_tags (discard_stats st')
     = no_tags (discard_stats st)
       + count_where (fun f => has_geometry f && negb (has_tags f)) feats
  /\ (only_subcats = false ->
      grouped (cat_map st') + total_discarded (discard_stats st')
      = grouped (cat_map st) + total_discarded (discard_stats st) + len feats)
  /\ (NoDup (map fst (cat_map st)) ->
      Forall (fun e => snd e <> []) (cat_map st) ->
      NoDup (map fst (cat_map st'))
      /\ Forall (fun e => snd e <> []) (cat_map st'))
  /\ (forall key f,
        in_group (cat_map st') key f ->
        in_group (cat_map st) key f
        \/ (In f feats
            /\ classify_poi rules lower f
               = Ok ((fst key, snd key, "ok"%string), [])
            /\ fst key <> "Discard"%string
            /\ (only_subcats = true -> In (snd key) test_subcats))).
Proof.
  unfold count_where, len.
  induction feats as [|feat rest IH]; intros st st'; cbn [classify_loop].
  - intros [= <-]. cbn [filter length]. repeat split; try lia; tauto.
  - destruct (classify_step rules lower only_subcats test_subcats st feat)
      as [st1|e] eqn:E1; [|discriminate].
    intros Hrest.
    destruct (classify_step_effect _ _ _ _ _ _ _ E1)
      as (S1 & S2 & S3 & _ & S5 & S6 & S7).
    destruct (IH _ _ Hrest) as (R1 & R2 & R3 & R5 & R6 & R7).
    cbn [filter length].
    split; [lia|]. split; [|split; [|split; [|split]]].
    + rewrite R2, S2. destruct (has_geometry feat); cbn [negb length]; lia.
    + rewrite R3, S3.
      destruct (has_geometry feat && negb (has_tags feat)); cbn [length]; lia.
    + intros Ho. specialize (S5 Ho). specialize (R5 Ho). lia.
    + intros Hnd Hne. destruct (S6 Hnd Hne) as [A B]. now apply R6.
    + intros key f Hin. destruct (R7 key f Hin) as [H|(H1 & H2)].
      * destruct (S7 key f H) as [H'|(-> & H')]; [auto|].
        right. split; [now left|exact H'].
      * right. split; [now right|exact H2].
Qed.

(** X20. When the classification loop of [build_subcat_quadtrees] ends, the
    total is the number of features read; the counters for missing geometry
    and for missing tags are the ones [filter_features] reports on the same
    features (both are 0 on features that came out of [filter_features]);
    without the subcategory filter every feature is either grouped or counted
    as discarded. The groups have distinct keys and are not empty, and a
    feature sits in a group only under the class [classify_poi] gives it with
    reason [ok]. *)
Theorem classify_all_accounts rules lower only_subcats test_subcats feats st :
  classify_all rules lower only_subcats test_subcats feats = Ok st ->
  total_feats st = len feats
  /\ (missing_geometry (discard_stats st), no_tags (discard_stats st))
     = (snd (fst (filter_features feats)), snd (filter_features feats))
  /\ (Forall (fun f => kept f = true) feats ->
      missing_geometry (discard_stats st) = 0
      /\ no_tags (discard_stats st) = 0)
  /\ (only_subcats = false ->
      grouped (cat_map st) + total_discarded (discard_stats st) = len feats)
  /\ NoDup (map fst (cat_map st))
  /\ Forall (fun e => snd e <> []) (cat_map st)
  /\ (forall key f,
        in_group (cat_map st) key f ->
        In f feats
        /\ classify_poi rules lower f
           = Ok ((fst key, snd key, "ok"%string), [])
        /\ fst key <> "Discard"%string
        /\ (only_subcats = true -> In (snd key) test_subcats)).
Proof.
  unfold classify_all. intros H.
  destruct (classify_loop_effect _ _ _ _ _ _ _ H)
    as (R1 & R2 & R3 & R5 & R6 & R7).
  cbn [total_feats discard_stats cat_map missing_geometry no_tags unclassified
       map] in *.
  assert (R5' : only_subcats = false ->
            grouped (cat_map st) + total_discarded (discard_stats st)
            = len feats).
  { intros Ho. rewrite (R5 Ho). unfold grouped, total_discarded. cbn. lia. }
  clear R5.
  split; [lia|]. split; [|split; [|split; [|split; [|split]]]].
  - rewrite filter_features_eq. cbn [fst snd]. f_equal; lia.
  - intros Hk. rewrite R2, R3. unfold count_where, len.
    assert (E : forall p : GeoFeature -> bool,
              (forall f, kept f = true -> p f = false) ->
              filter p feats = []).
    { intros p Hp. clear - Hk Hp.
      induction Hk as [|f fs Hf _ IH]; cbn [filter]; [reflexivity|].
      now rewrite (Hp f Hf). }
    rewrite !E; [cbn; lia| |]; unfold kept; intros f Hf;
      apply andb_true_iff in Hf; destruct Hf as [Hg Ht];
      rewrite ?Hg, ?Ht; reflexivity.
  - exact R5'.
  - apply R6; constructor.
  - apply R6; constructor.
  - intros key f Hin. destruct (R7 key f Hin) as [(fs & [] & _)|Hf]. exact Hf.
Qed.

(** X20, instance: the sample feature ends up in the group of its class. *)
Lemma classify_all_accounts_witness :
  exists st,
    classify_all sample_rules (fun s => s) false [] [sample_feature] = Ok st
    /\ total_feats st = 1
    /\ grouped (cat_map st) + total_discarded (discard_stats st) = 1.
Proof.
  eexists. split; [reflexivity|].
  destruct (classify_all_accounts sample_rules (fun s => s) false []
              [sample_feature] _ eq_refl) as (Ht & _ & _ & Hg & _).
  split; [exact Ht|]. now apply Hg.
Defined.

(** ** Category hierarchy *)

Lemma str_in_In x l : str_in x l = true <-> In x l.
Proof.
  unfold str_in. rewrite existsb_exists. split.
  - intros (y & Hy & E). apply String.eqb_eq in E. now subst.
  - intros H. exists x. split; [exact H|apply String.eqb_refl].
Qed.

Lemma set_add_spec x s :
  (forall y, In y (set_add x s) <-> In y s \/ y = x)
  /\ (NoDup s -> NoDup (set_add x s)) /\ set_add x s <> [].
Proof.
  unfold set_add. destruct (str_in x s) eqn:E.
  - apply str_in_In in E. repeat split; auto.
    + intros [H| ->]; auto.
    + intros ->. destruct E.
  - assert (Hx : ~ In x s) by (rewrite <- str_in_In; congruence).
    repeat split.
    + intros H. apply in_app_or in H. destruct H as [H|[<-|[]]]; auto.
    + intros [H| ->]; apply in_or_app; [auto|right; now left].
    + intros Hnd. apply NoDup_app; [exact Hnd|repeat constructor; auto|].
      intros a Ha [<-|[]]. contradiction.
    + destruct s; discriminate.
Qed.

Lemma category_add_spec m cat sub :
  category_map_ok m ->
  category_map_ok (category_add m cat sub)
  /\ (forall c s,
        (exists subs, In (c, subs) (category_add m cat sub) /\ In s subs) <->
        (exists subs, In (c, subs) m /\ In s subs) \/ (c = cat /\ s = sub))
  /\ (forall c, In c (map fst (category_add m cat sub)) <->
                In c (map fst m) \/ c = cat).
Proof.
  unfold category_map_ok.
  induction m as [|[c0 subs0] rest IH]; intros [Hnd Hall]; cbn [category_add].
  - destruct (set_add_spec sub []) as (S1 & S2 & S3).
    split; [split; [cbn; constructor; [intros []|constructor]|]|split].
    + constructor; [cbn [snd]; split; [exact S3|apply S2; constructor]
                   |constructor].
    + intros c s. split.
      * intros (subs & [[= <- <-]|[]] & Hs). apply S1 in Hs.
        destruct Hs as [[]| ->]. auto.
      * intros [(subs & [] & _)|[-> ->]]. eexists. split; [now left|].
        apply S1. auto.
    + intros c. cbn. split; [intros [<-|[]]; auto|intros [[]| ->]; auto].
  - cbn [map fst] in Hnd. apply NoDup_cons_iff in Hnd. destruct Hnd as [Hc0 Hnd].
    apply Forall_cons_iff in Hall. destruct Hall as [[Hne0 Hnd0] Hall].
    cbn [snd] in Hne0, Hnd0.
    destruct (String.eqb_spec c0 cat) as [->|Hne].
    + destruct (set_add_spec sub subs0) as (S1 & S2 & S3).
      split; [split|split].
      * cbn [map fst]. constructor; assumption.
      * constructor; [cbn [snd]; auto|exact Hall].
      * intros c s. split.
        -- intros (subs & [[= <- <-]|Hin] & Hs).
           ++ apply S1 in Hs. destruct Hs as [Hs| ->]; [|auto].
              left. exists subs0. split; [now left|exact Hs].
           ++ left. exists subs. split; [now right|exact Hs].
        -- intros [(subs & [[= <- <-]|Hin] & Hs)|[-> ->]].
           ++ eexists. split; [now left|]. apply S1. auto.
           ++ exists subs. split; [now right|exact Hs].
           ++ eexists. split; [now left|]. apply S1. auto.
      * intros c. cbn. split; [auto|intros [H| ->]; [exact H|now left]].
    + destruct (IH (conj Hnd Hall)) as ((I1 & I2) & I3 & I4).
      split; [split|split].
      * cbn [map fst]. constructor; [|exact I1]. rewrite I4.
        intros [H|E]; [contradiction|congruence].
      * constructor; [cbn [snd]; auto|exact I2].
      * intros c s. split.
        -- intros (subs & [[= <- <-]|Hin] & Hs).
           ++ left. exists subs0. split; [now left|exact Hs].
           ++ destruct (proj1 (I3 c s) (ex_intro _ subs (conj Hin Hs)))
                as [(subs' & Hin' & Hs')|H]; [|auto].
              left. exists subs'. split; [now right|exact Hs'].
        -- intros [(subs & [[= <- <-]|Hin] & Hs)|H].
           ++ exists subs0. split; [now left|exact Hs].
           ++ destruct (proj2 (I3 c s)
                          (or_introl (ex_intro _ subs (conj Hin Hs))))
                as (subs' & Hin' & Hs').
              exists subs'. split; [now right|exact Hs'].
           ++ destruct (proj2 (I3 c s) (or_intror H)) as (subs' & Hin' & Hs').
              exists subs'. split; [now right|exact Hs'].
      * intros c. cbn. rewrite I4. tauto.
Qed.

Lemma insert_sorted_In x l y : In y (insert_sorted x l) <-> y = x \/ In y l.
Proof.
  induction l as [|z l IH]; cbn [insert_sorted In].
  - split; [intros [<-|[]]; auto|intros [->|[]]; auto].
  - destruct (String.leb x z); cbn [In]; [|rewrite IH]; split; intuition auto.
Qed.

Lemma py_sorted_In l y : In y (py_sorted l) <-> In y l.
Proof.
  unfold py_sorted. induction l as [|x l IH]; cbn [fold_right In]; [tauto|].
  rewrite insert_sorted_In, IH. split; intuition auto.
Qed.

Lemma leb_false_ltb x y : String.leb x y = false -> String.ltb y x = true.
Proof.
  unfold String.leb, String.ltb. rewrite (String.compare_antisym y x).
  destruct (String.compare x y); cbn; congruence.
Qed.

Lemma leb_neq_ltb x y : String.leb x y = true -> x <> y -> String.ltb x y = true.
Proof.
  unfold String.leb, String.ltb. intros H Hne.
  destruct (String.compare x y) eqn:E; try congruence.
  apply String.compare_eq_iff in E. contradiction.
Qed.

Lemma insert_sorted_ascending x l :
  ascending l -> ~ In x l -> ascending (insert_sorted x l).
Proof.
  unfold ascending. induction 1 as [|z l Hl IH Hz]; intros Hx;
    cbn [insert_sorted].
  - repeat constructor.
  - destruct (String.leb x z) eqn:E.
    + constructor; [constructor; assumption|]. constructor.
      apply leb_neq_ltb; [exact E|]. intros ->. apply Hx. now left.
    + apply leb_false_ltb in E.
      constructor; [apply IH; intros H; apply Hx; now right|].
      destruct l as [|w l]; cbn [insert_sorted].
      * constructor. exact E.
      * destruct (String.leb x w); constructor; [exact E|].
        now inversion Hz.
Qed.

Lemma py_sorted_ascending l : NoDup l -> ascending (py_sorted l).
Proof.
  induction 1 as [|x l Hx _ IH].
  - constructor.
  - change (py_sorted (x :: l)) with (insert_sorted x (py_sorted l)).
    apply insert_sorted_ascending; [exact IH|].
    intros H. apply Hx. now rewrite py_sorted_In in H.
Qed.

Lemma inner_loop_spec value_map : forall m,
  category_map_ok m ->
  category_map_ok (add_value_map m value_map)
  /\ (forall c s,
        (exists subs, In (c, subs) (add_value_map m value_map) /\ In s subs) <->
        (exists subs, In (c, subs) m /\ In s subs)
        \/ (exists v, In (v, (c, s)) value_map)).
Proof.
  unfold add_value_map.
  induction value_map as [|[v [cat sub]] rest IH]; intros m Hok;
    cbn [fold_left].
  - split; [exact Hok|]. intros c s. split; [auto|].
    intros [H|(v & [])]. exact H.
  - destruct (category_add_spec m cat sub Hok) as (A1 & A2 & _).
    destruct (IH _ A1) as (B1 & B2). split; [exact B1|].
    intros c s. rewrite B2, A2. split.
    + intros [[H|[-> ->]]|(v' & Hv)]; [auto| |].
      * right. exists v. now left.
      * right. exists v'. now right.
    + intros [H|(v' & [[= -> -> ->]|Hv])]; [auto| |].
      * left. right. auto.
      * right. eauto.
Qed.

Lemma outer_loop_spec rules : forall m,
  category_map_ok m ->
  category_map_ok (add_rules m rules)
  /\ (forall c s,
        (exists subs, In (c, subs) (add_rules m rules) /\ In s subs) <->
        (exists subs, In (c, subs) m /\ In s subs) \/ class_in_rules rules c s).
Proof.
  unfold class_in_rules, add_rules.
  induction rules as [|[tag_key value_map] rest IH]; intros m Hok;
    cbn [fold_left].
  - split; [exact Hok|]. intros c s. split; [auto|].
    intros [H|(k & vm & v & [] & _)]. exact H.
  - destruct (inner_loop_spec value_map m Hok) as (A1 & A2).
    destruct (IH _ A1) as (B1 & B2). split; [exact B1|].
    intros c s. rewrite B2, A2. split.
    + intros [[H|(v & Hv)]|(k & vm & v & Hk & Hv)]; [auto| |].
      * right. exists tag_key, value_map, v. split; [now left|exact Hv].
      * right. exists k, vm, v. split; [now right|exact Hv].
    + intros [H|(k & vm & v & [[= -> ->]|Hk] & Hv)]; [auto| |].
      * left. right. eauto.
      * right. eauto 6.
Qed.

(** X21. In the dictionary [export_subcat_definitions] writes, every
    category of the rules table occurs once, its list of subcategories is
    strictly ascending and not empty, and a subcategory is listed under a
    category exactly when the table gives that class to some tag. For the
    table of the repository the categories come out in the order of
    [table_categories]. *)
Theorem export_subcat_definitions_sorted (rules : Rules) :
  NoDup (map fst (export_subcat_definitions rules))
  /\ Forall (fun e => ascending (snd e) /\ snd e <> [])
            (export_subcat_definitions rules)
  /\ (forall cat sub,
        (exists subs, In (cat, subs) (export_subcat_definitions rules)
                      /\ In sub subs)
        <-> class_in_rules rules cat sub)
  /\ map fst (export_subcat_definitions CLASSIFICATION_RULES)
     = table_categories.
Proof.
  unfold export_subcat_definitions. cbv zeta.
  destruct (outer_loop_spec rules [] (conj (NoDup_nil _) (Forall_nil _)))
    as ((H1 & H2) & H3).
  set (m := add_rules [] rules) in *.
  split; [|split; [|split]].
  - rewrite map_map.
    replace (map (fun x => fst (let '(cat, subcats) := x in
                                (cat, py_sorted subcats))) m)
      with (map fst m); [exact H1|].
    apply map_ext. intros [c subs]. reflexivity.
  - apply Forall_map. eapply Forall_impl; [|exact H2].
    intros [c subs] [Hne Hnd]. cbn [snd] in *. split.
    + now apply py_sorted_ascending.
    + intros E. destruct subs as [|s subs]; [congruence|].
      assert (Hs : In s (py_sorted (s :: subs)))
        by (rewrite py_sorted_In; now left).
      now rewrite E in Hs.
  - intros cat sub. split.
    + intros (subs & Hin & Hs). apply in_map_iff in Hin.
      destruct Hin as ([c subs0] & E & Hin). injection E as -> <-.
      rewrite py_sorted_In in Hs.
      destruct (proj1 (H3 cat sub) (ex_intro _ subs0 (conj Hin Hs)))
        as [(x & [] & _)|H]. exact H.
    + intros H. destruct (proj2 (H3 cat sub) (or_intror H)) as (subs & Hin & Hs).
      exists (py_sorted subs). split; [|now rewrite py_sorted_In].
      apply in_map_iff. exists (cat, subs). auto.
  - vm_compute. reflexivity.
Qed.

(** ** Children and quadrants *)

Lemma quadrant_children_boxes max_per_node depth feats quads :
  map bbox (quadrant_children
              (fun b q => _build max_per_node b q depth) feats quads)
  = filter (fun q => existsb (contains_feature q) feats) quads.
Proof.
  unfold quadrant_children.
  induction quads as [|q quads IH]; cbn [flat_map filter map]; [reflexivity|].
  rewrite map_app, IH. unfold bucket_of.
  assert (E : is_empty (filter (contains_feature q) feats)
              = negb (existsb (contains_feature q) feats)).
  { clear. induction feats as [|f fs IH]; cbn [filter existsb]; [reflexivity|].
    destruct (contains_feature q f); cbn [is_empty orb]; [reflexivity|exact IH]. }
  rewrite E. destruct (existsb (contains_feature q) feats); cbn [negb map app].
  - now rewrite bbox_build.
  - reflexivity.
Qed.

Lemma existsb_same_features (p : Feature -> bool) (l l' : list Feature) :
  (forall f, p f = true -> (In f l <-> In f l')) ->
  existsb p l = existsb p l'.
Proof.
  intros H. destruct (existsb p l) eqn:E; symmetry.
  - apply existsb_exists in E. destruct E as (f & Hf & Hp).
    apply existsb_exists. exists f. split; [now apply H|exact Hp].
  - destruct (existsb p l') eqn:E'; [|reflexivity].
    apply existsb_exists in E'. destruct E' as (f & Hf & Hp).
    assert (existsb p l = true)
      by (apply existsb_exists; exists f; split; [now apply H|exact Hp]).
    congruence.
Qed.

Lemma filter_ext_in_list {A : Type} (p q : A -> bool) (l : list A) :
  (forall x, In x l -> p x = q x) -> filter p l = filter q l.
Proof.
  induction l as [|x l IH]; intros H; cbn [filter]; [reflexivity|].
  rewrite (H x) by now left. rewrite IH; [reflexivity|].
  intros y Hy. apply H. now right.
Qed.

Lemma build_children_boxes max_per_node feats box depth :
  children (_build max_per_node feats box depth) <> [] ->
  map bbox (children (_build max_per_node feats box depth))
  = filter (fun q => existsb (contains_feature q)
                       (leaf_features (_build max_per_node feats box depth)))
           (subdivide_into_quadrants box)
  /\ Forall (fun c => 1 <= poiCount c)
            (children (_build max_per_node feats box depth)).
Proof.
  intros Hne. rewrite children_build in Hne |- *.
  destruct (leaf_test max_per_node feats depth) eqn:Ht; [congruence|].
  split.
  - rewrite quadrant_children_boxes. apply filter_ext_in_list.
    intros q Hq. apply existsb_same_features. intros f Hf. split.
    + intros Hin. apply held_by_some_leaf; [exact Hin|].
      apply contains_some_quadrant. eauto.
    + apply leaf_features_from_input.
  - apply quadrant_children_Forall. intros q Hq Hb.
    pose proof (build_count_lower max_per_node (bucket_of feats q) q (depth + 1))
      as Hlow.
    unfold inside_count in Hlow. unfold bucket_of in *.
    rewrite inside_count_all in Hlow by (intros f; apply filter_inside_all).
    destruct (filter (contains_feature q) feats); [congruence|].
    unfold len in Hlow. cbn [length] in Hlow. lia.
Qed.

(** X22. A node of a built tree that has children has one child for each
    quadrant of its box that contains one of the features held below the
    node, in the order of the quadrants, and none for the other quadrants;
    every child counts at least one point. *)
Theorem children_are_occupied_quadrants feats box max_per_node n :
  In n (subnodes (build_quadtree_for_category feats box max_per_node)) ->
  children n <> [] ->
  map bbox (children n)
  = filter (fun q => existsb (contains_feature q) (leaf_features n))
           (subdivide_into_quadrants (bbox n))
  /\ Forall (fun c => 1 <= poiCount c) (children n).
Proof.
  intros (d & Hn)%(in_subnodes_depth 0) Hne.
  apply built_node_form in Hn. destruct Hn as (_ & fs & q & -> & _).
  rewrite bbox_build. now apply build_children_boxes.
Qed.

(** X22, instance: the root of the four-point tree has all four quadrants. *)
Lemma children_are_occupied_quadrants_witness :
  let t := build_quadtree_for_category four_points box_0_4 1 in
  In t (subnodes t) /\ children t <> []
  /\ map bbox (children t) = subdivide_into_quadrants box_0_4.
Proof.
  cbv zeta.
  set (t := build_quadtree_for_category four_points box_0_4 1).
  assert (H : In t (subnodes t)) by (vm_compute; left; reflexivity).
  assert (Hne : children t <> []) by (vm_compute; discriminate).
  split; [exact H|]. split; [exact Hne|].
  destruct (children_are_occupied_quadrants four_points box_0_4 1 t H Hne)
    as [Hb _].
  rewrite Hb. vm_compute. reflexivity.
Defined.

(** ** The logged chunk count *)

Lemma snd_enumerate {A : Type} (l : list A) : map snd (enumerate l) = l.
Proof.
  unfold enumerate. generalize 0%nat.
  induction l as [|x l IH]; intros k; cbn [length seq combine map snd];
    [reflexivity|].
  now rewrite IH.
Qed.

Lemma is_empty_bucket feats cbox :
  is_empty (filter (contains_feature cbox) feats) = negb (occupied feats cbox).
Proof.
  unfold occupied.
  induction feats as [|f fs IH]; cbn [filter existsb]; [reflexivity|].
  destruct (contains_feature cbox f); cbn [is_empty orb]; [reflexivity|exact IH].
Qed.

Lemma chunk_loop_length feats (l : list (nat * Quad)) :
  length
    (flat_map
       (fun '(i, cbox) =>
          let chunk_feats := filter (contains_feature cbox) feats in
          if is_empty chunk_feats then []
          else [(i, build_quadtree_for_category chunk_feats cbox 50)]) l)
  = length (filter (occupied feats) (map snd l)).
Proof.
  induction l as [|[i cbox] l IH]; [reflexivity|].
  match goal with
  | |- context [flat_map ?g ((i, cbox) :: l)] =>
      change (flat_map g ((i, cbox) :: l)) with (g (i, cbox) ++ flat_map g l)
  end.
  rewrite length_app, IH. cbn [map snd filter]. cbv zeta.
  rewrite is_empty_bucket.
  destruct (occupied feats cbox); reflexivity.
Qed.

Lemma filter_length_all {A : Type} (p : A -> bool) (l : list A) :
  (length (filter p l) <= length l)%nat
  /\ (length (filter p l) = length l <-> forall x, In x l -> p x = true).
Proof.
  induction l as [|x l [IHle IHiff]]; cbn [filter length].
  - split; [lia|]. split; [intros _ x []|reflexivity].
  - destruct (p x) eqn:E; cbn [length].
    + split; [lia|]. split.
      * intros H y [<-|Hy]; [exact E|]. apply IHiff; [lia|exact Hy].
      * intros H. f_equal. apply IHiff. intros y Hy. apply H. now right.
    + split; [lia|]. split; [lia|].
      intros H. rewrite (H x) in E by now left. discriminate.
Qed.

(** X24. After the chunk loop, the number logged as "non-empty chunks" is
    16 for every master box and every feature list, whereas the number of
    chunk trees written is the number of chunks that hold a feature; the two
    agree exactly when each of the sixteen chunks holds a feature. *)
Theorem logged_chunk_count_is_sixteen feats master :
  logged_chunk_count master = Some 16
  /\ length (chunk_quadtrees feats master)
     = length (filter (occupied feats) (subdivide_into_16 master))
  /\ (length (chunk_quadtrees feats master) <= 16)%nat
  /\ (length (chunk_quadtrees feats master) = 16%nat <->
      forall cbox, In cbox (subdivide_into_16 master) ->
                   exists f, In f feats /\ contains_feature cbox f = true).
Proof.
  assert (Hlen : length (chunk_quadtrees feats master)
                 = length (filter (occupied feats) (subdivide_into_16 master))).
  { unfold chunk_quadtrees. rewrite chunk_loop_length.
    now rewrite snd_enumerate. }
  destruct (filter_length_all (occupied feats) (subdivide_into_16 master))
    as [Hle Hiff].
  change (length (subdivide_into_16 master)) with 16%nat in Hle, Hiff.
  split; [reflexivity|]. split; [exact Hlen|]. rewrite Hlen.
  split; [exact Hle|]. rewrite Hiff.
  split; intros H cbox Hc; specialize (H cbox Hc); unfold occupied in *.
  - apply existsb_exists in H. exact H.
  - apply existsb_exists. exact H.
Qed.
